(** * Figures 3.2a and 3.44 of IPCC AR6 WGI, Chapter 3: the averaging stage

    A shallow embedding of [IPCCAR6_WG1_Chapter3_Figs3.2a_3.44.py]: the
    configuration tables, Part I (spatial and temporal averages of the
    reconstructions and of the model output, stored in [dic_res] and cached
    with [shelve]) and the reads and writes of Part II (the two figures and
    their numerical reports).

    Conventions of the embedding.
    - A Python float is a value of [fnum]: an exact rational or NaN.  The
      rounding of binary64 arithmetic is not modelled.
    - A masked array is a list of cells (mask flag, datum) in row-major
      order; a field with a time axis is a list of such slices.
    - The libraries the script calls (cdms2, cdutil, glob, the two random
      generators, the square root) are the fields of a record [World]; the
      script threads a [State] (its module-level names that outlive an
      iteration, the positions in the two random streams, standard output
      and the shelve file) through an exception monad. *)

From Stdlib Require Import Ascii String QArith Qabs Lia Permutation.
From stdpp Require Import gmap strings list fin_maps.

#[local] Open Scope string_scope.
#[local] Open Scope list_scope.

(* ================================================================== *)
(** * Numbers *)

Inductive fnum : Type :=
| Fin (q : Q)
| NaN.

Definition isnan (x : fnum) : bool :=
  match x with NaN => true | Fin _ => false end.

(** The result of an operation is kept in lowest terms. *)
Definition fbin (op : Q -> Q -> Q) (x y : fnum) : fnum :=
  match x, y with
  | Fin a, Fin b => Fin (Qred (op a b))
  | _, _ => NaN
  end.

Definition fadd : fnum -> fnum -> fnum := fbin Qplus.
Definition fsub : fnum -> fnum -> fnum := fbin Qminus.
Definition fmul : fnum -> fnum -> fnum := fbin Qmult.

(** Division as the script uses it: the divisor is the length of a list, and
    [0/0] (the mean of an empty list) is NaN. *)
Definition fdiv (x y : fnum) : fnum :=
  match x, y with
  | Fin a, Fin b => if Qeq_bool b 0 then NaN else Fin (Qred (a / b))
  | _, _ => NaN
  end.

Definition fabs (x : fnum) : fnum :=
  match x with Fin a => Fin (Qabs a) | NaN => NaN end.

Definition of_nat (n : nat) : fnum := Fin (inject_Z (Z.of_nat n)).

(** [N.sum], [N.average] (also [N.mean]) and [N.std] of a one-dimensional
    array or list of floats.  [N.std] is numpy's default, with divisor the
    number of elements: the square root of the mean of the squared
    deviations from the mean. *)
Definition np_sum (l : list fnum) : fnum := foldl fadd (Fin 0) l.

Definition np_average (l : list fnum) : fnum :=
  fdiv (np_sum l) (of_nat (length l)).

Definition np_var (l : list fnum) : fnum :=
  let m := np_average l in
  np_average (map (fun x => let d := fabs (fsub x m) in fmul d d) l).

Definition fsqrt (sqrtQ : Q -> Q) (x : fnum) : fnum :=
  match x with Fin a => Fin (sqrtQ a) | NaN => NaN end.

Definition np_std (sqrtQ : Q -> Q) (l : list fnum) : fnum :=
  fsqrt sqrtQ (np_var l).

(** Element-wise operations of two arrays of one shape; [None] stands for
    the ValueError numpy raises when the shapes differ. *)
Fixpoint zip_exact {A B C} (f : A -> B -> C) (l : list A) (k : list B)
  : option (list C) :=
  match l, k with
  | [], [] => Some []
  | a :: l', b :: k' =>
      match zip_exact f l' k' with
      | Some r => Some (f a b :: r)
      | None => None
      end
  | _, _ => None
  end.

(* ================================================================== *)
(** * Masked arrays and cdms2 variables *)

(** A cell is [(m, x)]: [m = true] when the cell is masked. *)
Definition cell : Type := bool * fnum.
Definition marray : Type := list cell.

Definition ma_mask (a : marray) : list bool := map fst a.
Definition ma_data (a : marray) : list fnum := map snd a.

Definition unmasked (c : cell) : bool := negb (fst c).

(** [a.compressed()]: the data of the unmasked cells, in order. *)
Definition compressed (a : marray) : list fnum :=
  map snd (List.filter unmasked a).

(** [a.count()]: the number of unmasked cells. *)
Definition ma_count (a : marray) : nat :=
  length (List.filter unmasked a).

(** [MV.masked_where(cond, a)]: the mask becomes [a.mask | cond], the data
    are kept; [None] when the shapes differ. *)
Definition masked_where (cond : list bool) (a : marray) : option marray :=
  zip_exact (fun c (x : cell) => (orb (fst x) c, snd x)) cond a.

(** [MV.masked_where(N.isnan(a), a)]. *)
Definition mask_nan (a : marray) : marray :=
  map (fun x : cell => (orb (fst x) (isnan (snd x)), snd x)) a.

(** [m1 + m2] on boolean masks. *)
Definition mask_add (m1 m2 : list bool) : option (list bool) :=
  zip_exact orb m1 m2.

(** [N.sum] of a masked array: the sum of the unmasked data, and the
    constant [masked] ([None]) when every cell is masked. *)
Definition ma_sum (a : marray) : option fnum :=
  match compressed a with
  | [] => None
  | l => Some (np_sum l)
  end.

(** An arithmetic operation with a scalar, [a -= s] and [a *= s]: it acts on
    the unmasked cells; the datum under a masked cell is left as it was. *)
Definition ma_map (f : fnum -> fnum) (a : marray) : marray :=
  map (fun x : cell => if fst x then x else (false, f (snd x))) a.

(** [a /= s] for the result [s] of [N.sum]: a division is a domained
    operation, every cell is masked when the divisor is [masked] or zero. *)
Definition ma_div (a : marray) (s : option fnum) : marray :=
  match s with
  | Some (Fin t) =>
      if Qeq_bool t 0 then map (fun x : cell => (true, snd x)) a
      else ma_map (fun x => fdiv x (Fin t)) a
  | _ => map (fun x : cell => (true, snd x)) a
  end.

(** A horizontal grid, known here by the area weight of its cells
    (row-major, as [cdutil.area_weights] lays them out). *)
Record Grid : Type := { cell_area : nat -> Q }.

(** A variable on a grid without time axis (a reconstruction) and with a
    leading time axis (model output). *)
Record tvar2 : Type := { grid2 : Grid; cells2 : marray }.
Record tvar3 : Type := { grid3 : Grid; cells3 : list marray }.

(** [cdutil.area_weights(x)]: the area weights of the grid of [x], masked
    where [x] is masked. *)
Fixpoint area_cells (g : Grid) (i : nat) (a : marray) : marray :=
  match a with
  | [] => []
  | c :: a' => (fst c, Fin (cell_area g i)) :: area_cells g (S i) a'
  end.

Definition area_weights (x : tvar2) : marray :=
  area_cells (grid2 x) 0 (cells2 x).

Definition tmap3 (f : fnum -> fnum) (v : tvar3) : tvar3 :=
  {| grid3 := grid3 v; cells3 := map (ma_map f) (cells3 v) |}.

(* ================================================================== *)
(** * Python objects, exceptions and the nested dictionary [dic_res] *)

(** The exceptions of the script.  [SubscriptError] stands for what a
    subscript [o[k]] or an item assignment [o[k] = v] with a string key
    raises on an object that is not a dictionary: TypeError on a number of
    Python, IndexError on a scalar or an array of numpy, TypeError again
    for an item assignment to a scalar of numpy.  [dic_res] holds objects
    of both kinds at its leaves ([N.average] and [N.std] return scalars of
    numpy, the mask is an array, [count()] returns either kind of integer)
    and the script handles no exception, so the two are not told apart. *)
Inductive exn : Type :=
| KeyError | NameError | TypeError | ValueError | IndexError | CDMSError
| SubscriptError.

Inductive result (A : Type) : Type :=
| Ok (a : A)
| Raise (e : exn).
Arguments Ok {A} a.
Arguments Raise {A} e.

Definition is_ok {A} (r : result A) : bool :=
  match r with Ok _ => true | Raise _ => false end.

Definition of_option {A} (e : exn) (o : option A) : result A :=
  match o with Some a => Ok a | None => Raise e end.

Definition rbind {A B} (r : result A) (k : A -> result B) : result B :=
  match r with Ok a => k a | Raise e => Raise e end.

Notation "'let+' x ':=' r 'in' k" := (rbind r (fun x => k))
  (at level 10, x name, r at level 100, k at level 200).

(** The values [dic_res] holds: floats, the integer count 'nbpts', the
    boolean array 'mask', and dictionaries with string keys. *)
#[warnings="-register-all"]
Inductive pyobj : Type :=
| PyFloat (x : fnum)
| PyInt (n : nat)
| PyMask (m : list bool)
| PyDict (d : gmap string pyobj).

Definition empty_dict : pyobj := PyDict ∅.

(** [o[k1][k2]...[kn]]: KeyError for a key that a dictionary on the way
    does not hold, the error of a subscript on a number or an array below
    such an object. *)
Fixpoint getpath (p : list string) (o : pyobj) : result pyobj :=
  match p with
  | [] => Ok o
  | k :: p' =>
      match o with
      | PyDict d =>
          match d !! k with
          | Some o' => getpath p' o'
          | None => Raise KeyError
          end
      | _ => Raise SubscriptError
      end
  end.

(** [o[k1]...[kn][k] = v]: the dictionaries on the way must exist, and
    [o[k1]...[kn]] must be a dictionary. *)
Fixpoint setpath (p : list string) (k : string) (v : pyobj) (o : pyobj)
  : result pyobj :=
  match o with
  | PyDict d =>
      match p with
      | [] => Ok (PyDict (<[k := v]> d))
      | a :: p' =>
          match d !! a with
          | Some o' =>
              match setpath p' k v o' with
              | Ok o'' => Ok (PyDict (<[a := o'']> d))
              | Raise e => Raise e
              end
          | None => Raise KeyError
          end
      end
  | _ => Raise SubscriptError
  end.

(** Tables of the configuration are association lists in source order. *)
Fixpoint assoc {A} (k : string) (l : list (string * A)) : option A :=
  match l with
  | [] => None
  | (k', a) :: l' => if String.eqb k k' then Some a else assoc k l'
  end.

(** [x in l] for a list of strings, and [x in d.keys()]. *)
Definition str_in (x : string) (l : list string) : bool :=
  existsb (String.eqb x) l.

Definition keys {A} (l : list (string * A)) : list string := map fst l.

(* ================================================================== *)
(** * The world outside the script *)

(** [(lo, hi, kind)], a latitude or longitude selector of cdms2. *)
Record range : Type := { r_lo : Z; r_hi : Z; r_kind : string }.
Definition box : Type := range * range.

Record World : Type := {
  (** [c.open(path)(varname, lat=.., lon=..)] for a reconstruction file and
      for a model file; [None] when the file or the variable is missing. *)
  cdms_read2 : string -> string -> box -> option tvar2;
  cdms_read3 : string -> string -> box -> option tvar3;
  (** [glob.glob(pattern)]. *)
  glob_glob : string -> list string;
  (** [v.regrid(grid, regridTool='regrid2')]. *)
  regrid : tvar3 -> Grid -> tvar3;
  (** [cdutil.averager(v, axis='12', weights=['weighted','weighted'],
      combinewts=1).compressed()]: the series of the regional averages. *)
  averager : tvar3 -> list fnum;
  (** The square root of binary64. *)
  sqrtQ : Q -> Q;
  (** The successive standard normal deviates [z] drawn by [random.gauss]. *)
  gauss_z : N -> Q;
  (** The permutation of [range(n)] that the [k]-th call of
      [N.random.choice(.., replace=0)] draws for a population of [n]. *)
  np_perm : N -> nat -> list nat;
  (** Whether Python enumerates the keys of [dic_stat_vars] in the order
      opposite to the one of the source text. *)
  stat_keys_swapped : bool;
  (** The order in which Python enumerates the keys of a dictionary
      literal, given in source order. *)
  keys_order : forall A : Type, list A -> list A;
}.

(** One item of a printed or written line, and one plotting call
    (method name and the data passed). *)
Inductive out_item : Type :=
| OStr (s : string)
| OFloat (x : fnum)
| ONat (n : nat)
| OList (l : list string)
| OObj (o : pyobj).

Definition out_line : Type := list out_item.

(** The names of Part II that are bound inside a branch or a loop and
    read outside it. *)
Record Locals2 : Type := {
  delta : option pyobj;
  deltaerr : option pyobj;
  pmipphase : option string;
  list_pmip4_models2 : option (list string);
  index_i : option nat;
}.

Definition no_locals2 : Locals2 :=
  {| delta := None; deltaerr := None; pmipphase := None;
     list_pmip4_models2 := None; index_i := None |}.

(** The names of the script whose binding outlives an iteration, and what
    the script leaves outside itself. *)
Record State : Type := {
  dic_res : pyobj;
  chosenmask : option (list bool);
  fnamepi : option string;
  fnamepast : option string;
  locals2 : Locals2;
  (** positions in the two random streams *)
  gauss_pos : N;
  choice_pos : N;
  (** standard output, files written (name, line), plotting calls *)
  stdout : list out_line;
  written : list (string * out_line);
  plotted : list (string * out_line);
  (** the shelve file [DMC_LGM_MH_PMIP3_PMIP4_IPCC_save_res2] *)
  shelf : gmap string pyobj;
}.

Definition with_dic_res (x : pyobj) (s : State) : State :=
  {| dic_res := x; chosenmask := chosenmask s; fnamepi := fnamepi s;
     fnamepast := fnamepast s; locals2 := locals2 s;
     gauss_pos := gauss_pos s; choice_pos := choice_pos s;
     stdout := stdout s; written := written s; plotted := plotted s;
     shelf := shelf s |}.

Definition with_chosenmask (x : list bool) (s : State) : State :=
  {| dic_res := dic_res s; chosenmask := Some x; fnamepi := fnamepi s;
     fnamepast := fnamepast s; locals2 := locals2 s;
     gauss_pos := gauss_pos s; choice_pos := choice_pos s;
     stdout := stdout s; written := written s; plotted := plotted s;
     shelf := shelf s |}.

Definition with_fnamepi (x : string) (s : State) : State :=
  {| dic_res := dic_res s; chosenmask := chosenmask s; fnamepi := Some x;
     fnamepast := fnamepast s; locals2 := locals2 s;
     gauss_pos := gauss_pos s; choice_pos := choice_pos s;
     stdout := stdout s; written := written s; plotted := plotted s;
     shelf := shelf s |}.

Definition with_fnamepast (x : string) (s : State) : State :=
  {| dic_res := dic_res s; chosenmask := chosenmask s; fnamepi := fnamepi s;
     fnamepast := Some x; locals2 := locals2 s; gauss_pos := gauss_pos s;
     choice_pos := choice_pos s; stdout := stdout s; written := written s;
     plotted := plotted s; shelf := shelf s |}.

Definition with_locals2 (x : Locals2) (s : State) : State :=
  {| dic_res := dic_res s; chosenmask := chosenmask s; fnamepi := fnamepi s;
     fnamepast := fnamepast s; locals2 := x; gauss_pos := gauss_pos s;
     choice_pos := choice_pos s; stdout := stdout s; written := written s;
     plotted := plotted s; shelf := shelf s |}.

Definition with_gauss_pos (x : N) (s : State) : State :=
  {| dic_res := dic_res s; chosenmask := chosenmask s; fnamepi := fnamepi s;
     fnamepast := fnamepast s; locals2 := locals2 s; gauss_pos := x;
     choice_pos := choice_pos s; stdout := stdout s; written := written s;
     plotted := plotted s; shelf := shelf s |}.

Definition with_choice_pos (x : N) (s : State) : State :=
  {| dic_res := dic_res s; chosenmask := chosenmask s; fnamepi := fnamepi s;
     fnamepast := fnamepast s; locals2 := locals2 s;
     gauss_pos := gauss_pos s; choice_pos := x; stdout := stdout s;
     written := written s; plotted := plotted s; shelf := shelf s |}.

Definition with_stdout (x : list out_line) (s : State) : State :=
  {| dic_res := dic_res s; chosenmask := chosenmask s; fnamepi := fnamepi s;
     fnamepast := fnamepast s; locals2 := locals2 s;
     gauss_pos := gauss_pos s; choice_pos := choice_pos s; stdout := x;
     written := written s; plotted := plotted s; shelf := shelf s |}.

Definition with_written (x : list (string * out_line)) (s : State) : State :=
  {| dic_res := dic_res s; chosenmask := chosenmask s; fnamepi := fnamepi s;
     fnamepast := fnamepast s; locals2 := locals2 s;
     gauss_pos := gauss_pos s; choice_pos := choice_pos s;
     stdout := stdout s; written := x; plotted := plotted s;
     shelf := shelf s |}.

Definition with_plotted (x : list (string * out_line)) (s : State) : State :=
  {| dic_res := dic_res s; chosenmask := chosenmask s; fnamepi := fnamepi s;
     fnamepast := fnamepast s; locals2 := locals2 s;
     gauss_pos := gauss_pos s; choice_pos := choice_pos s;
     stdout := stdout s; written := written s; plotted := x;
     shelf := shelf s |}.

Definition with_shelf (x : gmap string pyobj) (s : State) : State :=
  {| dic_res := dic_res s; chosenmask := chosenmask s; fnamepi := fnamepi s;
     fnamepast := fnamepast s; locals2 := locals2 s;
     gauss_pos := gauss_pos s; choice_pos := choice_pos s;
     stdout := stdout s; written := written s; plotted := plotted s;
     shelf := x |}.

(** The state of a fresh interpreter, with the shelve file it finds. *)
Definition initial_state (file : gmap string pyobj) : State :=
  {| dic_res := empty_dict; chosenmask := None; fnamepi := None;
     fnamepast := None; locals2 := no_locals2;
     gauss_pos := 0%N; choice_pos := 0%N;
     stdout := []; written := []; plotted := []; shelf := file |}.

(* ================================================================== *)
(** * The monad of the script: state and exceptions *)

Definition M (A : Type) : Type := State -> result A * State.

Definition ret {A} (a : A) : M A := fun s => (Ok a, s).

Definition bind {A B} (m : M A) (k : A -> M B) : M B :=
  fun s =>
    match m s with
    | (Ok a, s') => k a s'
    | (Raise e, s') => (Raise e, s')
    end.

Definition raise {A} (e : exn) : M A := fun s => (Raise e, s).

Definition lift {A} (r : result A) : M A := fun s => (r, s).

Notation "'let*' x ':=' m 'in' k" := (bind m (fun x => k))
  (at level 10, x name, m at level 100, k at level 200).
Notation "m ;; k" := (bind m (fun _ => k))
  (at level 100, k at level 200, right associativity).

(** [for x in l: body]. *)
Fixpoint for_each {A} (l : list A) (body : A -> M unit) : M unit :=
  match l with
  | [] => ret tt
  | x :: l' => body x ;; for_each l' body
  end.

(** [for n in range(k): acc.append(<m>)]; the accumulator is kept with its
    last element first. *)
Fixpoint collect_from {A} (k : nat) (m : M A) (acc : list A) : M (list A) :=
  match k with
  | O => ret (reverse acc)
  | S k' => let* x := m in collect_from k' m (x :: acc)
  end.

(** [acc = []] followed by that loop. *)
Definition collect {A} (k : nat) (m : M A) : M (list A) :=
  collect_from k m [].

Definition get_dic_res : M pyobj := fun s => (Ok (dic_res s), s).

(** [dic_res[p1]..[pn]], and [dic_res[p1]..[pn][k] = v]. *)
Definition py_getitem (p : list string) : M pyobj :=
  fun s => (getpath p (dic_res s), s).

Definition py_setitem (p : list string) (k : string) (v : pyobj) : M unit :=
  fun s =>
    match setpath p k v (dic_res s) with
    | Ok d => (Ok tt, with_dic_res d s)
    | Raise e => (Raise e, s)
    end.

Definition as_float (o : pyobj) : M fnum :=
  match o with PyFloat x => ret x | _ => raise TypeError end.

(** Reading a name that may be unbound. *)
Definition read_name {A} (f : State -> option A) : M A :=
  fun s => (of_option NameError (f s), s).

Definition print (l : out_line) : M unit :=
  fun s => (Ok tt, with_stdout (stdout s ++ [l]) s).

Definition f_write (file : string) (l : out_line) : M unit :=
  fun s => (Ok tt, with_written (written s ++ [(file, l)]) s).

Definition plot (method : string) (l : out_line) : M unit :=
  fun s => (Ok tt, with_plotted (plotted s ++ [(method, l)]) s).

(* ================================================================== *)
(** * Configuration tables *)

Definition list_periods : list string := ["LGM"; "MH"].

Definition compute_averages_again : string := "yes".
Definition compute_monte_carlo_averages : string := "yes".
Definition plot_deltaTland_vs_deltaTocean : string := "yes".
Definition version : string := "20210326".

Definition list_pmip3_models_lgm : list string :=
  ["IPSL"; "CNRM"; "MIROC"; "MPI-p1"; "MPI-p2"; "MRI"; "GISSE2-p1";
   "GISSE2-p2"; "CESM"].
Definition list_pmip4_models_lgm : list string :=
  ["CESM2.1"; "CESM1-2"; "AWI-ESM-1-1-LR"; "AWIESM2"; "iLOVECLIM-ICE-6G";
   "iLOVECLIM-GLAC1D"; "INM-CM4-8"; "MIROC-ES2L"; "MPI-ESM1-2-LR";
   "UT-CCSM4"; "IPSLCM5A2"].
Definition list_models_lgm : list string :=
  list_pmip3_models_lgm ++ list_pmip4_models_lgm.

Definition list_pmip3_models_mh : list string :=
  ["bcc-csm1-1"; "CCSM4"; "CNRM-CM5"; "CSIRO-Mk3-6-0"; "CSIRO-Mk3L-1-2";
   "FGOALS-g2"; "FGOALS-s2"; "GISS-E2-R"; "HadGEM2-ES"; "IPSL-CM5A-LR";
   "MIROC-ESM"; "MPI-ESM-P"; "MRI-CGCM3"].
Definition list_pmip4_models_mh : list string :=
  ["AWI-ESM-1-1-LR"; "CESM2"; "EC-Earth3-LR"; "FGOALS-f3-L"; "FGOALS-g3";
   "GISS-E2-1-G"; "HadGEM3-GC31"; "INM-CM4-8"; "IPSL-CM6A-LR"; "MIROC-ES2L";
   "MPI-ESM1-2-LR"; "MRI-ESM2-0"; "NESM3"; "NorESM1-F"; "NorESM2-LM";
   "UofT-CCSM-4"].
Definition list_models_mh : list string :=
  list_pmip3_models_mh ++ list_pmip4_models_mh.

Definition list_pmip3_models : list string :=
  list_pmip3_models_lgm ++ list_pmip3_models_mh.
Definition list_pmip4_models : list string :=
  list_pmip4_models_lgm ++ list_pmip4_models_mh
    ++ ["ACCESS-ESM1-5"; "CNRM-CM6-1"].
Definition list_cmip6_models : list string :=
  ["ACCESS-ESM1-5"; "AWI-ESM-1-1-LR"; "CESM2"; "CESM2.1"; "EC-Earth3-LR";
   "FGOALS-f3-L"; "FGOALS-g3"; "GISS-E2-1-G"; "HadGEM3-GC31"; "INM-CM4-8";
   "IPSL-CM6A-LR"; "MIROC-ES2L"; "MPI-ESM1-2-LR"; "MRI-ESM2-0"; "NESM3";
   "NorESM2-LM"].

Definition dec (n : Z) (d : positive) : fnum := Fin (n # d).

Definition dic_global_mean_lig : list (string * fnum) :=
  [("ACCESS-ESM1-5", dec 33 100); ("AWI-ESM-1-1-LR", dec (-25) 100);
   ("AWIESM2", dec (-20) 100); ("CESM2", dec (-11) 100);
   ("CNRM-CM6-1", dec 4 10); ("EC-Earth3-LR", dec 45 100);
   ("FGOALS-f3-L", dec (-48) 100); ("FGOALS-g3", dec 38 100);
   ("GISS-E2-1-G", dec (-12) 100); ("HadGEM3-GC31", dec 56 100);
   ("INM-CM4-8", dec (-2) 10); ("IPSL-CM6A-LR", dec (-29) 100);
   ("MIROC-ES2L", dec (-4) 10); ("MPI-ESM1-2-LR", dec (-12) 100);
   ("NESM3", dec 7 100); ("NorESM1-F", dec (-24) 100);
   ("NorESM2-LM", dec (-11) 100)].

Definition dic_global_mean_plio : list (string * fnum) :=
  [("CCSM4-plio", dec 264831 100000); ("CCSM4-UoT", dec 379105 100000);
   ("CCSM4-Utrecht", dec 467974 100000); ("CESM1.2", dec 403265 100000);
   ("CESM2", dec 522695 100000); ("COSMOS", dec 332687 100000);
   ("EC-Earth3-LR", dec 484114 100000); ("GISS-E2-1-G", dec 208071 100000);
   ("HadCM3", dec 289054 100000); ("IPSL-CM6A-LR", dec 347365 100000);
   ("IPSLCM5A", dec 229695 100000); ("IPSLCM5A2", dec 216866 100000);
   ("MIROC4m", dec 313146 100000); ("MRI-CGCM2.3", dec 245558 100000);
   ("NorESM-L", dec 209194 100000); ("NorESM1-F", dec 173549 100000);
   ("HadGEM3", dec 505506 100000)].

Definition dic_global_mean_eocene : list (string * fnum) :=
  [("CESM1.2_CAM5-deepmip_stand_6xCO2", dec 165428 10000);
   ("COSMOS-landveg_r2413-deepmip_sens_4xCO2", dec 130424 10000);
   ("GFDL_CM2.1-deepmip_stand_6xCO2", dec 145911 10000);
   ("GFDL_CM2.1-deepmip_sens_4xCO2", dec 118548 10000);
   ("INM-CM4-8-deepmip_stand_6xCO2", dec 101490 10000);
   ("NorESM1_F-deepmip_sens_4xCO2", dec 961720 100000)].

Definition darrell_s_delta_gsat_estimates : list (string * (fnum * fnum)) :=
  [("MH", (dec 2 10, dec 1 1)); ("LGM", (dec (-7) 1, dec (-4) 1));
   ("LIG", (dec 5 10, dec 15 10)); ("MPWP", (dec 25 10, dec 4 1));
   ("EECO", (dec 11 1, dec 17 1))].

Definition list_regions : list string :=
  ["Globe"; "WesternEurope"; "NAmerica"; "WestAfrica"].

Definition list_reconstructions : list string :=
  ["Tierney2019"; "Bartlein2011"; "Cleator2019"].

Definition dic_rds_masks : list (string * string) :=
  [("Bartlein2011", "own"); ("Cleator2019", "own"); ("Tierney2019", "own")].

Definition rep_data : string := "/home/users/".

Definition bartlein_dir : string :=
  "masa/GRAPH/VCDAT/Scripts_PMIP/Bartlein-et-al-data/".
Definition cleator_file : string :=
  "jypeter/CDAT/Progs/Devel/PMIP4_CMIP6/Cleator_LGM/cleator_data_v200319.nc".

(** [dic_data_files[rds][var][period]]; the two loops that fill the
    entries of Cleator2019 and Cleator2019_B2011pts are written out. *)
Definition dic_data_files
  : list (string * list (string * list (string * string))) :=
  [("MARGO2009",
    [("MATocean", [("LGM", "masa/GRAPH/VCDAT/MARGO_data.nc")])]);
   ("Tierney2019",
    [("MATocean",
      [("LGM", "masa/GRAPH/VCDAT/Scripts_PMIP/MarineData/Tierney2020_ProxyData_5x5_deltaSST.nc")])]);
   ("Tierney2020DA",
    [("MATocean",
      [("LGM", "masa/GRAPH/VCDAT/Scripts_PMIP/MarineData/Tierney2020_DA_atm_cdmssed.nc")])]);
   ("Bartlein2011",
    [("MAT", [("MH", bartlein_dir +:+ "mat_delta_06ka_ALL_grid_2x2.nc");
              ("LGM", bartlein_dir +:+ "mat_delta_21ka_ALL_grid_2x2.nc")]);
     ("MTCO", [("MH", bartlein_dir +:+ "coldtemp_delta_06ka_ALL_grid_2x2.nc");
               ("LGM", bartlein_dir +:+ "coldtemp_delta_21ka_ALL_grid_2x2.nc")]);
     ("MTWA", [("MH", bartlein_dir +:+ "warmtemp_delta_06ka_ALL_grid_2x2.nc");
               ("LGM", bartlein_dir +:+ "warmtemp_delta_21ka_ALL_grid_2x2.nc")]);
     ("MAP", [("MH", bartlein_dir +:+ "map_delta_06ka_ALL_grid_2x2.nc");
              ("LGM", bartlein_dir +:+ "map_delta_21ka_ALL_grid_2x2.nc")])]);
   ("Cleator2019",
    map (fun var => (var, [("LGM", cleator_file)]))
        ["MAT"; "MTCO"; "MTWA"; "MAP"]);
   ("Cleator2019_B2011pts",
    map (fun var => (var, [("LGM", cleator_file)]))
        ["MAT"; "MTCO"; "MTWA"; "MAP"])].

(** [dic_rec_varnames[rds][var]]: prefix, suffix of the mean, suffix of the
    standard error. *)
Definition dic_rec_varnames
  : list (string * list (string * (string * string * string))) :=
  [("Bartlein2011",
    [("MTCO", ("mtco", "_anm_mean", "_se_mean"));
     ("MAT", ("mat", "_anm_mean", "_se_mean"));
     ("MTWA", ("mtwa", "_anm_mean", "_se_mean"));
     ("MAP", ("map", "_anm_mean", "_se_mean"))]);
   ("Cleator2019",
    [("MTCO", ("MTCO", "", "_SD")); ("MAT", ("MAT", "", "_SD"));
     ("MTWA", ("MTWA", "", "_SD")); ("MAP", ("MAP", "", "_SD"))]);
   ("Cleator2019_B2011pts",
    [("MTCO", ("MTCO", "", "_SD")); ("MAT", ("MAT", "", "_SD"));
     ("MTWA", ("MTWA", "", "_SD")); ("MAP", ("MAP", "", "_SD"))]);
   ("MARGO2009",
    [("SSTjfmanom", ("lgmanomjfmsst", "lgmanomjfmmin", "lgmanomjfmmax"));
     ("SSTjasanom", ("lgmanomjassst", "lgmanomjasmin", "lgmanomjasmax"));
     ("MATocean", ("lgmanomann", "sst", "std"))]);
   ("Tierney2019", [("MATocean", ("", "deltaSST", "std"))]);
   ("Tierney2020DA",
    [("MATocean", ("", "deltaSAToverOceans", "errdeltaSAToverOceans"))])].

Definition dic_list_vars : list (string * list (string * list string)) :=
  [("LGM",
    [("Bartlein2011", ["MTCO"; "MAT"; "MTWA"; "MAP"]);
     ("Cleator2019", ["MTCO"; "MAT"; "MTWA"; "MAP"]);
     ("Tierney2019", ["MATocean"])]);
   ("MH", [("Bartlein2011", ["MTCO"; "MAT"; "MTWA"; "MAP"])])].

Definition dic_model_varnames : list (string * string) :=
  [("MTCO", "tas"); ("MAT", "tas"); ("MTWA", "tas"); ("MAP", "pr");
   ("MATocean", "tas")].

Definition dic_model_diagnames : list (string * string) :=
  [("MTCO", "MIN"); ("MAT", "YR"); ("MTWA", "MAX"); ("MAP", "YR");
   ("MATocean", "YR")].

Definition mk_range (lo hi : Z) (kind : string) : range :=
  {| r_lo := lo; r_hi := hi; r_kind := kind |}.

Definition dic_regions : list (string * box) :=
  [("Globe", (mk_range (-90) 90 "cc", mk_range (-180) 180 "co"));
   ("WesternEurope", (mk_range 35 70 "cc", mk_range (-10) 30 "cc"));
   ("WestAfrica", (mk_range 0 30 "cc", mk_range (-20) 30 "cc"));
   ("NAmerica", (mk_range 20 50 "cc", mk_range (-140) (-60) "cc"))].

Definition dic_labels : list (string * string) :=
  [("Bartlein2011", "Bartlein et al., 2011");
   ("GISSE2-p1", "GISS-E2-R-p150"); ("GISSE2-p2", "GISS-E2-R-p151");
   ("MRI", "MRI-CGCM3"); ("MIROC", "MIROC-ESM-CMIP5");
   ("MPI-p2", "MPI-ESM-P-p1"); ("MPI-p1", "MPI-ESM-P-p2");
   ("CNRM", "CNRM-CM5"); ("IPSL", "IPSL-CM5A-LR"); ("FGOALS", "FGOALS-g2");
   ("Cleator2019", "Cleator2020"); ("CESM", "CCSM4");
   ("MPI-ESM1-2-LR", "MPI-ESM-1.2"); ("MIROC-ES2L", "MIROC-ES2L");
   ("UT-CCSM4", "UoT-CCSM4"); ("Tierney2019", "Tierney2020");
   ("CESM2", "CESM2"); ("INM-CM4-8", "INM-CM4-8");
   ("iLOVECLIM", "iLOVECLIM"); ("CESM1-2", "CESM1.2");
   ("IPSLCM5A2", "IPSLCM5A2"); ("AWI-ESM-1-1-LR", "AWI-ESM-1-1-LR");
   ("AWIESM2", "AWI-ESM-2-1-LR")].

Definition dir_lgm : string :=
  "/home/clim01/masa/PMIP3-PMIP4-analyses-sept2020/".
Definition dir_mh : string :=
  "/home/clim01/masa/PMIP3-PMIP4-analyses2/PMIP4_MH_from_Chris2/".

(** [dic_models['PI']] and [dic_models['LGM']], the templates of the file
    names.  ([dic_models['MH']] is never read: the files of the
    Mid-Holocene are found with [glob].) *)
Definition dic_models_PI : list (string * string) :=
  [("IPSL", "PMIP3/IPSL-CM5A-LR/%s_Amon_IPSL-CM5A-LR_piControl_r1i1p1_180001-279912_%s.nc");
   ("CNRM", "PMIP3/CNRM-CM5/%s_Amon_CNRM-CM5_piControl_r1i1p1_185001-269912_%s.nc");
   ("MIROC", "PMIP3/MIROC-ESM/%s_Amon_MIROC-ESM_piControl_r1i1p1_180001-242912_%s.nc");
   ("MPI-p1", "PMIP3/MPI-ESM-P/%s_Amon_MPI-ESM-P_piControl_r1i1p1_185001-300512_%s.nc");
   ("MPI-p2", "PMIP3/MPI-ESM-P/%s_Amon_MPI-ESM-P_piControl_r1i1p1_185001-300512_%s.nc");
   ("MRI", "PMIP3/MRI-CGCM3/%s_Amon_MRI-CGCM3_piControl_r1i1p1_185101-235012_%s.nc");
   ("GISSE2-p1", "PMIP3/GISS-E2-R/%s_Amon_GISS-E2-R_piControl_r1i1p2_359001-412012_%s.nc");
   ("GISSE2-p2", "PMIP3/GISS-E2-R/%s_Amon_GISS-E2-R_piControl_r1i1p2_359001-412012_%s.nc");
   ("CESM", "PMIP3/CCSM4/%s_Amon_CCSM4_piControl_r1i1p1_025001-130012_%s.nc");
   ("MIROC-ES2L", "PMIP4/MIROC-ES2L/%s_Amon_MIROC-ES2L_piControl_r1i1p1f2_gn_185001-234912_%s.nc");
   ("MPI-ESM1-2-LR", "PMIP4/MPI-ESM1-2-LR/%s-MPI-ESM_lgm_ATM_2000-2099_PI_%s.nc");
   ("UT-CCSM4", "PMIP4/UT-CCSM4/%s_Amon_UofT-CCSM4_PI_r1i1p1f1_gn_last100yrs_%s.nc");
   ("CESM2", "PMIP4/CESM2/%s_Amon_CESM2_piControl_r1i1p1f1_gn_000101-120012_%s.nc");
   ("CESM2.1", "PMIP4/CESM2.1/%s_CESM2.1_PI_%s.nc");
   ("FGOALS-g3-r1", "PMIP4/%s/%s_Amon_FGOALS-g3_piControl_r1i1p1f1_gn_020001-089912_%s.nc");
   ("FGOALS-g3-r2", "PMIP4/%s/%s_Amon_FGOALS-g3_piControl_r1i1p1f1_gn_020001-089912_%s.nc");
   ("FGOALS-g3-r3", "PMIP4/%s/%s_Amon_FGOALS-g3_piControl_r1i1p1f1_gn_020001-089912_%s.nc");
   ("IPSLCM6A-f1", "PMIP4/%s/%s_Amon_IPSL-CM6A-LR_piControl_r1i1p1f1_gr_185001-304912_%s.nc");
   ("IPSLCM6A-f2", "PMIP4/%s/%s_Amon_IPSL-CM6A-LR_piControl_r1i1p1f1_gr_185001-304912_%s.nc");
   ("IPSLCM6A-f3", "PMIP4/%s/%s_Amon_IPSL-CM6A-LR_piControl_r1i1p1f1_gr_185001-304912_%s.nc");
   ("IPSLCM6A-f4", "PMIP4/%s/%s_Amon_IPSL-CM6A-LR_piControl_r1i1p1f1_gr_185001-304912_%s.nc");
   ("MRI-ESM2", "PMIP4/%s/%s_Amon_MRI-ESM2-0_piControl_r1i1p1f1_gn_185001-255012_%s.nc");
   ("NESM3", "PMIP4/%s/%s_Amon_NESM3_piControl_r1i1p1f1_gn_050001-079912_%s.nc");
   ("NorESM1-F", "PMIP4/%s/%s_Amon_NorESM1-F_piControl_r1i1p1f1_gn_150101-170012_%s.nc");
   ("AWI-ESM-1-1-LR", "PMIP4/AWIESM1/%s_PI-AWIESM1_lgm_ATM_%s.nc");
   ("AWIESM2", "PMIP4/AWIESM2/%s_PI-AWIESM2_lgm_ATM_%s.nc");
   ("INM-CM4-8", "PMIP4/INM-CM4-8/%s_Amon_INM-CM4-8_piControl_r1i1p1f1_gr1_185001-238012_%s.nc");
   ("iLOVECLIM-GLAC1D", "PMIP4/iLOVECLIM-PI/%s_Amon_iLOVECLIM_PI_PI_%s.nc");
   ("iLOVECLIM-ICE-6G", "PMIP4/iLOVECLIM-PI/%s_Amon_iLOVECLIM_PI_PI_%s.nc");
   ("CESM1-2", "PMIP4/CESM1.2/%s_CESM1.2_PI_%s.nc");
   ("IPSLCM5A2", "PMIP4/IPSLCM5A2/%s_IPSLCM5A2_PI_%s.nc")].

Definition dic_models_LGM : list (string * string) :=
  [("IPSL", "PMIP3/IPSL-CM5A-LR/%s_Amon_IPSL-CM5A-LR_lgm_r1i1p1_260101-280012_%s.nc");
   ("CNRM", "PMIP3/CNRM-CM5/%s_Amon_CNRM-CM5_lgm_r1i1p1_180001-199912_%s.nc");
   ("MIROC", "PMIP3/MIROC-ESM/%s_Amon_MIROC-ESM_lgm_r1i1p1_460001-469912_%s.nc");
   ("MPI-p1", "PMIP3/MPI-ESM-P/%s_Amon_MPI-ESM-P_lgm_r1i1p1_185001-194912_%s.nc");
   ("MPI-p2", "PMIP3/MPI-ESM-P/%s_Amon_MPI-ESM-P_lgm_r1i1p2_185001-194912_%s.nc");
   ("MRI", "PMIP3/MRI-CGCM3/%s_Amon_MRI-CGCM3_lgm_r1i1p1_250101-260012_%s.nc");
   ("GISSE2-p1", "PMIP3/GISS-E2-R/%s_Amon_GISS-E2-R_lgm_r1i1p150_300001-309912_%s.nc");
   ("GISSE2-p2", "PMIP3/GISS-E2-R/%s_Amon_GISS-E2-R_lgm_r1i1p151_300001-309912_%s.nc");
   ("CESM", "PMIP3/CCSM4/%s_Amon_CCSM4_lgm_r1i1p1_180001-190012_%s.nc");
   ("MIROC-ES2L", "PMIP4/MIROC-ES2L/%s_Amon_MIROC-ES2L_lgm_r1i1p1f2_gn_320001-329912_%s.nc");
   ("MPI-ESM1-2-LR", "PMIP4/MPI-ESM1-2-LR/%s-MPI-ESM_lgm_ATM_2000-2099_LGM_%s.nc");
   ("UT-CCSM4", "PMIP4/UT-CCSM4/%s_Amon_UofT-CCSM4_LGM_r1i1p1f1_gn_last100yrs_%s.nc");
   ("AWI-ESM-1-1-LR", "PMIP4/AWIESM1/%s_LGM-AWIESM1_lgm_ATM_%s.nc");
   ("AWIESM2", "PMIP4/AWIESM2/%s_LGM-AWIESM2_lgm_ATM_%s.nc");
   ("INM-CM4-8", "PMIP4/INM-CM4-8/%s_Amon_INM-CM4-8_lgm_r1i1p1f1_gr1_190001-209912_%s.nc");
   ("iLOVECLIM-GLAC1D", "PMIP4/iLOVECLIM-GLAC-1D/%s_Amon_iLOVECLIM_GLAC-1D_LGM_%s.nc");
   ("iLOVECLIM-ICE-6G", "PMIP4/iLOVECLIM-ICE-6G-C/%s_Amon_iLOVECLIM_ICE-6G-C_LGM_%s.nc");
   ("CESM1-2", "PMIP4/CESM1.2/%s_CESM1.2_LGM_%s.nc");
   ("IPSLCM5A2", "PMIP4/IPSLCM5A2/%s_IPSLCM5A2_LGM_%s.nc");
   ("CESM2.1", "PMIP4/CESM2.1/%s_CESM2.1_LGM_%s.nc")].

Definition dic_models : list (string * list (string * string)) :=
  [("PI", dic_models_PI); ("LGM", dic_models_LGM)].

(* ================================================================== *)
(** * Strings: [os.path.join] and the [%] operator *)

Definition starts_with_slash (s : string) : bool :=
  match s with
  | String c _ => Ascii.eqb c "/"%char
  | EmptyString => false
  end.

Fixpoint ends_with_slash (s : string) : bool :=
  match s with
  | EmptyString => false
  | String c EmptyString => Ascii.eqb c "/"%char
  | String _ s' => ends_with_slash s'
  end.

(** [path.join(a, *ps)]. *)
Definition path_join (a : string) (ps : list string) : string :=
  foldl (fun path b =>
           if starts_with_slash b then b
           else if String.eqb path "" || ends_with_slash path
                then path +:+ b
                else path +:+ "/" +:+ b) a ps.

(** [t % args] for a template whose only conversions are [%s]; [None] is
    the TypeError of a wrong number of arguments. *)
Fixpoint format_s (t : string) (args : list string) : option string :=
  match t with
  | EmptyString => match args with [] => Some "" | _ => None end
  | String c t' =>
      match t' with
      | String c' t'' =>
          if Ascii.eqb c "%"%char && Ascii.eqb c' "s"%char then
            match args with
            | a :: args' =>
                match format_s t'' args' with
                | Some r => Some (a +:+ r)
                | None => None
                end
            | [] => None
            end
          else
            match format_s t' args with
            | Some r => Some (String c r)
            | None => None
            end
      | EmptyString =>
          match args with [] => Some (String c "") | _ => None end
      end
  end.

(* ================================================================== *)
(** * Part I: compute averages *)

Definition niter : nat := Z.to_nat 10000.
Definition nbyrs : nat := 50.

Definition temperature_vars : list string :=
  ["MAT"; "MTCO"; "MTWA"; "MATocean"].
Definition unscaled_precip_models : list string :=
  ["iLOVECLIM-ICE-6G"; "iLOVECLIM-GLAC1D"].

(** Lines 575-582, for one of [vpi], [vpast]. *)
Definition change_units (var model : string) (v : tvar3) : tvar3 :=
  let v1 :=
    if str_in var temperature_vars
    then tmap3 (fun x => fsub x (Fin (27315 # 100))) v
    else v in
  if str_in var ["MAP"] then
    if negb (str_in model unscaled_precip_models)
    then tmap3 (fun x => fmul x (Fin (86400 * 365))) v1
    else v1
  else v1.

(** Lines 486-494: the mask common to the means and the standard errors,
    imposed on both fields. *)
Definition common_mask (rds : string) (rmeorig rseorig : marray)
  : result (list bool * marray * marray) :=
  let tierney := str_in rds ["Tierney2019"] in
  let rmeorig := if tierney then mask_nan rmeorig else rmeorig in
  let rseorig := if tierney then mask_nan rseorig else rseorig in
  let rsemask := ma_mask rseorig in
  let rmemask := ma_mask rmeorig in
  match mask_add rsemask rmemask with
  | None => Raise ValueError
  | Some recmask =>
      match masked_where recmask rmeorig, masked_where recmask rseorig with
      | Some rme, Some rse => Ok (recmask, rme, rse)
      | _, _ => Raise IndexError
      end
  end.

(** Lines 508-509. *)
Definition normalised_weights (recgrid : Grid) (rmeorig : marray) : marray :=
  let recweights := area_weights {| grid2 := recgrid; cells2 := rmeorig |} in
  ma_div recweights (ma_sum recweights).

(** [masked_where(mask3d, v)] for a field with a time axis. *)
Fixpoint masked_where_slices (cond : list (list bool)) (v : list marray)
  : option (list marray) :=
  match cond, v with
  | [], [] => Some []
  | c :: cond', a :: v' =>
      match masked_where c a, masked_where_slices cond' v' with
      | Some a', Some r => Some (a' :: r)
      | _, _ => None
      end
  | _, _ => None
  end.

Definition masked_where3 (cond : list (list bool)) (v : tvar3)
  : result tvar3 :=
  match masked_where_slices cond (cells3 v) with
  | Some c => Ok {| grid3 := grid3 v; cells3 := c |}
  | None => Raise IndexError
  end.

(** Where the script binds [list_models] and [dir_models] (lines 451-456);
    [list_periods] holds no other period. *)
Definition period_setup (period : string) : option (list string * string) :=
  if String.eqb period "LGM" then Some (list_models_lgm, dir_lgm)
  else if String.eqb period "MH" then Some (list_models_mh, dir_mh)
  else None.

Definition all_vars : list string := ["MAT"; "MTCO"; "MTWA"; "MAP"; "MATocean"].

Definition shelf_key : string := "dic_res".

Section PartI.

Variable w : World.

Definition put_dic_res (d : pyobj) : M unit :=
  fun s => (Ok tt, with_dic_res d s).
Definition set_chosenmask (m : list bool) : M unit :=
  fun s => (Ok tt, with_chosenmask m s).
Definition set_fnamepi (f : string) : M unit :=
  fun s => (Ok tt, with_fnamepi f s).
Definition set_fnamepast (f : string) : M unit :=
  fun s => (Ok tt, with_fnamepast f s).

Definition key_lookup {A} (k : string) (l : list (string * A)) : M A :=
  lift (of_option KeyError (assoc k l)).

Definition read2 (path varname : string) (b : box) : M tvar2 :=
  lift (of_option CDMSError (cdms_read2 w path varname b)).
Definition read3 (path varname : string) (b : box) : M tvar3 :=
  lift (of_option CDMSError (cdms_read3 w path varname b)).

(** The next deviate [z] of [random.gauss]. *)
Definition next_gauss : M Q :=
  fun s => (Ok (gauss_z w (gauss_pos s)), with_gauss_pos (N.succ (gauss_pos s)) s).

(** [random.gauss(mu, sigma)] called with two arrays: the function of the
    standard library draws one [z] and returns [mu + z*sigma]. *)
Definition random_gauss (mu sigma : list fnum) : M (list fnum) :=
  let* z := next_gauss in
  lift (of_option ValueError
          (zip_exact (fun m s => fadd m (fmul (Fin z) s)) mu sigma)).

(** Line 523: [N.sum(random.gauss(rme,rse)*recwei)]. *)
Definition realisation (rme rse recwei : list fnum) : M fnum :=
  let* g := random_gauss rme rse in
  let* p := lift (of_option ValueError (zip_exact fmul g recwei)) in
  ret (np_sum p).

(** [N.random.choice(a, size, replace=0)]. *)
Definition np_random_choice (a : list fnum) (size : nat) : M (list fnum) :=
  fun s =>
    if (length a <? size)%nat then (Raise ValueError, s)
    else
      let idx := take size (np_perm w (choice_pos s) (length a)) in
      (Ok (map (fun i => nth i a NaN) idx),
       with_choice_pos (N.succ (choice_pos s)) s).

(** Lines 476-494: the two fields of a reconstruction, read and masked
    with their common mask. *)
Definition read_reconstruction (period rds var : string) (b : box)
  : result (Grid * (list bool * marray * marray)) :=
  let+ by_var := of_option KeyError (assoc rds dic_data_files) in
  let+ by_period := of_option KeyError (assoc var by_var) in
  let+ file := of_option KeyError (assoc period by_period) in
  let+ names_rds := of_option KeyError (assoc rds dic_rec_varnames) in
  let+ names := of_option KeyError (assoc var names_rds) in
  let rmevarname := names.1.1 +:+ names.1.2 in
  let+ rmeorig :=
    of_option CDMSError (cdms_read2 w (rep_data +:+ file) rmevarname b) in
  let rsevarname := names.1.1 +:+ names.2 in
  let+ rseorig :=
    of_option CDMSError (cdms_read2 w (rep_data +:+ file) rsevarname b) in
  let recgrid := grid2 rmeorig in
  let+ masked := common_mask rds (cells2 rmeorig) (cells2 rseorig) in
  Ok (recgrid, masked).

(** Lines 518-526: [niter] realisations of the average of the
    reconstructions, their mean and standard deviation. *)
Definition monte_carlo (rme rse recwei : list fnum) : M (fnum * fnum) :=
  let* rrave := collect niter (realisation rme rse recwei) in
  let frave := np_average rrave in
  let frstd := np_std (sqrtQ w) rrave in
  ret (frave, frstd).

(** Lines 471-531: the reconstructions of one period, region, data set and
    variable.  Returns the grid of the reconstruction. *)
Definition reconstructions (period region rds var : string) (b : box)
  : M Grid :=
  let p := [period; var; region; rds] in
  print [OStr "analysis for period "; OStr period; OStr ", variable ";
         OStr var; OStr ", region "; OStr region; OStr " dataset";
         OStr rds] ;;
  let* fields := lift (read_reconstruction period rds var b) in
  let recgrid := fields.1 in
  let recmask := fields.2.1.1 in
  let rmeorig := fields.2.1.2 in
  let rseorig := fields.2.2 in
  let* own := key_lookup rds dic_rds_masks in
  (if String.eqb own "own" then
     set_chosenmask recmask ;;
     py_setitem p "mask" (PyMask recmask)
   else
     print [OStr "this case is not encountered for IPCC figs 3.2a and 3.44"]) ;;
  let nrec := ma_count rmeorig in
  py_setitem p "nbpts" (PyInt nrec) ;;
  let recweights := normalised_weights recgrid rmeorig in
  let rme := compressed rmeorig in
  let recwei := compressed recweights in
  let rse := compressed rseorig in
  let* stats := monte_carlo rme rse recwei in
  let frave := stats.1 in
  let frstd := stats.2 in
  print [OStr rds; OStr " reconstructions. average: "; OFloat frave;
         OStr ", std: "; OFloat frstd; OStr ", nb points:"; ONat nrec] ;;
  py_setitem p "reconstructions" empty_dict ;;
  py_setitem (p ++ ["reconstructions"]) "mean" (PyFloat frave) ;;
  py_setitem (p ++ ["reconstructions"]) "std" (PyFloat frstd) ;;
  ret recgrid.

(** Lines 544-553 and 561-570: the name of the file of one experiment.
    For the Mid-Holocene the files that match a pattern are listed and the
    name is bound ([bind_name]) when there is exactly one; for the LGM the
    name is built from the template of [table].  [found] and [problem] are
    the two lines printed. *)
Definition resolve_file (period dir_models modvarname diag model : string)
    (experiment table : string) (bind_name : string -> M unit)
    (found : string -> out_line) (problem : list string -> out_line)
  : M unit :=
  if String.eqb period "MH" then
    let files :=
      path_join dir_models
        ["*"; modvarname;
         diag +:+ modvarname +:+ "*" +:+ model +:+ "*" +:+ experiment
           +:+ "*.nc"] in
    let file_list := glob_glob w files in
    if (length file_list =? 1)%nat then
      let* f := lift (of_option IndexError (head file_list)) in
      bind_name f ;;
      print (found f)
    else print (problem file_list)
  else if String.eqb period "LGM" then
    let* templates := key_lookup table dic_models in
    let* template := key_lookup model templates in
    let* name := lift (of_option TypeError
                         (format_s template [modvarname; diag])) in
    bind_name (path_join dir_models [name])
  else ret tt.

(** Lines 543-558: the pre-industrial field of a model. *)
Definition read_pi (period var dir_models modvarname diag model : string)
    (b : box) : M tvar3 :=
  resolve_file period dir_models modvarname diag model
    "piControl" "PI" set_fnamepi
    (fun f => [OStr var; OStr diag; OStr modvarname; OStr model; OStr f])
    (fun l => [OStr var; OStr diag; OStr model; OStr period;
               OStr "Houston we have a problem "; OList l]) ;;
  let* fnamepi := read_name fnamepi in
  read3 fnamepi modvarname b.

(** Lines 560-573: the field of the past period. *)
Definition read_past (period var dir_models modvarname diag model : string)
    (b : box) : M tvar3 :=
  resolve_file period dir_models modvarname diag model
    "midHolocene" period set_fnamepast
    (fun f => [OStr var; OStr model; OStr f])
    (fun l => [OStr var; OStr diag; OStr model;
               OStr "Houston we have a problem "; OList l]) ;;
  let* fnamepast := read_name fnamepast in
  read3 fnamepast modvarname b.

Definition stat_cases : list string :=
  if stat_keys_swapped w then ["modelonrecpts"; "allmodelpts"]
  else ["allmodelpts"; "modelonrecpts"].

(** Lines 631-635: the two distributions of 50-year averages, as the list
    of the pairs (pre-industrial, past). *)
Definition distributions (pi past : list fnum) : M (list (fnum * fnum)) :=
  collect niter
    (let* a := np_random_choice pi nbyrs in
     let* b := np_random_choice past nbyrs in
     ret (np_average a, np_average b)).

(** Lines 604-642: the temporal averages of one model. *)
Definition temporal_averages (pm : list string)
    (vpimall vpastmall vpirall vpastrall : list fnum) : M unit :=
  let dic_stat_vars :=
    [("allmodelpts", (vpimall, vpastmall));
     ("modelonrecpts", (vpirall, vpastrall))] in
  for_each stat_cases (fun case => py_setitem pm case empty_dict) ;;
  if negb (String.eqb compute_monte_carlo_averages "yes") then
    let deltamave := fsub (np_average vpastmall) (np_average vpimall) in
    let deltarave := fsub (np_average vpastrall) (np_average vpirall) in
    py_setitem (pm ++ ["allmodelpts"]) "delta_mean" (PyFloat deltamave) ;;
    py_setitem (pm ++ ["modelonrecpts"]) "delta_mean" (PyFloat deltarave) ;;
    py_setitem (pm ++ ["allmodelpts"]) "delta_std" (PyFloat (Fin 0)) ;;
    py_setitem (pm ++ ["modelonrecpts"]) "delta_std" (PyFloat (Fin 0))
  else
    for_each stat_cases (fun case =>
      let* series := key_lookup case dic_stat_vars in
      let* dist := distributions series.1 series.2 in
      let deltam := map (fun d : fnum * fnum => fsub d.2 d.1) dist in
      py_setitem (pm ++ [case]) "delta_mean" (PyFloat (np_average deltam)) ;;
      py_setitem (pm ++ [case]) "delta_std"
        (PyFloat (np_std (sqrtQ w) deltam))).

(** Lines 575-602: units, regridding, masks and regional averages. *)
Definition regional_series (var model : string) (recgrid : Grid)
    (cm : list bool) (vpi vpast : tvar3)
  : result (list fnum * list fnum * list fnum * list fnum) :=
  let vpi := change_units var model vpi in
  let vpast := change_units var model vpast in
  let vpir := regrid w vpi recgrid in
  let vpastr := regrid w vpast recgrid in
  let maskpi := replicate (length (cells3 vpi)) cm in
  let maskpast := replicate (length (cells3 vpast)) cm in
  match masked_where3 maskpi vpir with
  | Raise e => Raise e
  | Ok vpim =>
      match masked_where3 maskpast vpastr with
      | Raise e => Raise e
      | Ok vpastm =>
          Ok (averager w vpi, averager w vpast,
              averager w vpim, averager w vpastm)
      end
  end.

(** Lines 536-646: one model. *)
Definition model_averages (period region rds var : string) (b : box)
    (dir_models : string) (recgrid : Grid) (model : string) : M unit :=
  let p := [period; var; region; rds] in
  py_setitem p model empty_dict ;;
  let* diag := key_lookup var dic_model_diagnames in
  let* modvarname := key_lookup var dic_model_varnames in
  let* vpi := read_pi period var dir_models modvarname diag model b in
  let* vpast := read_past period var dir_models modvarname diag model b in
  let* cm := read_name chosenmask in
  let* series := lift (regional_series var model recgrid cm vpi vpast) in
  temporal_averages (p ++ [model])
    series.1.1.1 series.1.1.2 series.1.2 series.2 ;;
  let* m := py_getitem (p ++ [model; "allmodelpts"; "delta_mean"]) in
  let* m := as_float m in
  let* s := py_getitem (p ++ [model; "allmodelpts"; "delta_std"]) in
  let* s := as_float s in
  print [OStr "results for : %s, %s, %s, %s, %s, %7.2f, %7.2f";
         OStr period; OStr model; OStr region; OStr var; OStr rds;
         OFloat m; OFloat s].

(** Lines 470-646: one period, region, data set and variable. *)
Definition combination (period region rds var : string) (b : box)
    (list_models : list string) (dir_models : string) : M unit :=
  let* recgrid := reconstructions period region rds var b in
  for_each list_models
    (model_averages period region rds var b dir_models recgrid).

(** Lines 440-447. *)
Definition init_dic_res : M unit :=
  for_each list_periods (fun period =>
    py_setitem [] period empty_dict ;;
    for_each all_vars (fun var =>
      py_setitem [period] var empty_dict ;;
      for_each list_regions (fun region =>
        py_setitem [period; var] region empty_dict ;;
        for_each list_reconstructions (fun rds =>
          py_setitem [period; var; region] rds empty_dict)))).

(** Lines 450-646. *)
Definition compute_averages : M unit :=
  for_each list_periods (fun period =>
    let* setup := lift (of_option NameError (period_setup period)) in
    for_each list_regions (fun region =>
      let* b := key_lookup region dic_regions in
      for_each list_reconstructions (fun rds =>
        let* vars_of := key_lookup period dic_list_vars in
        if str_in rds (keys vars_of) then
          let* list_vars := key_lookup rds vars_of in
          for_each list_vars (fun var =>
            combination period region rds var b setup.1 setup.2)
        else ret tt))).

(** Lines 649-651. *)
Definition save_results : M unit :=
  fun s => (Ok tt, with_shelf (<[shelf_key := dic_res s]> (shelf s)) s).

(** Lines 432-434. *)
Definition load_results : M unit :=
  fun s =>
    match shelf s !! shelf_key with
    | Some d => (Ok tt, with_dic_res d s)
    | None => (Raise KeyError, s)
    end.

(** Part I, lines 431-651, for a value of [compute_averages_again]. *)
Definition part1 (again : string) : M unit :=
  if negb (String.eqb again "yes") then load_results
  else
    put_dic_res empty_dict ;;
    init_dic_res ;;
    compute_averages ;;
    save_results.

End PartI.

(* ================================================================== *)
(** * Part II: plots *)

Definition dic_color_models : list (string * string) :=
  [("AWI-ESM-1-1-LR", "(0.6,0,1)"); ("AWI-ESM-1-1-LR", "(0.6,0,1)");
   ("AWIESM2", "sandybrown"); ("CESM1-2", "skyblue");
   ("CESM2", "(0.26,0.70,0.85)"); ("CESM2.1", "(0.26,0.70,0.85)");
   ("EC-Earth3-LR", "(0.49,0.39,0.72)"); ("FGOALS-f3-L", "(0.97,0.6,0.11)");
   ("FGOALS-g3", "(0.97,0.6,0.11)"); ("GISS-E2-1-G", "(0.47,0.11,0.48)");
   ("HadGEM3-GC31", "(0.48,0.55,0.15)"); ("INM-CM4-8", "(0.97,0.26,0.26)");
   ("IPSL-CM6A-LR", "(0.36,0.33,0.68)"); ("IPSLCM5A2", "chocolate");
   ("MIROC-ES2L", "(0.72,0.37,0.71)"); ("MPI-ESM1-2-LR", "(0.36,0.63,0.64)");
   ("MPI-ESM1-2-LR", "(0.36,0.63,0.64)"); ("MRI-ESM2-0", "darkseagreen");
   ("NESM3", "(0.68,1.,0.18)"); ("NorESM1-F", "steelblue");
   ("NorESM2-LM", "(0.95,0.23,0.65)"); ("UofT-CCSM-4", "darkgreen");
   ("iLOVECLIM-ICE-6G", "darkviolet"); ("iLOVECLIM-GLAC1D", "slateblue");
   ("UT-CCSM4", "darkgreen"); ("ACCESS-ESM1-5", "blue");
   ("CNRM-CM6-1", "green")].

Definition ncols : nat := 8.
Definition nlines : nat := 3.

Definition subplot : Type := nat * nat * nat.

(** [dic_summary_plots_ipcc_3_43_with_global_means] without its keys
    'nameplot' and 'datasets': period, variable, region, data set. *)
Definition dic_summ_plots : list (subplot * (string * string * string * string)) :=
  [((nlines, ncols, 2), ("MH", "MAT", "Globe", "Bartlein2011"));
   ((nlines, ncols, 3), ("LGM", "MAT", "Globe", "Bartlein2011"));
   ((nlines, ncols, 4), ("LIG", "MAT", "Globe", "Bartlein2011"));
   ((nlines, ncols, 5), ("MPWP", "MAT", "Globe", "Bartlein2011"));
   ((nlines, ncols, 6), ("EECO", "MAT", "Globe", "Bartlein2011"));
   ((nlines, ncols, ncols + 4), ("MH", "MTCO", "WesternEurope", "Bartlein2011"));
   ((nlines, ncols, 2 * ncols + 4), ("LGM", "MTCO", "WesternEurope", "Cleator2019"));
   ((nlines, ncols, ncols + 5), ("MH", "MTWA", "WesternEurope", "Bartlein2011"));
   ((nlines, ncols, 2 * ncols + 5), ("LGM", "MTWA", "WesternEurope", "Cleator2019"));
   ((nlines, ncols, ncols + 6), ("MH", "MAP", "WesternEurope", "Bartlein2011"));
   ((nlines, ncols, 2 * ncols + 6), ("LGM", "MAP", "WesternEurope", "Cleator2019"));
   ((nlines, ncols, ncols + 1), ("MH", "MTCO", "NAmerica", "Bartlein2011"));
   ((nlines, ncols, 2 * ncols + 1), ("LGM", "MTCO", "NAmerica", "Cleator2019"));
   ((nlines, ncols, ncols + 2), ("MH", "MTWA", "NAmerica", "Bartlein2011"));
   ((nlines, ncols, 2 * ncols + 2), ("LGM", "MTWA", "NAmerica", "Cleator2019"));
   ((nlines, ncols, ncols + 3), ("MH", "MAP", "NAmerica", "Bartlein2011"));
   ((nlines, ncols, 2 * ncols + 3), ("LGM", "MAP", "NAmerica", "Cleator2019"));
   ((nlines, ncols, ncols + 7), ("MH", "MAP", "WestAfrica", "Bartlein2011"));
   ((nlines, ncols, 2 * ncols + 7), ("LGM", "MAP", "WestAfrica", "Cleator2019"))].

Definition nameplot : string := "_MH_LGM_3_44_with_global_means".

Definition dic_lims_region : list (string * (Z * Z)) := [("Globe", (-13, 1)%Z)].

Definition regionname (region : string) : string :=
  if String.eqb region "NAmerica" then "North America"
  else if String.eqb region "WesternEurope" then "Western Europe"
  else if String.eqb region "WestAfrica" then "West Africa"
  else if String.eqb region "Globe" then "Globe"
  else region.

(** [l.index(x)]. *)
Fixpoint index_of (x : string) (l : list string) : nat :=
  match l with
  | [] => 0
  | y :: l' => if String.eqb x y then 0 else S (index_of x l')
  end.

(** A number read from an object, where Python needs one. *)
Definition to_float (o : pyobj) : result fnum :=
  match o with
  | PyFloat x => Ok x
  | PyInt n => Ok (of_nat n)
  | _ => Raise TypeError
  end.

Fixpoint to_floats (l : list pyobj) : result (list fnum) :=
  match l with
  | [] => Ok []
  | o :: l' =>
      let+ x := to_float o in
      let+ r := to_floats l' in
      Ok (x :: r)
  end.

(** [for x in l: acc = body x acc]. *)
Fixpoint for_fold {A S} (l : list A) (acc : S) (body : A -> S -> M S) : M S :=
  match l with
  | [] => ret acc
  | x :: l' => let* acc' := body x acc in for_fold l' acc' body
  end.

Definition when (c : bool) (m : M unit) : M unit := if c then m else ret tt.

Section PartII.

Variable w : World.

Definition update_locals2 (f : Locals2 -> Locals2) : M unit :=
  fun s => (Ok tt, with_locals2 (f (locals2 s)) s).

Definition set_delta (x : pyobj) : M unit :=
  update_locals2 (fun l =>
    {| delta := Some x; deltaerr := deltaerr l; pmipphase := pmipphase l;
       list_pmip4_models2 := list_pmip4_models2 l; index_i := index_i l |}).
Definition set_deltaerr (x : pyobj) : M unit :=
  update_locals2 (fun l =>
    {| delta := delta l; deltaerr := Some x; pmipphase := pmipphase l;
       list_pmip4_models2 := list_pmip4_models2 l; index_i := index_i l |}).
Definition set_pmipphase (x : string) : M unit :=
  update_locals2 (fun l =>
    {| delta := delta l; deltaerr := deltaerr l; pmipphase := Some x;
       list_pmip4_models2 := list_pmip4_models2 l; index_i := index_i l |}).
Definition set_list_pmip4_models2 (x : list string) : M unit :=
  update_locals2 (fun l =>
    {| delta := delta l; deltaerr := deltaerr l; pmipphase := pmipphase l;
       list_pmip4_models2 := Some x; index_i := index_i l |}).
Definition set_index_i (x : nat) : M unit :=
  update_locals2 (fun l =>
    {| delta := delta l; deltaerr := deltaerr l; pmipphase := pmipphase l;
       list_pmip4_models2 := list_pmip4_models2 l; index_i := Some x |}).

Definition read_float (f : Locals2 -> option pyobj) : M fnum :=
  let* o := read_name (fun s => f (locals2 s)) in
  lift (to_float o).

Definition label_of (name : string) : string :=
  if str_in name (keys dic_labels)
  then default name (assoc name dic_labels)
  else name.

Definition file_344 : string :=
  "IPCC_Fig3.44_numerical_values_" +:+ version +:+ ".txt".

(** Lines 767-776. *)
Definition models_of_period (period : string) : option (list string) :=
  if String.eqb period "EECO" then
    Some (keys_order w _ (keys dic_global_mean_eocene))
  else if String.eqb period "MPWP" then
    Some (keys_order w _ (keys dic_global_mean_plio))
  else if String.eqb period "LIG" then
    Some (keys_order w _ (keys dic_global_mean_lig))
  else if String.eqb period "MH" then Some list_models_mh
  else if String.eqb period "LGM" then Some list_models_lgm
  else None.

(** Lines 787-866: one model of one panel of Figure 3.44; the accumulator
    holds the three lists of the ensemble means (CMIP6, PMIP4, PMIP3). *)
Definition model_point_344 (period var region rds : string)
    (list_models : list string) (model : string)
    (ens : list pyobj * list pyobj * list pyobj)
  : M (list pyobj * list pyobj * list pyobj) :=
  let p := [period; var; region; rds; model] in
  when (str_in model list_pmip3_models_lgm)
    (set_index_i (index_of model list_pmip3_models_lgm)) ;;
  when (str_in model list_pmip4_models_lgm)
    (set_index_i (index_of model list_pmip4_models_lgm)) ;;
  when (str_in model list_pmip3_models_mh)
    (set_index_i (index_of model list_pmip3_models_mh)) ;;
  when (str_in model list_pmip4_models_mh)
    (set_index_i (index_of model list_pmip4_models_mh)) ;;
  (if String.eqb region "Globe" then
     when (str_in period ["MH"; "LGM"])
       (let* d := py_getitem (p ++ ["allmodelpts"; "delta_mean"]) in
        set_delta d ;;
        set_deltaerr (PyInt 0) ;;
        when (str_in model list_pmip3_models) (set_pmipphase "PMIP3") ;;
        when (str_in model list_pmip4_models) (set_pmipphase "PMIP4") ;;
        let* phase := read_name (fun s => pmipphase (locals2 s)) in
        let* d := py_getitem (p ++ ["allmodelpts"; "delta_mean"]) in
        print [OStr period; OStr phase; OStr model; OObj d]) ;;
     when (str_in period ["LIG"])
       (let* x := key_lookup model dic_global_mean_lig in
        set_delta (PyFloat x) ;; set_deltaerr (PyInt 0) ;;
        set_pmipphase "PMIP4") ;;
     when (str_in period ["MPWP"])
       (let* x := key_lookup model dic_global_mean_plio in
        set_delta (PyFloat x) ;; set_deltaerr (PyInt 0) ;;
        set_pmipphase "PMIP4") ;;
     when (str_in period ["EECO"])
       (let* x := key_lookup model dic_global_mean_eocene in
        set_delta (PyFloat x) ;; set_deltaerr (PyInt 0) ;;
        set_pmipphase "PMIP4")
   else
     let* d := py_getitem (p ++ ["modelonrecpts"; "delta_mean"]) in
     set_delta d ;;
     let* e := py_getitem (p ++ ["modelonrecpts"; "delta_std"]) in
     set_deltaerr e) ;;
  (if str_in period ["MH"; "LGM"]
   then set_list_pmip4_models2 list_pmip4_models
   else set_list_pmip4_models2 list_models) ;;
  let* models2 := read_name (fun s => list_pmip4_models2 (locals2 s)) in
  let* d := read_name (fun s => delta (locals2 s)) in
  let* class :=
    if str_in model list_cmip6_models then
      let* col := key_lookup model dic_color_models in
      ret (2%nat, col, ((ens.1.1 ++ [d])%list, ens.1.2, ens.2))
    else if str_in model models2 then
      ret (2%nat, "gray", (ens.1.1, (ens.1.2 ++ [d])%list, ens.2))
    else
      ret (1%nat, "gray", (ens.1.1, ens.1.2, (ens.2 ++ [d])%list)) in
  let* i := read_name (fun s => index_i (locals2 s)) in
  let* y := read_float delta in
  let* yerr := read_float deltaerr in
  plot "errorbar"
    [ONat (class.1.1 + 0 * i); OFloat y; OFloat yerr; OStr class.1.2] ;;
  f_write file_344
    [OStr "%20s, %7.2f (%5.2f)\n"; OStr (label_of model); OFloat y;
     OFloat yerr] ;;
  ret class.2.

(** Lines 713-917: one panel of Figure 3.44. *)
Definition panel_344 (sp : subplot) : M unit :=
  let* params := lift (of_option KeyError
                         (snd <$> find (fun e => bool_decide (e.1 = sp))
                                    dic_summ_plots)) in
  let period := params.1.1.1 in
  let var := params.1.1.2 in
  let region := params.1.2 in
  let rds := params.2 in
  let p := [period; var; region; rds] in
  f_write file_344 [OStr "region: %s; variable: %s, period: %s\n";
                    OStr region; OStr var; OStr period] ;;
  let* label := key_lookup rds dic_labels in
  f_write file_344 [OStr "reconstructioni data set: %s\n"; OStr label] ;;
  plot "add_subplot" [ONat sp.1.1; ONat sp.1.2; ONat sp.2] ;;
  plot "set_xlim" [ONat 0; ONat 3] ;;
  plot "set_xticks" [] ;;
  when (String.eqb region "Globe") (plot "set_ylim" [OStr "-15"; ONat 20]) ;;
  plot "set_title"
    [OStr (if String.eqb region "Globe" then period +:+ " GSAT"
           else period +:+ " " +:+ var +:+ "\n" +:+ regionname region)] ;;
  plot "plot" [OStr "-1"; ONat 5; ONat 0; ONat 0] ;;
  (if String.eqb region "Globe" then
     let* range := key_lookup period darrell_s_delta_gsat_estimates in
     plot "fill_between" [OFloat range.1; OFloat range.2]
   else
     let* d := py_getitem (p ++ ["reconstructions"; "mean"]) in
     set_delta d ;;
     let* e := py_getitem (p ++ ["reconstructions"; "std"]) in
     set_deltaerr e ;;
     let* x := lift (to_float d) in
     let* xerr := lift (to_float e) in
     plot "fill_between" [OFloat (fsub x xerr); OFloat (fadd x xerr)] ;;
     plot "plot" [OStr "-1"; ONat 5; OFloat x; OFloat x]) ;;
  let* x := read_float delta in
  let* xerr := read_float deltaerr in
  f_write file_344 [OStr "reconstructions, average (std): %7.2f (%7.2f) \n";
                    OFloat x; OFloat xerr] ;;
  let* list_models := lift (of_option NameError (models_of_period period)) in
  f_write file_344 [OStr "model results - average (std)\n"] ;;
  let* ens := for_fold list_models ([], [], [])
                (model_point_344 period var region rds list_models) in
  let* ar6 := lift (to_floats (ens.1.1 ++ ens.1.2)) in
  let* ar5 := lift (to_floats ens.2) in
  let ens_mean_ar6 := np_average ar6 in
  let ens_mean_ar5 := np_average ar5 in
  plot "errorbar" [OStr "0.5"; OFloat ens_mean_ar5] ;;
  plot "errorbar" [OStr "2.5"; OFloat ens_mean_ar6] ;;
  f_write file_344 [OStr "%20s: %7.2f \n"; OStr "Ensemble mean PMIP3-CMIP5";
                    OFloat ens_mean_ar5] ;;
  f_write file_344 [OStr "%20s: %7.2f \n"; OStr "Ensemble mean PMIP4-CMIP6";
                    OFloat ens_mean_ar6] ;;
  f_write file_344
    [OStr "========================================================\n"] ;;
  when (bool_decide (sp = (nlines, ncols, 1 * ncols + 7)))
    (for_each list_cmip6_models (fun model =>
       when (negb (str_in model ["AWIESM1"; "MPI-PMIP4"; "CESM2.1"]))
         (let* col := key_lookup model dic_color_models in
          plot "plot" [OStr col; OStr (label_of model)])) ;;
     plot "legend" []) ;;
  when (bool_decide (sp = (nlines, ncols, 2))) (plot "text" [OStr "(a)"]) ;;
  when (bool_decide (sp = (nlines, ncols, ncols + 1)))
    (plot "text" [OStr "(b)"]) ;;
  when (bool_decide (sp = (nlines, ncols, 2 * ncols + 1)))
    (plot "text" [OStr "(c)"]).

(** Lines 694-922: Figure 3.44 and its numerical values. *)
Definition figure_344 : M unit :=
  f_write file_344
    [OStr "Numerical values for IPCC AR6 WGI chapter 3 Figure 3_44\n"] ;;
  f_write file_344 [OStr "Creator: Masa Kageyama, LSCE, France\n"] ;;
  f_write file_344
    [OStr "========================================================\n"] ;;
  plot "figure" [OStr "Data-model comparison summary CMIP5-PMIP3 vs CMIP6-PMIP4"] ;;
  let sp_list := keys_order w _ (map fst dic_summ_plots) in
  for_each sp_list panel_344 ;;
  plot "savefig" [OStr ("DMC_" +:+ version +:+ nameplot)] ;;
  plot "savefig" [OStr ("DMC_" +:+ version +:+ nameplot +:+ ".pdf")].

Definition file_32a : string :=
  "IPCC_Fig3.2a_numerical_values_" +:+ version +:+ ".txt".

(** Lines 1006-1053: one model of Figure 3.2a. *)
Definition model_point_32a (period region rdsl rdso model : string) : M unit :=
  let po := [period; "MATocean"; region; rdso; model; "modelonrecpts"] in
  let pl := [period; "MAT"; region; rdsl; model; "modelonrecpts"] in
  let* deltaO := py_getitem (po ++ ["delta_mean"]) in
  let* deltaOerr := py_getitem (po ++ ["delta_std"]) in
  let* deltaL := py_getitem (pl ++ ["delta_mean"]) in
  let* deltaLerr := py_getitem (pl ++ ["delta_std"]) in
  let* style :=
    if str_in model list_cmip6_models then
      let* col := key_lookup model dic_color_models in
      ret (col, label_of model)
    else
      let* models2 := read_name (fun s => list_pmip4_models2 (locals2 s)) in
      ret ("gray", "") in
  let* xo := lift (to_float deltaO) in
  let* xoerr := lift (to_float deltaOerr) in
  let* xl := lift (to_float deltaL) in
  let* xlerr := lift (to_float deltaLerr) in
  plot "errorbar" [OFloat xo; OFloat xoerr; OFloat xl; OFloat xlerr;
                   OStr style.1; OStr style.2] ;;
  f_write file_32a [OStr "%20s, %7.2f (%5.2f), %7.2f (%5.2f)\n";
                    OStr (label_of model); OFloat xl; OFloat xlerr;
                    OFloat xo; OFloat xoerr].

(** Lines 930-1071: Figure 3.2a and its numerical values. *)
Definition figure_32a : M unit :=
  when (String.eqb plot_deltaTland_vs_deltaTocean "yes")
    (f_write file_32a
       [OStr "Numerical values for IPCC AR6 WGI chapter 3 Figure 3_2a\n"] ;;
     f_write file_32a [OStr "Creator: Masa Kageyama, LSCE, France\n"] ;;
     f_write file_32a
       [OStr "========================================================\n"] ;;
     let period := "LGM" in
     for_each ["Globe"] (fun region =>
       plot "figure" [] ;;
       let* lims := key_lookup region dic_lims_region in
       plot "set_xlim" [OStr "lims"] ;;
       plot "set_ylim" [OStr "lims"] ;;
       plot "plot" [OStr "PMIP3 models"] ;;
       plot "plot" [OStr "non-CMIP6 PMIP4 models"] ;;
       for_each [("Cleator2019", "Tierney2019")] (fun setrds =>
         let rdsl := setrds.1 in
         let rdso := setrds.2 in
         let po := [period; "MATocean"; region; rdso; "reconstructions"] in
         let pl := [period; "MAT"; region; rdsl; "reconstructions"] in
         let* deltaO := py_getitem (po ++ ["mean"]) in
         let* deltaOerr := py_getitem (po ++ ["std"]) in
         let* deltaL := py_getitem (pl ++ ["mean"]) in
         let* deltaLerr := py_getitem (pl ++ ["std"]) in
         let label := label_of rdsl +:+ "/" +:+ label_of rdso in
         let* xo := lift (to_float deltaO) in
         let* xoerr := lift (to_float deltaOerr) in
         let* xl := lift (to_float deltaL) in
         let* xlerr := lift (to_float deltaLerr) in
         plot "errorbar" [OFloat xo; OFloat xoerr; OFloat xl; OFloat xlerr;
                          OStr label] ;;
         plot "fill_between" [OFloat (fsub xl xlerr); OFloat (fadd xl xlerr)] ;;
         plot "fill_betweenx" [OFloat (fsub xo xoerr); OFloat (fadd xo xoerr)] ;;
         f_write file_32a [OStr "region: %s\n"; OStr region] ;;
         let* labell := key_lookup rdsl dic_labels in
         f_write file_32a [OStr "Continental reconstructions from : %s\n";
                           OStr labell] ;;
         f_write file_32a
           [OStr "MAT LGM - PI anomaly, average (standard deviation), in degC \n"] ;;
         f_write file_32a [OStr "%7.2f (%7.2f) \n"; OFloat xl; OFloat xlerr] ;;
         let* labelo := key_lookup rdso dic_labels in
         f_write file_32a [OStr "Marine reconstructions from : %s \n";
                           OStr labelo] ;;
         f_write file_32a
           [OStr "MAT LGM - PI anomaly, average (standard deviation), in degC \n"] ;;
         f_write file_32a [OStr "%7.2f (%7.2f) \n"; OFloat xo; OFloat xoerr] ;;
         f_write file_32a
           [OStr "model results (model output only taken over reconstruction sites)\n"] ;;
         f_write file_32a
           [OStr "model name, average (std) over land, average (std) over oceans\n"] ;;
         for_each list_models_lgm
           (model_point_32a period region rdsl rdso) ;;
         f_write file_32a [OStr "=====================================\n"] ;;
         plot "legend" []) ;;
       plot "savefig"
         [OStr ("deltaTocean_vs_deltaTland_CMIP5_CMIP6_" +:+ version
                +:+ "_recpts_" +:+ region)] ;;
       plot "savefig"
         [OStr ("deltaTocean_vs_deltaTland_CMIP5_CMIP6_" +:+ version
                +:+ "_recpts_" +:+ region +:+ ".pdf")])).

(** Part II, lines 653-1071. *)
Definition part2 : M unit := figure_344 ;; figure_32a.

(** The script, for a value of [compute_averages_again]. *)
Definition script (again : string) : M unit := part1 w again ;; part2.

End PartII.

(* ================================================================== *)
(** * Notions used to state the properties *)

(** The sum of a list of rationals. *)
Definition Qsum (l : list Q) : Q := foldr Qplus 0%Q l.



(** The grid indices of the unmasked cells of a mask, counted from [i]. *)
Fixpoint unmasked_from (i : nat) (m : list bool) : list nat :=
  match m with
  | [] => []
  | b :: m' =>
      if b then unmasked_from (S i) m' else i :: unmasked_from (S i) m'
  end.

Definition unmasked_indices (m : list bool) : list nat := unmasked_from 0 m.

(** The vectors the Monte Carlo average of the reconstructions works on
    (lines 508-513): means, standard errors, weights. *)
Definition rec_vectors (recgrid : Grid) (rmeorig rseorig : marray)
  : list fnum * list fnum * list fnum :=
  (compressed rmeorig, compressed rseorig,
   compressed (normalised_weights recgrid rmeorig)).

(** The total area of the unmasked cells of a field on a grid. *)
Definition unmasked_area (g : Grid) (a : marray) : Q :=
  Qsum (map (cell_area g) (unmasked_indices (ma_mask a))).

(** ** A small world, to run the script on

    One grid of cells of area 1; every reconstruction file holds three
    cells, the second one masked; every model file holds 50 years of three
    cells; a pattern matches one file, named as the pattern; regridding
    takes the first three cells of a slice; the generator of [random.gauss]
    returns 0, 1, 2, ...; [N.random.choice] draws the identity. *)
Definition unit_grid : Grid := {| cell_area := fun _ => 1%Q |}.

Definition small_rec : tvar2 :=
  {| grid2 := unit_grid;
     cells2 := [(false, Fin 1); (true, Fin 5); (false, Fin 3)] |}.

Definition small_model : tvar3 :=
  {| grid3 := unit_grid;
     cells3 := replicate 50 [(false, Fin 280); (false, Fin 281);
                             (false, Fin 282)] |}.

Definition floor_sqrt (q : Q) : Q := Z.sqrt (Qnum q) # Pos.sqrt (Qden q).

Definition small_world : World :=
  {| cdms_read2 := fun _ _ _ => Some small_rec;
     cdms_read3 := fun _ _ _ => Some small_model;
     glob_glob := fun pattern => [pattern];
     regrid := fun v g =>
       {| grid3 := g;
          cells3 := map (fun a => map (fun i => nth i a (true, NaN)) (seq 0 3))
                        (cells3 v) |};
     averager := fun v => map (fun a => np_average (compressed a)) (cells3 v);
     sqrtQ := floor_sqrt;
     gauss_z := fun n => inject_Z (Z.of_N n);
     np_perm := fun _ n => seq 0 n;
     stat_keys_swapped := false;
     keys_order := fun _ l => l |}.




Definition globe : box := (mk_range (-90) 90 "cc", mk_range (-180) 180 "co").


(** ** Reasoning on the monad *)

(** [wpg E m Q s]: the run of [m] from [s] returns a value and a state
    that satisfy [Q], or it raises an exception and [E] holds.  With
    [E := True] this is partial correctness (if [m] returns, [Q] holds),
    with [E := False] total correctness ([m] returns and [Q] holds). *)
Definition wpg {A} (E : Prop) (m : M A) (Q : A -> State -> Prop) (s : State)
  : Prop :=
  match m s with
  | (Ok a, s') => Q a s'
  | (Raise _, _) => E
  end.

(** Two paths of a nested dictionary that part before either ends: neither
    is a prefix of the other. *)
Fixpoint indep (p q : list string) : Prop :=
  match p, q with
  | a :: p', b :: q' => a <> b \/ indep p' q'
  | _, _ => False
  end.

(** The object at a path is a dictionary. *)
Definition is_dict_at (p : list string) (d : pyobj) : Prop :=
  exists m, getpath p d = Ok (PyDict m).


(** ** The two resampling procedures in closed form *)

(** One realisation of the average of the reconstructions, for the deviate
    [z] of its call of [random.gauss]: the weighted sum of
    [rme + z * rse]. *)
Definition shared_draw (z : Q) (rme rse recwei : list fnum) : fnum :=
  np_sum (zip_with fmul
            (zip_with (fun m s => fadd m (fmul (Fin z) s)) rme rse) recwei).

(** The [n] realisations drawn from position [pos] of the stream of
    [random.gauss] on: the [k]-th one uses the single deviate at
    [pos + k]. *)
Definition realisations (w : World) (pos : N) (rme rse recwei : list fnum)
    (n : nat) : list fnum :=
  map (fun k => shared_draw (gauss_z w (pos + N.of_nat k)) rme rse recwei)
      (seq 0 n).

(** The [nbyrs] years that the call number [k] of [N.random.choice] draws
    from a series, and the values drawn. *)
Definition sample_years (w : World) (k : N) (a : list fnum) : list nat :=
  take nbyrs (np_perm w k (length a)).

Definition sample (w : World) (k : N) (a : list fnum) : list fnum :=
  map (fun i => nth i a NaN) (sample_years w k a).

(** The differences, past minus pre-industrial, of the averages of the
    samples drawn from position [pos] on: iteration [k] draws the
    pre-industrial sample at [pos + 2k] and the past one at
    [pos + 2k + 1]. *)
Definition deltam_of (w : World) (pos : N) (pi past : list fnum) (n : nat)
  : list fnum :=
  map (fun k =>
         fsub (np_average (sample w (pos + N.of_nat (2 * k) + 1) past))
              (np_average (sample w (pos + N.of_nat (2 * k)) pi)))
      (seq 0 n).

(** ** The Monte Carlo average as the specification words it

    Every realisation draws an independent deviate for every grid point:
    the weighted sum of [rme_i + z_i * rse_i].  To be compared with
    [realisation] and [monte_carlo]. *)
Definition independent_draw (zs : list Q) (rme rse recwei : list fnum)
  : fnum :=
  np_sum (zip_with fmul
            (zip_with (fun z (ms : fnum * fnum) =>
                         fadd ms.1 (fmul (Fin z) ms.2))
                      zs (zip rme rse))
            recwei).

Definition realisation_independent (w : World) (rme rse recwei : list fnum)
  : M fnum :=
  let* zs := collect (length rme) (next_gauss w) in
  ret (independent_draw zs rme rse recwei).

Definition monte_carlo_independent (w : World) (rme rse recwei : list fnum)
  : M (fnum * fnum) :=
  let* rrave := collect niter (realisation_independent w rme rse recwei) in
  ret (np_average rrave, np_std (sqrtQ w) rrave).


(** The state after the initialisation of [dic_res] (lines 437-447), in a
    fresh interpreter. *)
Definition initialised : State :=
  snd ((put_dic_res empty_dict ;; init_dic_res) (initial_state ∅)).


(** ** What the averaging stage leaves in [dic_res] *)

(** A period, a data set and a variable that [dic_list_vars] selects. *)
Definition selected (period rds var : string) : Prop :=
  exists vars_of list_vars,
    assoc period dic_list_vars = Some vars_of /\
    assoc rds vars_of = Some list_vars /\
    In var list_vars.

(** The series of a case of [dic_stat_vars], among the four regional
    averages (all points: pre-industrial, past; reconstruction points:
    pre-industrial, past). *)
Definition case_series (case : string)
    (s : list fnum * list fnum * list fnum * list fnum)
  : list fnum * list fnum :=
  if String.eqb case "allmodelpts" then (s.1.1.1, s.1.1.2) else (s.1.2, s.2).

Definition both_cases : list string := ["allmodelpts"; "modelonrecpts"].

(** The object at a path satisfies a property. *)
Definition at_path (p : list string) (F : pyobj -> Prop) (d : pyobj) : Prop :=
  exists e, getpath p d = Ok e /\ F e.

(** The part of the entry [dic_res[period][var][region][rds]] that comes
    from the reconstructions: the common mask, the number of unmasked grid
    points, the mean and the standard deviation of the [niter] realisations
    drawn from some position of the stream of [random.gauss] on. *)
Definition rec_entry (w : World) (period rds var : string) (b : box)
    (recgrid : Grid) (recmask : list bool) (e : pyobj) : Prop :=
  exists rmeorig rseorig pos,
    read_reconstruction w period rds var b
    = Ok (recgrid, (recmask, rmeorig, rseorig)) /\
    let rme := compressed rmeorig in
    let rse := compressed rseorig in
    let recwei := compressed (normalised_weights recgrid rmeorig) in
    let rrave := realisations w pos rme rse recwei niter in
    length rme = length rse /\
    length rme = length recwei /\
    getpath ["mask"] e = Ok (PyMask recmask) /\
    getpath ["nbpts"] e = Ok (PyInt (ma_count rmeorig)) /\
    getpath ["reconstructions"; "mean"] e = Ok (PyFloat (np_average rrave)) /\
    getpath ["reconstructions"; "std"] e
    = Ok (PyFloat (np_std (sqrtQ w) rrave)).

(** The name that the script binds for the file of a model, when it
    binds one (lines 544-553 for the pre-industrial file: [experiment]
    'piControl', [table] 'PI'; lines 561-570 for the past: 'midHolocene',
    the period): for the Mid-Holocene the file that matches the pattern
    when there is exactly one, for the LGM the template of [dic_models]
    with the name of the variable and the diagnostic filled in. *)
Definition model_file (w : World)
    (period dir_models modvarname diag model experiment table : string)
  : option string :=
  if String.eqb period "MH" then
    match glob_glob w
            (path_join dir_models
               ["*"; modvarname;
                diag +:+ modvarname +:+ "*" +:+ model +:+ "*" +:+ experiment
                  +:+ "*.nc"]) with
    | [f] => Some f
    | _ => None
    end
  else if String.eqb period "LGM" then
    match assoc table dic_models with
    | Some templates =>
        match assoc model templates with
        | Some template =>
            match format_s template [modvarname; diag] with
            | Some name => Some (path_join dir_models [name])
            | None => None
            end
        | None => None
        end
    | None => None
    end
  else None.

(** The two fields of a model: the variable [modvarname] of two files,
    over the box of the region.  The files are those whose names the script
    binds for the model, [model_file]; where it binds none (a pattern of
    the Mid-Holocene without exactly one match) the file is the one of the
    name bound before. *)
Definition model_fields (w : World) (period dir_models var model : string)
    (b : box) (vpi vpast : tvar3) : Prop :=
  exists modvarname diag fnamepi fnamepast,
    assoc var dic_model_varnames = Some modvarname /\
    assoc var dic_model_diagnames = Some diag /\
    (forall f, model_file w period dir_models modvarname diag model
                 "piControl" "PI" = Some f -> fnamepi = f) /\
    cdms_read3 w fnamepi modvarname b = Some vpi /\
    (forall f, model_file w period dir_models modvarname diag model
                 "midHolocene" period = Some f -> fnamepast = f) /\
    cdms_read3 w fnamepast modvarname b = Some vpast.

(** The entry of a model: for both cases, the mean and the standard
    deviation of the [niter] differences of 50-year averages drawn from some
    position of the stream of [N.random.choice] on, for the regional
    averages, on the grid and with the common mask of the reconstruction,
    of the two fields read for the model. *)
Definition model_entry (w : World) (period var model : string) (b : box)
    (dir_models : string) (recgrid : Grid) (cm : list bool) (e : pyobj)
  : Prop :=
  exists vpi vpast series,
    regional_series w var model recgrid cm vpi vpast = Ok series /\
    model_fields w period dir_models var model b vpi vpast /\
    forall case, In case both_cases ->
      exists pos,
        let pi := (case_series case series).1 in
        let past := (case_series case series).2 in
        let deltam := deltam_of w pos pi past niter in
        (nbyrs <= length pi)%nat /\ (nbyrs <= length past)%nat /\
        getpath [case; "delta_mean"] e = Ok (PyFloat (np_average deltam)) /\
        getpath [case; "delta_std"] e
        = Ok (PyFloat (np_std (sqrtQ w) deltam)).

Definition entry_done (w : World) (period rds var : string) (b : box)
    (list_models : list string) (dir_models : string) (e : pyobj) : Prop :=
  exists recgrid recmask,
    rec_entry w period rds var b recgrid recmask e /\
    forall model, In model list_models ->
      at_path [model]
        (model_entry w period var model b dir_models recgrid recmask) e.

(** A combination of the script: period, region, data set, variable. *)
Definition combo : Type := string * string * string * string.

Definition combo_path (c : combo) : list string :=
  [c.1.1.1; c.2; c.1.1.2; c.1.2].

(** The entries that the initialisation creates. *)
Definition in_range (c : combo) : Prop :=
  In c.1.1.1 list_periods /\ In c.1.1.2 list_regions /\
  In c.1.2 list_reconstructions /\ In c.2 all_vars.

(** [dic_res] when the combinations [done] have been processed. *)
Definition averaged (w : World) (done : list combo) (d : pyobj) : Prop :=
  forall c, in_range c ->
    is_dict_at (combo_path c) d /\
    (In c done ->
     exists b setup,
       assoc c.1.1.2 dic_regions = Some b /\
       period_setup c.1.1.1 = Some setup /\
       at_path (combo_path c)
         (entry_done w c.1.1.1 c.1.2 c.2 b setup.1 setup.2) d) /\
    (~ In c done -> getpath (combo_path c) d = Ok empty_dict).

(** The combinations of the script, in the order of its loops. *)
Definition all_combos : list combo :=
  flat_map (fun period =>
    flat_map (fun region =>
      flat_map (fun rds =>
        match assoc period dic_list_vars with
        | Some vars_of =>
            match assoc rds vars_of with
            | Some list_vars =>
                map (fun var => (period, region, rds, var)) list_vars
            | None => []
            end
        | None => []
        end) list_reconstructions) list_regions) list_periods.

(** ** A world in which the averaging stage runs to its end *)

Record good_world (w : World) (cells : nat) : Prop := {
  (** the files of the reconstructions can be read; their fields have
      [cells] cells, on grids whose cells have a positive area *)
  gw_read2 : forall path v b, exists f,
      cdms_read2 w path v b = Some f /\
      length (cells2 f) = cells /\
      forall i, (0 < cell_area (grid2 f) i)%Q;
  (** the files of the models can be read, and span at least [nbyrs]
      years *)
  gw_read3 : forall path v b, exists f,
      cdms_read3 w path v b = Some f /\ (nbyrs <= length (cells3 f))%nat;
  (** a pattern matches exactly one file *)
  gw_glob : forall pattern, exists f, glob_glob w pattern = [f];
  (** regridding keeps the years and yields slices of the size of the
      reconstructions *)
  gw_regrid : forall v g,
      length (cells3 (regrid w v g)) = length (cells3 v) /\
      Forall (fun a => length a = cells) (cells3 (regrid w v g));
  (** the regional averages of a field of at least [nbyrs] years span at
      least [nbyrs] years *)
  gw_averager : forall v,
      (nbyrs <= length (cells3 v))%nat ->
      (nbyrs <= length (averager w v))%nat;
}.


(** ** Notions for the blocks of the averaging stage *)

(** The names of the file and of the two variables of a reconstruction. *)
Definition rec_names (period rds var : string)
  : option (string * string * string) :=
  match assoc rds dic_data_files with
  | Some by_var =>
      match assoc var by_var with
      | Some by_period =>
          match assoc period by_period with
          | Some file =>
              match assoc rds dic_rec_varnames with
              | Some names_rds =>
                  match assoc var names_rds with
                  | Some names =>
                      Some (rep_data +:+ file, names.1.1 +:+ names.1.2,
                            names.1.1 +:+ names.2)
                  | None => None
                  end
              | None => None
              end
          | None => None
          end
      | None => None
      end
  | None => None
  end.

(** The names a model may not bear for its entry to stay apart from the
    keys of the reconstructions. *)
Definition reserved_keys : list string := ["mask"; "nbpts"; "reconstructions"].

(** What [reconstructions] establishes, in terms of [dic_res] as a whole. *)
Definition rec_stored (w : World) (period region rds var : string) (b : box)
    (recgrid : Grid) (recmask : list bool) (d : pyobj) : Prop :=
  exists rmeorig rseorig pos,
    read_reconstruction w period rds var b
    = Ok (recgrid, (recmask, rmeorig, rseorig)) /\
    let p := [period; var; region; rds] in
    let rme := compressed rmeorig in
    let rse := compressed rseorig in
    let recwei := compressed (normalised_weights recgrid rmeorig) in
    let rrave := realisations w pos rme rse recwei niter in
    length rme = length rse /\
    length rme = length recwei /\
    getpath (p ++ ["mask"]) d = Ok (PyMask recmask) /\
    getpath (p ++ ["nbpts"]) d = Ok (PyInt (ma_count rmeorig)) /\
    getpath (p ++ ["reconstructions"; "mean"]) d
    = Ok (PyFloat (np_average rrave)) /\
    getpath (p ++ ["reconstructions"; "std"]) d
    = Ok (PyFloat (np_std (sqrtQ w) rrave)).

(** The file names of the LGM can be built, for every model of the LGM and
    every variable of the models. *)
Definition lgm_name_ok (table model var : string) : bool :=
  match assoc table dic_models, assoc var dic_model_varnames,
        assoc var dic_model_diagnames with
  | Some templates, Some modvarname, Some diag =>
      match assoc model templates with
      | Some template =>
          match format_s template [modvarname; diag] with
          | Some _ => true
          | None => false
          end
      | None => false
      end
  | _, _, _ => false
  end.

(** Resolving and reading a file leaves [dic_res], the mask and the shelve
    file as they are; in a good world the field read spans enough years. *)
Definition files_frame (E : Prop) (s : State) (v : tvar3) (s' : State)
  : Prop :=
  dic_res s' = dic_res s /\ chosenmask s' = chosenmask s /\
  shelf s' = shelf s /\ (E \/ (nbyrs <= length (cells3 v))%nat).

(** What [temporal_averages] stores for one case. *)
Definition case_stored (w : World) (pm : list string)
    (series : list fnum * list fnum * list fnum * list fnum)
    (case : string) (d : pyobj) : Prop :=
  exists pos,
    let pi := (case_series case series).1 in
    let past := (case_series case series).2 in
    let deltam := deltam_of w pos pi past niter in
    (nbyrs <= length pi)%nat /\ (nbyrs <= length past)%nat /\
    getpath (pm ++ [case; "delta_mean"]) d = Ok (PyFloat (np_average deltam)) /\
    getpath (pm ++ [case; "delta_std"]) d
    = Ok (PyFloat (np_std (sqrtQ w) deltam)).

(** The combinations of one data set, of one region, of one period. *)
Definition vars_combos (period region rds : string) : list combo :=
  match assoc period dic_list_vars with
  | Some vars_of =>
      match assoc rds vars_of with
      | Some list_vars => map (fun var => (period, region, rds, var)) list_vars
      | None => []
      end
  | None => []
  end.

Definition rds_combos (period region : string) : list combo :=
  flat_map (vars_combos period region) list_reconstructions.

Definition region_combos (period : string) : list combo :=
  flat_map (rds_combos period) list_regions.

(** The invariant of the loops: the combinations [done] are processed, the
    shelve file is untouched. *)
Definition stage_inv (w : World) (s0 : State) (done : list combo) (s : State)
  : Prop :=
  averaged w done (dic_res s) /\ shelf s = shelf s0.


(** [wpx m Q R s]: the run of [m] from [s] returns a value and a state
    that satisfy [Q], or it raises an exception that satisfies [R].
    [wpg E m Q s] is [wpx m Q (fun _ => E) s]. *)
Definition wpx {A} (m : M A) (Q : A -> State -> Prop) (R : exn -> Prop)
    (s : State) : Prop :=
  match m s with
  | (Ok a, s') => Q a s'
  | (Raise e, _) => R e
  end.


(** The state the averaging stage leaves in the small world, from a fresh
    interpreter without shelve file. *)
Definition averaged_small : State :=
  snd (part1 small_world "yes" (initial_state ∅)).


(** A computation that only reads [dic_res]: whatever it returns or raises,
    [dic_res] is afterwards the object it was. *)
Definition reads_only {A} (m : M A) : Prop :=
  forall s, dic_res (snd (m s)) = dic_res s.

(** The regional averages of a model in the small world. *)
Definition small_series : list fnum * list fnum * list fnum * list fnum :=
  match regional_series small_world "MAT" "IPSL" unit_grid
          [false; true; false] small_model small_model with
  | Ok x => x
  | Raise _ => ([], [], [], [])
  end.


(** The dictionary that binds every key of a list to one object. *)
Definition dict_of (ks : list string) (o : pyobj) : pyobj :=
  PyDict (list_to_map (map (fun k => (k, o)) ks)).

(** The state after one combination in the small world, from the
    initialised [dic_res] on. *)
Definition combined_small : State :=
  snd (combination small_world "LGM" "Globe" "Bartlein2011" "MAT" globe
         list_models_lgm dir_lgm initialised).

(** The regional averages of a model in the small world when the
    reconstruction masks no cell. *)
Definition small_series_unmasked
  : list fnum * list fnum * list fnum * list fnum :=
  match regional_series small_world "MAT" "IPSL" unit_grid
          [false; false; false] small_model small_model with
  | Ok x => x
  | Raise _ => ([], [], [], [])
  end.

(** The two numerical reports of Part II. *)
Definition report_files : list string := [file_344; file_32a].

(** A computation whose only effects are to print, to write lines to the
    two reports, to call the plotting library and to bind names of Part II:
    the three outputs are extended, never rewritten, and the random
    streams, the shelve file, the mask and the file names of Part I are left
    as they are. *)
Definition outputs_only {A} (m : M A) : Prop :=
  forall s, exists out wr pl,
    let s' := snd (m s) in
    stdout s' = stdout s ++ out /\
    written s' = written s ++ wr /\
    plotted s' = plotted s ++ pl /\
    Forall (fun e : string * out_line => In e.1 report_files) wr /\
    shelf s' = shelf s /\
    gauss_pos s' = gauss_pos s /\ choice_pos s' = choice_pos s /\
    chosenmask s' = chosenmask s /\
    fnamepi s' = fnamepi s /\ fnamepast s' = fnamepast s.

(** A state of Part II in which an earlier panel has left [delta] and
    [deltaerr] bound. *)
Definition after_a_panel : State :=
  with_locals2
    {| delta := Some (PyFloat (Fin 1)); deltaerr := Some (PyInt 0);
       pmipphase := Some "PMIP4"; list_pmip4_models2 := Some [];
       index_i := Some 0%nat |}
    (initial_state ∅).

(** The names a panel of Figure 3.44 reads before it binds them: [delta]
    and [deltaerr] hold numbers and [i] is bound. *)
Definition panel_names_bound (s : State) : Prop :=
  exists d e x xerr i,
    delta (locals2 s) = Some d /\ to_float d = Ok x /\
    deltaerr (locals2 s) = Some e /\ to_float e = Ok xerr /\
    index_i (locals2 s) = Some i.

(** The objects of a list are numbers. *)
Definition all_numbers (l : list pyobj) : Prop :=
  Forall (fun o => exists x, to_float o = Ok x) l.

(** The value of a model in a panel: what [dic_res] and the tables must
    hold for it to be found. *)
Definition model_value_found (d : pyobj) (period var region rds model : string)
  : Prop :=
  let p := [period; var; region; rds; model] in
  if String.eqb region "Globe" then
    str_in period ["MH"; "LGM"; "LIG"; "MPWP"; "EECO"] = true /\
    (str_in period ["MH"; "LGM"] = true ->
     (exists x, getpath (p ++ ["allmodelpts"; "delta_mean"]) d
                = Ok (PyFloat x)) /\
     str_in model list_pmip3_models || str_in model list_pmip4_models
     = true) /\
    (str_in period ["LIG"] = true ->
     is_Some (assoc model dic_global_mean_lig)) /\
    (str_in period ["MPWP"] = true ->
     is_Some (assoc model dic_global_mean_plio)) /\
    (str_in period ["EECO"] = true ->
     is_Some (assoc model dic_global_mean_eocene))
  else
    (exists x, getpath (p ++ ["modelonrecpts"; "delta_mean"]) d
               = Ok (PyFloat x)) /\
    (exists x, getpath (p ++ ["modelonrecpts"; "delta_std"]) d
               = Ok (PyFloat x)).

(** [delta] and [deltaerr] hold numbers; [i] is bound. *)
Definition values_bound (s : State) : Prop :=
  exists d x e xerr,
    delta (locals2 s) = Some d /\ to_float d = Ok x /\
    deltaerr (locals2 s) = Some e /\ to_float e = Ok xerr.

Definition index_bound (s : State) : Prop :=
  is_Some (index_i (locals2 s)).

(** From [s] to [s1] the results are kept, and so is what is bound. *)
Definition keeps_bound (s s1 : State) : Prop :=
  dic_res s1 = dic_res s /\
  (index_bound s -> index_bound s1) /\
  (values_bound s -> values_bound s1).

(** What a panel needs of the tables for one model: a colour when the model
    is a CMIP6 one. *)
Definition has_colour (model : string) : bool :=
  negb (str_in model list_cmip6_models)
  || bool_decide (is_Some (assoc model dic_color_models)).

(** The model is in one of the four lists that bind the index [i], and in
    one of the two that bind [pmipphase]. *)
Definition has_index (model : string) : bool :=
  str_in model list_pmip3_models_lgm || str_in model list_pmip4_models_lgm
  || str_in model list_pmip3_models_mh || str_in model list_pmip4_models_mh.

Definition has_phase (model : string) : bool :=
  str_in model list_pmip3_models || str_in model list_pmip4_models.

(** Python enumerates all the keys of a dictionary, each once. *)
Definition keys_enumerated (w : World) : Prop :=
  forall (A : Type) (l : list A), Permutation (keys_order w A l) l.

(** The names a fresh interpreter has not bound are bound, or the first
    panel enumerated is a regional one, which binds them. *)
Definition first_panel_can_start (w : World) (s : State) : Prop :=
  panel_names_bound s \/
  exists sp rest period var region rds,
    keys_order w subplot (map fst dic_summ_plots) = sp :: rest /\
    In (sp, (period, var, region, rds)) dic_summ_plots /\
    region <> "Globe".

(** A state of Part II on the results of the small world, in which an
    earlier panel has left its names bound. *)
Definition plot_ready_small : State :=
  with_locals2 (locals2 after_a_panel) averaged_small.

(* ================================================================== *)
(** * Properties of the numbers and of the masked arrays *)

Lemma Qred_eq (q : Q) : (Qred q == q)%Q.
Proof. apply Qred_correct. Qed.

Lemma ma_map_mask f a : ma_mask (ma_map f a) = ma_mask a.
Proof.
  unfold ma_mask, ma_map. rewrite map_map. apply map_ext.
  intros [[] x]; reflexivity.
Qed.



Lemma str_in_In x l : str_in x l = true <-> In x l.
Proof.
  unfold str_in. rewrite existsb_exists. split.
  - intros (y & Hy & E). apply String.eqb_eq in E. subst. exact Hy.
  - intros H. exists x. split; [exact H|apply String.eqb_refl].
Qed.

Lemma str_in_not_In x l : str_in x l = false <-> ~ In x l.
Proof.
  rewrite <- str_in_In. destruct (str_in x l); split; intros; congruence.
Qed.

(** ** Unit conversion *)




Lemma regional_series_inv w var model recgrid cm vpi vpast s :
  regional_series w var model recgrid cm vpi vpast = Ok s ->
  let vpi' := change_units var model vpi in
  let vpast' := change_units var model vpast in
  exists vpim vpastm,
    masked_where3 (replicate (length (cells3 vpi')) cm)
                  (regrid w vpi' recgrid) = Ok vpim /\
    masked_where3 (replicate (length (cells3 vpast')) cm)
                  (regrid w vpast' recgrid) = Ok vpastm /\
    s = (averager w vpi', averager w vpast',
         averager w vpim, averager w vpastm).
Proof.
  unfold regional_series. intros H.
  destruct (masked_where3 _ (regrid w (change_units var model vpi) recgrid))
    as [vpim|] eqn:E1; [|discriminate].
  destruct (masked_where3 _ (regrid w (change_units var model vpast) recgrid))
    as [vpastm|] eqn:E2; [|discriminate].
  exists vpim, vpastm. repeat split; congruence.
Qed.




(** ** Masks and compressed vectors *)

Lemma zip_exact_length {A B C} (f : A -> B -> C) l k r :
  zip_exact f l k = Some r -> length l = length k /\ length r = length l.
Proof.
  revert k r. induction l as [|a l IH]; intros [|b k] r H; simpl in H;
    try discriminate.
  - inversion H. auto.
  - destruct (zip_exact f l k) as [r'|] eqn:E; [|discriminate].
    inversion H; subst. destruct (IH _ _ E) as [H1 H2]. simpl. lia.
Qed.

Lemma zip_exact_zip_with {A B C} (f : A -> B -> C) l k r :
  zip_exact f l k = Some r -> r = zip_with f l k.
Proof.
  revert k r. induction l as [|a l IH]; intros [|b k] r H; simpl in H;
    try discriminate.
  - inversion H. reflexivity.
  - destruct (zip_exact f l k) as [r'|] eqn:E; [|discriminate].
    inversion H; subst. simpl. f_equal. auto.
Qed.

Lemma zip_exact_some {A B C} (f : A -> B -> C) l k :
  length l = length k -> zip_exact f l k = Some (zip_with f l k).
Proof.
  revert k. induction l as [|a l IH]; intros [|b k] H; simpl in *;
    try discriminate; auto.
  rewrite IH by lia. reflexivity.
Qed.

Lemma masked_where_inv cond a a' :
  masked_where cond a = Some a' ->
  length cond = length a /\
  ma_mask a' = zip_with orb (ma_mask a) cond /\
  ma_data a' = ma_data a.
Proof.
  unfold masked_where. intros H.
  destruct (zip_exact_length _ _ _ _ H) as [Hl _]. split; [exact Hl|].
  apply zip_exact_zip_with in H. subst a'.
  revert a Hl. induction cond as [|c cond IH]; intros [|x a] Hl;
    simpl in *; try discriminate; auto.
  destruct (IH a) as [E1 E2]; [lia|].
  unfold ma_mask, ma_data in *. simpl. rewrite E1, E2. auto.
Qed.

Lemma mask_nan_data a : ma_data (mask_nan a) = ma_data a.
Proof. unfold ma_data, mask_nan. rewrite map_map. reflexivity. Qed.

Lemma mask_nan_length a : length (mask_nan a) = length a.
Proof. unfold mask_nan. apply length_map. Qed.

Lemma ma_mask_length a : length (ma_mask a) = length a.
Proof. apply length_map. Qed.

Lemma zip_with_orb_absorb (m1 m2 : list bool) :
  zip_with orb m1 (zip_with orb m2 m1) = zip_with orb m2 m1.
Proof.
  revert m2. induction m1 as [|a m1 IH]; intros [|b m2]; simpl; auto.
  rewrite IH. f_equal. destruct a, b; reflexivity.
Qed.

Lemma zip_with_orb_absorb_l (m1 m2 : list bool) :
  zip_with orb m2 (zip_with orb m2 m1) = zip_with orb m2 m1.
Proof.
  revert m2. induction m1 as [|a m1 IH]; intros [|b m2]; simpl; auto.
  rewrite IH. f_equal. destruct a, b; reflexivity.
Qed.

(** What [common_mask] returns: the union of the two masks, imposed on the
    data of both fields. *)
Lemma common_mask_inv rds rme0 rse0 recmask rme rse :
  common_mask rds rme0 rse0 = Ok (recmask, rme, rse) ->
  let tierney := str_in rds ["Tierney2019"] in
  let rme1 := if tierney then mask_nan rme0 else rme0 in
  let rse1 := if tierney then mask_nan rse0 else rse0 in
  length rme0 = length rse0 /\
  recmask = zip_with orb (ma_mask rse1) (ma_mask rme1) /\
  ma_mask rme = recmask /\ ma_mask rse = recmask /\
  ma_data rme = ma_data rme0 /\ ma_data rse = ma_data rse0.
Proof.
  intros H. cbv zeta. unfold common_mask in H.
  set (tierney := str_in rds ["Tierney2019"]) in *.
  set (rme1 := if tierney then mask_nan rme0 else rme0) in *.
  set (rse1 := if tierney then mask_nan rse0 else rse0) in *.
  destruct (mask_add (ma_mask rse1) (ma_mask rme1)) as [m|] eqn:Em;
    [|discriminate].
  destruct (masked_where m rme1) as [a1|] eqn:E1; [|discriminate].
  destruct (masked_where m rse1) as [a2|] eqn:E2; [|discriminate].
  inversion H; subst; clear H.
  unfold mask_add in Em.
  destruct (zip_exact_length _ _ _ _ Em) as [Hl _].
  apply zip_exact_zip_with in Em. subst recmask.
  apply masked_where_inv in E1. destruct E1 as (_ & M1 & D1).
  apply masked_where_inv in E2. destruct E2 as (_ & M2 & D2).
  rewrite !ma_mask_length in Hl.
  assert (Hd1 : ma_data rme1 = ma_data rme0)
    by (unfold rme1; destruct tierney; auto using mask_nan_data).
  assert (Hd2 : ma_data rse1 = ma_data rse0)
    by (unfold rse1; destruct tierney; auto using mask_nan_data).
  assert (Hl' : length rme0 = length rse0).
  { unfold rme1, rse1 in Hl. destruct tierney;
      rewrite ?mask_nan_length in Hl; auto. }
  repeat split; auto; try congruence.
  - rewrite M1. apply zip_with_orb_absorb.
  - rewrite M2. apply zip_with_orb_absorb_l.
Qed.

Lemma compressed_from a pre :
  compressed a =
  map (fun j => nth j (pre ++ ma_data a) NaN)
      (unmasked_from (length pre) (ma_mask a)) /\
  ma_count a = length (unmasked_from (length pre) (ma_mask a)).
Proof.
  revert pre. induction a as [|[m x] a IH]; intros pre; simpl; auto.
  specialize (IH (pre ++ [x])).
  rewrite length_app, Nat.add_1_r in IH. simpl in IH.
  rewrite <- app_assoc in IH. simpl in IH. destruct IH as [IH1 IH2].
  unfold compressed, ma_count in *. destruct m; simpl.
  - auto.
  - rewrite IH1, IH2. split; [|reflexivity]. f_equal.
    rewrite app_nth2 by lia. rewrite Nat.sub_diag. reflexivity.
Qed.

(** The compressed vector holds the data at the unmasked indices. *)
Lemma compressed_indices a :
  compressed a =
  map (fun j => nth j (ma_data a) NaN) (unmasked_indices (ma_mask a)).
Proof. apply (compressed_from a []). Qed.

Lemma ma_count_indices a :
  ma_count a = length (unmasked_indices (ma_mask a)).
Proof. apply (compressed_from a []). Qed.

Lemma compressed_length a : length (compressed a) = ma_count a.
Proof. unfold compressed, ma_count. apply length_map. Qed.

Lemma area_cells_mask g i a : ma_mask (area_cells g i a) = ma_mask a.
Proof.
  revert i. induction a as [|c a IH]; intros i; simpl; auto.
  unfold ma_mask in *. simpl. rewrite IH. reflexivity.
Qed.

Lemma area_cells_compressed g i a :
  compressed (area_cells g i a) =
  map (fun j => Fin (cell_area g j)) (unmasked_from i (ma_mask a)).
Proof.
  revert i. induction a as [|[m x] a IH]; intros i; simpl; auto.
  unfold compressed in *. destruct m; simpl.
  - apply IH.
  - f_equal. apply IH.
Qed.

Lemma compressed_all_masked (a : marray) :
  compressed (map (fun x : cell => (true, snd x)) a) = [].
Proof.
  induction a as [|c a IH]; auto.
Qed.

Lemma compressed_ma_map f a : compressed (ma_map f a) = map f (compressed a).
Proof.
  induction a as [|[m x] a IH]; auto. unfold compressed in *.
  destruct m; simpl.
  - exact IH.
  - f_equal. exact IH.
Qed.

(** ** Sums *)

Lemma foldl_fadd_Fin (qs : list Q) (a : Q) :
  exists s, foldl fadd (Fin a) (map Fin qs) = Fin s /\ (s == a + Qsum qs)%Q.
Proof.
  revert a. induction qs as [|q qs IH]; intros a; simpl.
  - exists a. split; [reflexivity|]. unfold Qsum; simpl. ring.
  - destruct (IH (Qred (a + q))) as (s & Hs & E). exists s.
    split; [exact Hs|]. rewrite E, Qred_eq. unfold Qsum; simpl. ring.
Qed.

Lemma np_sum_Fin (qs : list Q) :
  exists s, np_sum (map Fin qs) = Fin s /\ (s == Qsum qs)%Q.
Proof.
  destruct (foldl_fadd_Fin qs 0) as (s & Hs & E). exists s.
  split; [exact Hs|]. rewrite E. ring.
Qed.

Lemma Qsum_pos (qs : list Q) :
  qs <> [] -> Forall (fun q => 0 < q)%Q qs -> (0 < Qsum qs)%Q.
Proof.
  intros Hne H. induction H as [|q qs Hq H IH]; [congruence|].
  unfold Qsum in *; simpl. destruct qs as [|q' qs'].
  - simpl. rewrite Qplus_0_r. exact Hq.
  - assert (0 < foldr Qplus 0 (q' :: qs'))%Q by (apply IH; discriminate).
    apply Qlt_trans with (0 + foldr Qplus 0 (q' :: qs'))%Q.
    + rewrite Qplus_0_l. assumption.
    + apply Qplus_lt_le_compat; [exact Hq|apply Qle_refl].
Qed.


Lemma Qsum_eq (l k : list Q) : Forall2 Qeq l k -> (Qsum l == Qsum k)%Q.
Proof.
  induction 1 as [|a b l k H _ IH]; unfold Qsum in *; simpl;
    [reflexivity|]. rewrite H, IH. reflexivity.
Qed.

(** ** The normalised area weights *)

(** The weights of the unmasked cells are their areas divided by the total
    area [t] of the unmasked cells. *)
Lemma normalised_weights_compressed g a :
  (forall i, 0 < cell_area g i)%Q ->
  exists t,
    (t == unmasked_area g a)%Q /\
    compressed (normalised_weights g a) =
    map (fun i => Fin (Qred (cell_area g i / t)))
        (unmasked_indices (ma_mask a)).
Proof.
  intros Hpos. unfold normalised_weights, area_weights, unmasked_area.
  simpl. unfold ma_sum. rewrite area_cells_compressed.
  fold (unmasked_indices (ma_mask a)).
  remember (unmasked_indices (ma_mask a)) as idx eqn:Eidx.
  destruct (decide (idx = [])) as [->|Hne].
  - exists 0%Q. split; [reflexivity|]. simpl. apply compressed_all_masked.
  - assert (Hne' : map (fun j => Fin (cell_area g j)) idx <> [])
      by (destruct idx; [congruence|discriminate]).
    destruct (map (fun j => Fin (cell_area g j)) idx) as [|y l] eqn:El;
      [congruence|]. rewrite <- El. clear Hne' El y l.
    destruct (np_sum_Fin (map (cell_area g) idx)) as (t & Ht & Et).
    rewrite map_map in Ht. rewrite Ht. exists t. split; [exact Et|].
    assert (Hpos' : (0 < t)%Q).
    { rewrite Et. apply Qsum_pos.
      - destruct idx; [congruence|discriminate].
      - apply Forall_forall. intros q Hq. apply list_elem_of_In in Hq.
        apply in_map_iff in Hq. destruct Hq as (j & <- & _). apply Hpos. }
    simpl. destruct (Qeq_bool t 0) eqn:Ez.
    + apply Qeq_bool_iff in Ez. rewrite Ez in Hpos'.
      exfalso. apply (Qlt_irrefl 0). exact Hpos'.
    + rewrite compressed_ma_map, area_cells_compressed.
      fold (unmasked_indices (ma_mask a)). rewrite <- Eidx.
      rewrite map_map. apply map_ext. intros j. simpl. rewrite Ez.
      reflexivity.
Qed.






(* ================================================================== *)
(** * Properties of nested dictionaries *)

Lemma getpath_app p q o :
  getpath (p ++ q) o =
  match getpath p o with Ok e => getpath q e | Raise e => Raise e end.
Proof.
  revert o. induction p as [|a p IH]; intros o; simpl; [reflexivity|].
  destruct o as [| | |d]; try reflexivity.
  destruct (d !! a); [apply IH|reflexivity].
Qed.

Lemma setpath_ok s k v d :
  is_dict_at s d -> exists d', setpath s k v d = Ok d'.
Proof.
  revert d. induction s as [|a s IH]; intros d [m Hm]; simpl in *.
  - inversion Hm; subst. simpl. eauto.
  - destruct d as [| | |dd]; try discriminate. simpl.
    destruct (dd !! a) as [o|] eqn:Ea; [|discriminate].
    destruct (IH o) as [o' Ho']; [exists m; exact Hm|].
    rewrite Ho'. eauto.
Qed.

Lemma setpath_is_dict s k v d d' :
  setpath s k v d = Ok d' -> is_dict_at s d.
Proof.
  revert d d'. induction s as [|a s IH]; intros d d' H;
    destruct d as [| | |dd]; simpl in H; try discriminate.
  - exists dd. reflexivity.
  - destruct (dd !! a) as [o|] eqn:Ea; [|discriminate].
    destruct (setpath s k v o) as [o'|] eqn:Eo; [|discriminate].
    destruct (IH _ _ Eo) as [m Hm]. exists m. simpl. rewrite Ea. exact Hm.
Qed.

(** After [d[s][k] = v], reading below [s ++ [k]] reads [v]. *)
Lemma getpath_setpath_below s k v d d' r :
  setpath s k v d = Ok d' -> getpath (s ++ k :: r) d' = getpath r v.
Proof.
  revert d d'. induction s as [|a s IH]; intros d d' H;
    destruct d as [| | |dd]; simpl in H; try discriminate.
  - inversion H; subst. simpl. rewrite lookup_insert_eq. reflexivity.
  - destruct (dd !! a) as [o|] eqn:Ea; [|discriminate].
    destruct (setpath s k v o) as [o'|] eqn:Eo; [|discriminate].
    inversion H; subst. simpl. rewrite lookup_insert_eq. eauto.
Qed.

Lemma getpath_setpath_same s k v d d' :
  setpath s k v d = Ok d' -> getpath (s ++ [k]) d' = Ok v.
Proof. intros H. apply (getpath_setpath_below s k v d d' [] H). Qed.

(** After [d[s][k] = v], a path that parts from [s ++ [k]] reads what it
    read before. *)
Lemma getpath_setpath_indep s k v d d' q :
  setpath s k v d = Ok d' -> indep (s ++ [k]) q ->
  getpath q d' = getpath q d.
Proof.
  revert d d' q. induction s as [|a s IH]; intros d d' q H Hi;
    destruct d as [| | |dd]; simpl in H; try discriminate;
    destruct q as [|b q]; simpl in Hi; try contradiction.
  - destruct Hi as [Hne|[]]. inversion H; subst. simpl.
    rewrite lookup_insert_ne by exact Hne. reflexivity.
  - destruct (dd !! a) as [o|] eqn:Ea; [|discriminate].
    destruct (setpath s k v o) as [o'|] eqn:Eo; [|discriminate].
    inversion H; subst. simpl.
    destruct (decide (a = b)) as [<-|Hne].
    + rewrite lookup_insert_eq, Ea. destruct Hi as [Hne|Hi];
        [congruence|]. eauto.
    + rewrite lookup_insert_ne by exact Hne. reflexivity.
Qed.

Lemma setpath_result_dict s k v d d' :
  setpath s k v d = Ok d' -> exists m, d' = PyDict m.
Proof.
  destruct s as [|a s], d as [| | |dd]; simpl; intros H;
    try discriminate.
  - inversion H. eauto.
  - destruct (dd !! a) as [o|]; [|discriminate].
    destruct (setpath s k v o); [|discriminate]. inversion H. eauto.
Qed.

(** After [d[s][k] = v], every prefix of [s] still leads to a dictionary. *)
Lemma setpath_dict_prefix p r k v d d' :
  setpath (p ++ r) k v d = Ok d' -> is_dict_at p d'.
Proof.
  revert d d'. induction p as [|a p IH]; intros d d' H.
  - destruct (setpath_result_dict _ _ _ _ _ H) as [m ->].
    exists m. reflexivity.
  - simpl in H. destruct d as [| | |dd]; try discriminate.
    destruct (dd !! a) as [o|] eqn:Ea; [|discriminate].
    destruct (setpath (p ++ r) k v o) as [o'|] eqn:Eo; [|discriminate].
    inversion H; subst. destruct (IH _ _ Eo) as [m Hm].
    exists m. simpl. rewrite lookup_insert_eq. exact Hm.
Qed.

Lemma setpath_dict_at s k v d d' :
  setpath s k v d = Ok d' -> is_dict_at s d'.
Proof.
  intros H. apply (setpath_dict_prefix s [] k v d d').
  rewrite app_nil_r. exact H.
Qed.

Lemma is_dict_at_indep s k v d d' q :
  setpath s k v d = Ok d' -> indep (s ++ [k]) q ->
  is_dict_at q d -> is_dict_at q d'.
Proof.
  intros H Hi [m Hm]. exists m.
  rewrite (getpath_setpath_indep _ _ _ _ _ _ H Hi). exact Hm.
Qed.

Lemma indep_sym p q : indep p q -> indep q p.
Proof.
  revert q. induction p as [|a p IH]; intros [|b q] H; simpl in *;
    try contradiction.
  destruct H as [H|H]; [left; congruence|right; auto].
Qed.

Lemma indep_app_l p q r : indep p q -> indep (p ++ r) q.
Proof.
  revert q. induction p as [|a p IH]; intros [|b q] H; simpl in *;
    try contradiction.
  destruct H as [H|H]; [left; exact H|right; auto].
Qed.

Lemma indep_app_r p q r : indep p q -> indep p (q ++ r).
Proof. intros H. apply indep_sym, indep_app_l, indep_sym, H. Qed.

(** Two different paths of one length part. *)
Lemma indep_same_length p q : length p = length q -> p <> q -> indep p q.
Proof.
  revert q. induction p as [|a p IH]; intros [|b q] Hl Hne;
    simpl in *; try discriminate; try congruence.
  destruct (decide (a = b)) as [->|H]; [right|left; exact H].
  apply IH; [lia|congruence].
Qed.

(* ================================================================== *)
(** * Rules of the monad *)

Ltac st_simpl :=
  cbn [dic_res chosenmask fnamepi fnamepast locals2 gauss_pos choice_pos
       stdout written plotted shelf
       with_dic_res with_chosenmask with_fnamepi with_fnamepast
       with_locals2 with_gauss_pos with_choice_pos with_stdout
       with_written with_plotted with_shelf fst snd] in *.

Lemma wpg_ret {A} E (a : A) (Q : A -> State -> Prop) s :
  Q a s -> wpg E (ret a) Q s.
Proof. intros H. exact H. Qed.

Lemma wpg_raise {A} (E : Prop) (e : exn) (Q : A -> State -> Prop) s :
  E -> wpg E (raise e) Q s.
Proof. intros H. exact H. Qed.

Lemma wpg_lift {A} E (r : result A) (Q : A -> State -> Prop) s :
  match r with Ok a => Q a s | Raise _ => E end -> wpg E (lift r) Q s.
Proof. intros H. unfold wpg, lift. exact H. Qed.

Lemma wpg_mono {A} E (m : M A) (Q Q' : A -> State -> Prop) s :
  (forall a s', Q a s' -> Q' a s') -> wpg E m Q s -> wpg E m Q' s.
Proof.
  unfold wpg. intros H. destruct (m s) as [[a|e] s']; auto.
Qed.

Lemma wpg_bind {A B} E (m : M B) (k : B -> M A) (Q : A -> State -> Prop) s :
  wpg E m (fun b s' => wpg E (k b) Q s') s -> wpg E (bind m k) Q s.
Proof.
  unfold wpg, bind. destruct (m s) as [[b|e] s']; auto.
Qed.

Lemma wpg_run {A} E (m : M A) (Q : A -> State -> Prop) s a s' :
  m s = (Ok a, s') -> Q a s' -> wpg E m Q s.
Proof. intros H HQ. unfold wpg. rewrite H. exact HQ. Qed.

Lemma wpg_key_lookup {V} E (k : string) (l : list (string * V))
    (Q : V -> State -> Prop) s :
  match assoc k l with Some v => Q v s | None => E end ->
  wpg E (key_lookup k l) Q s.
Proof.
  intros H. unfold key_lookup. apply wpg_lift.
  destruct (assoc k l); exact H.
Qed.

Lemma wpg_read_name {A} E (f : State -> option A) (Q : A -> State -> Prop) s :
  match f s with Some a => Q a s | None => E end ->
  wpg E (read_name f) Q s.
Proof.
  intros H. unfold wpg, read_name. destruct (f s); exact H.
Qed.

Lemma wpg_partial {A} (m : M A) (Q : A -> State -> Prop) s a s' :
  wpg True m Q s -> m s = (Ok a, s') -> Q a s'.
Proof. unfold wpg. intros H E. rewrite E in H. exact H. Qed.

Lemma wpg_total {A} (m : M A) (Q : A -> State -> Prop) s :
  wpg False m Q s -> exists a s', m s = (Ok a, s') /\ Q a s'.
Proof.
  unfold wpg. destruct (m s) as [[a|e] s']; [eauto|contradiction].
Qed.

Lemma wpg_print E (l : out_line) (Q : unit -> State -> Prop) s :
  Q tt (with_stdout (stdout s ++ [l]) s) -> wpg E (print l) Q s.
Proof. intros H. exact H. Qed.

Lemma wpg_setitem E p k v (Q : unit -> State -> Prop) s :
  is_dict_at p (dic_res s) ->
  (forall d', setpath p k v (dic_res s) = Ok d' -> Q tt (with_dic_res d' s)) ->
  wpg E (py_setitem p k v) Q s.
Proof.
  intros Hd H. unfold wpg, py_setitem.
  destruct (setpath_ok p k v _ Hd) as [d' Hd']. rewrite Hd'. auto.
Qed.

Lemma wpg_getitem E p o (Q : pyobj -> State -> Prop) s :
  getpath p (dic_res s) = Ok o -> Q o s -> wpg E (py_getitem p) Q s.
Proof. intros H HQ. unfold wpg, py_getitem. rewrite H. exact HQ. Qed.

Lemma wpg_for_each {A} E (I : list A -> State -> Prop) (l : list A)
    (body : A -> M unit) s :
  I [] s ->
  (forall done x rest s0, l = done ++ x :: rest -> I done s0 ->
     wpg E (body x) (fun _ s1 => I (done ++ [x]) s1) s0) ->
  wpg E (for_each l body) (fun _ s' => I l s') s.
Proof.
  intros H0 Hstep.
  assert (G : forall rest done s0, l = done ++ rest -> I done s0 ->
                wpg E (for_each rest body) (fun _ s' => I l s') s0).
  { induction rest as [|x rest IH]; intros done s0 Hl HI; simpl.
    - rewrite app_nil_r in Hl. subst. exact HI.
    - apply wpg_bind. eapply wpg_mono; [|apply (Hstep done x rest); auto].
      intros u s1 H1. simpl in H1. apply (IH (done ++ [x])); auto.
      rewrite <- app_assoc. exact Hl. }
  apply (G l []); auto.
Qed.

(** ** Loops that collect values *)

Lemma collect_from_run {A} (m : M A) (f : State -> A) (step : State -> State) :
  (forall s, m s = (Ok (f s), step s)) ->
  forall n acc s,
    collect_from n m acc s =
    (Ok (reverse acc ++ map (fun k => f (Nat.iter k step s)) (seq 0 n)),
     Nat.iter n step s).
Proof.
  intros Hm. induction n as [|n IH]; intros acc s.
  - simpl. unfold ret. rewrite app_nil_r. reflexivity.
  - cbn [collect_from]. unfold bind at 1. rewrite Hm, IH.
    rewrite reverse_cons, <- app_assoc.
    f_equal; [|symmetry; apply Nat.iter_succ_r].
    f_equal. f_equal. cbn [seq map app]. f_equal.
    rewrite <- seq_shift, map_map. apply map_ext. intros k.
    rewrite Nat.iter_succ_r. reflexivity.
Qed.

Lemma collect_run {A} (m : M A) (f : State -> A) (step : State -> State) :
  (forall s, m s = (Ok (f s), step s)) ->
  forall n s,
    collect n m s =
    (Ok (map (fun k => f (Nat.iter k step s)) (seq 0 n)), Nat.iter n step s).
Proof.
  intros Hm n s. unfold collect. rewrite (collect_from_run m f step Hm).
  reflexivity.
Qed.

Lemma collect_first_raise {A} (m : M A) n s e s' :
  m s = (Raise e, s') -> collect (S n) m s = (Raise e, s').
Proof.
  intros H. unfold collect. cbn [collect_from]. unfold bind. rewrite H.
  reflexivity.
Qed.

Lemma niter_succ : niter = S (Z.to_nat 9999).
Proof.
  unfold niter. change 10000%Z with (Z.succ 9999).
  apply Z2Nat.inj_succ. lia.
Qed.

Lemma iter_gauss_pos n s :
  Nat.iter n (fun s => with_gauss_pos (N.succ (gauss_pos s)) s) s =
  with_gauss_pos (gauss_pos s + N.of_nat n) s.
Proof.
  induction n as [|n IH].
  - destruct s. simpl. unfold with_gauss_pos. simpl. f_equal. lia.
  - rewrite Nat.iter_succ, IH. unfold with_gauss_pos. simpl. f_equal. lia.
Qed.

Lemma iter_choice_pos n s :
  Nat.iter n (fun s => with_choice_pos (N.succ (N.succ (choice_pos s))) s) s =
  with_choice_pos (choice_pos s + N.of_nat (2 * n)) s.
Proof.
  induction n as [|n IH].
  - destruct s. simpl. unfold with_choice_pos. simpl. f_equal. lia.
  - rewrite Nat.iter_succ, IH. unfold with_choice_pos. simpl. f_equal. lia.
Qed.

(* ================================================================== *)
(** * The two resampling procedures *)

Section Resampling.

Variable w : World.

Lemma realisation_run rme rse recwei s :
  length rme = length rse -> length rme = length recwei ->
  realisation w rme rse recwei s =
  (Ok (shared_draw (gauss_z w (gauss_pos s)) rme rse recwei),
   with_gauss_pos (N.succ (gauss_pos s)) s).
Proof.
  intros H1 H2. unfold realisation, random_gauss, next_gauss, bind, lift.
  rewrite (zip_exact_some _ rme rse H1). cbn [of_option].
  rewrite zip_exact_some; [reflexivity|].
  rewrite length_zip_with_l_eq by exact H1. exact H2.
Qed.

Lemma realisation_raise rme rse recwei s :
  length rme = length rse -> length rme <> length recwei ->
  realisation w rme rse recwei s =
  (Raise ValueError, with_gauss_pos (N.succ (gauss_pos s)) s).
Proof.
  intros H1 H2. unfold realisation, random_gauss, next_gauss, bind, lift.
  rewrite (zip_exact_some _ rme rse H1). cbn [of_option].
  destruct (zip_exact fmul _ recwei) as [r|] eqn:E; [|reflexivity].
  apply zip_exact_length in E. destruct E as [E _].
  rewrite length_zip_with_l_eq in E by exact H1. contradiction.
Qed.

(** The Monte Carlo average of the reconstructions consumes one deviate
    per realisation. *)
Lemma monte_carlo_run rme rse recwei s :
  length rme = length rse -> length rme = length recwei ->
  let rrave := realisations w (gauss_pos s) rme rse recwei niter in
  monte_carlo w rme rse recwei s =
  (Ok (np_average rrave, np_std (sqrtQ w) rrave),
   with_gauss_pos (gauss_pos s + N.of_nat niter) s).
Proof.
  intros H1 H2 rrave. unfold monte_carlo, bind.
  rewrite (collect_run _
             (fun s => shared_draw (gauss_z w (gauss_pos s)) rme rse recwei)
             (fun s => with_gauss_pos (N.succ (gauss_pos s)) s)
             (fun s => realisation_run rme rse recwei s H1 H2)).
  rewrite iter_gauss_pos. unfold ret. f_equal.
  assert (Hr : map (fun k => shared_draw
                     (gauss_z w (gauss_pos
                        (Nat.iter k (fun s => with_gauss_pos
                                       (N.succ (gauss_pos s)) s) s)))
                     rme rse recwei) (seq 0 niter) = rrave).
  { unfold rrave, realisations. apply map_ext. intros k.
    rewrite iter_gauss_pos. reflexivity. }
  rewrite Hr. reflexivity.
Qed.

Lemma monte_carlo_raise rme rse recwei s :
  length rme = length rse -> length rme <> length recwei ->
  fst (monte_carlo w rme rse recwei s) = Raise ValueError.
Proof.
  intros H1 H2. unfold monte_carlo, bind. rewrite niter_succ.
  rewrite (collect_first_raise _ _ _ _ _
             (realisation_raise rme rse recwei s H1 H2)).
  reflexivity.
Qed.

Lemma np_random_choice_run a s :
  (nbyrs <= length a)%nat ->
  np_random_choice w a nbyrs s =
  (Ok (sample w (choice_pos s) a), with_choice_pos (N.succ (choice_pos s)) s).
Proof.
  intros H. unfold np_random_choice.
  destruct (Nat.ltb_spec (length a) nbyrs); [lia|reflexivity].
Qed.

Lemma np_random_choice_raise a s :
  (length a < nbyrs)%nat ->
  np_random_choice w a nbyrs s = (Raise ValueError, s).
Proof.
  intros H. unfold np_random_choice.
  destruct (Nat.ltb_spec (length a) nbyrs); [reflexivity|lia].
Qed.

(** The years of a sample are distinct years of the series when
    [N.random.choice] draws a permutation, as numpy does. *)
Lemma sample_years_distinct k a :
  Permutation (np_perm w k (length a)) (seq 0 (length a)) ->
  NoDup (sample_years w k a) /\
  Forall (fun i => (i < length a)%nat) (sample_years w k a).
Proof.
  intros Hp. unfold sample_years. split.
  - eapply sublist_NoDup; [|apply sublist_take].
    rewrite Hp. apply NoDup_seq.
  - apply Forall_forall. intros i Hi.
    assert (Hin : i ∈ np_perm w k (length a)).
    { eapply elem_of_sublist; [exact Hi|]. apply sublist_take. }
    rewrite Hp in Hin. apply list_elem_of_In, in_seq in Hin. lia.
Qed.

Lemma sample_length k a :
  (nbyrs <= length (np_perm w k (length a)))%nat ->
  length (sample w k a) = nbyrs.
Proof.
  intros H. unfold sample, sample_years.
  rewrite length_map, length_take_le; auto.
Qed.

Lemma distributions_body_run pi past s :
  (nbyrs <= length pi)%nat -> (nbyrs <= length past)%nat ->
  (let* a := np_random_choice w pi nbyrs in
   let* b := np_random_choice w past nbyrs in
   ret (np_average a, np_average b)) s =
  (Ok (np_average (sample w (choice_pos s) pi),
       np_average (sample w (N.succ (choice_pos s)) past)),
   with_choice_pos (N.succ (N.succ (choice_pos s))) s).
Proof.
  intros H1 H2. unfold bind. rewrite np_random_choice_run by exact H1.
  rewrite np_random_choice_run by exact H2. reflexivity.
Qed.

Lemma distributions_run pi past s :
  (nbyrs <= length pi)%nat -> (nbyrs <= length past)%nat ->
  exists dist,
    distributions w pi past s =
    (Ok dist, with_choice_pos (choice_pos s + N.of_nat (2 * niter)) s) /\
    map (fun d : fnum * fnum => fsub d.2 d.1) dist =
    deltam_of w (choice_pos s) pi past niter.
Proof.
  intros H1 H2. unfold distributions.
  rewrite (collect_run _
             (fun s => (np_average (sample w (choice_pos s) pi),
                        np_average (sample w (N.succ (choice_pos s)) past)))
             (fun s => with_choice_pos (N.succ (N.succ (choice_pos s))) s)
             (fun s => distributions_body_run pi past s H1 H2)).
  rewrite iter_choice_pos. eexists. split; [reflexivity|].
  rewrite map_map. unfold deltam_of. apply map_ext. intros k.
  rewrite iter_choice_pos. cbn [snd fst choice_pos with_choice_pos].
  rewrite N.add_1_r. reflexivity.
Qed.

Lemma distributions_raise pi past s :
  (length pi < nbyrs)%nat \/ (length past < nbyrs)%nat ->
  fst (distributions w pi past s) = Raise ValueError.
Proof.
  intros H. unfold distributions. rewrite niter_succ.
  destruct (Nat.lt_ge_cases (length pi) nbyrs) as [Hpi|Hpi].
  - erewrite collect_first_raise; [reflexivity|].
    unfold bind. rewrite np_random_choice_raise by exact Hpi. reflexivity.
  - destruct H as [H|H]; [lia|].
    erewrite collect_first_raise; [reflexivity|].
    unfold bind. rewrite np_random_choice_run by exact Hpi.
    rewrite np_random_choice_raise by exact H. reflexivity.
Qed.

End Resampling.

(* ================================================================== *)
(** * The tables *)

Lemma assoc_In {A} k (l : list (string * A)) v :
  assoc k l = Some v -> In (k, v) l.
Proof.
  induction l as [|[k' a] l IH]; simpl; [discriminate|].
  destruct (String.eqb_spec k k') as [->|Hne].
  - intros H; inversion H; auto.
  - auto.
Qed.

(** The periods, data sets and variables that [dic_list_vars] selects. *)
Lemma selected_cases period rds var :
  selected period rds var ->
  In (period, rds, var)
     [("LGM", "Bartlein2011", "MTCO"); ("LGM", "Bartlein2011", "MAT");
      ("LGM", "Bartlein2011", "MTWA"); ("LGM", "Bartlein2011", "MAP");
      ("LGM", "Cleator2019", "MTCO"); ("LGM", "Cleator2019", "MAT");
      ("LGM", "Cleator2019", "MTWA"); ("LGM", "Cleator2019", "MAP");
      ("LGM", "Tierney2019", "MATocean");
      ("MH", "Bartlein2011", "MTCO"); ("MH", "Bartlein2011", "MAT");
      ("MH", "Bartlein2011", "MTWA"); ("MH", "Bartlein2011", "MAP")].
Proof.
  intros (vars_of & list_vars & H1 & H2 & H3).
  apply assoc_In in H1. apply assoc_In in H2. simpl in H1.
  destruct H1 as [H1|[H1|[]]]; inversion H1; subst; clear H1; simpl in H2;
    repeat (destruct H2 as [H2|H2]; [inversion H2; subst; clear H2|]);
    try contradiction; simpl in H3;
    repeat (destruct H3 as [<-|H3]; [simpl; tauto|]); contradiction.
Qed.

Ltac selected_case H :=
  apply selected_cases in H; simpl in H;
  repeat (destruct H as [H|H]; [inversion H; subst; clear H|]);
  [..|contradiction].

Lemma selected_in_range period rds var :
  selected period rds var ->
  In period list_periods /\ In rds list_reconstructions /\ In var all_vars.
Proof. intros H. selected_case H; vm_compute; tauto. Qed.

Lemma selected_own_mask period rds var :
  selected period rds var -> assoc rds dic_rds_masks = Some "own".
Proof. intros H. selected_case H; reflexivity. Qed.

Lemma selected_model_names period rds var :
  selected period rds var ->
  exists diag modvarname,
    assoc var dic_model_diagnames = Some diag /\
    assoc var dic_model_varnames = Some modvarname.
Proof. intros H. selected_case H; eexists _, _; split; reflexivity. Qed.

Lemma read_reconstruction_names w period rds var b :
  read_reconstruction w period rds var b =
  match rec_names period rds var with
  | Some names =>
      match cdms_read2 w names.1.1 names.1.2 b,
            cdms_read2 w names.1.1 names.2 b with
      | Some rmeorig, Some rseorig =>
          match common_mask rds (cells2 rmeorig) (cells2 rseorig) with
          | Ok masked => Ok (grid2 rmeorig, masked)
          | Raise e => Raise e
          end
      | Some _, None => Raise CDMSError
      | None, _ => Raise CDMSError
      end
  | None => Raise KeyError
  end.
Proof.
  unfold read_reconstruction, rec_names, rbind, of_option.
  repeat (match goal with
          | |- context [match assoc ?k ?l with _ => _ end] =>
              destruct (assoc k l)
          end; try reflexivity).
  cbn [fst snd].
  repeat (match goal with
          | |- context [match cdms_read2 ?w ?p ?v ?b with _ => _ end] =>
              destruct (cdms_read2 w p v b)
          end; try reflexivity).
Qed.

Lemma selected_rec_names period rds var :
  selected period rds var -> is_Some (rec_names period rds var).
Proof. intros H. selected_case H; vm_compute; eauto. Qed.

Lemma common_mask_ok rds rme0 rse0 :
  length rme0 = length rse0 ->
  exists recmask rme rse, common_mask rds rme0 rse0 = Ok (recmask, rme, rse).
Proof.
  intros Hl. unfold common_mask.
  set (tierney := str_in rds ["Tierney2019"]).
  set (rme1 := if tierney then mask_nan rme0 else rme0).
  set (rse1 := if tierney then mask_nan rse0 else rse0).
  assert (H1 : length rme1 = length rme0)
    by (unfold rme1; destruct tierney; auto using mask_nan_length).
  assert (H2 : length rse1 = length rse0)
    by (unfold rse1; destruct tierney; auto using mask_nan_length).
  unfold mask_add. rewrite zip_exact_some
    by (rewrite !ma_mask_length; congruence).
  unfold masked_where.
  rewrite !zip_exact_some
    by (rewrite length_zip_with_l_eq; rewrite !ma_mask_length; congruence).
  eauto.
Qed.

(** What reading a reconstruction gives: two fields of one file, masked
    with their common mask. *)
Lemma read_reconstruction_inv w period rds var b g recmask rme rse :
  read_reconstruction w period rds var b = Ok (g, (recmask, rme, rse)) ->
  exists path v1 v2 f1 f2,
    cdms_read2 w path v1 b = Some f1 /\
    cdms_read2 w path v2 b = Some f2 /\
    g = grid2 f1 /\
    common_mask rds (cells2 f1) (cells2 f2) = Ok (recmask, rme, rse).
Proof.
  rewrite read_reconstruction_names.
  destruct (rec_names period rds var) as [[[path v1] v2]|]; [|discriminate].
  cbn [fst snd].
  destruct (cdms_read2 w path v1 b) as [f1|] eqn:E1; [|discriminate].
  destruct (cdms_read2 w path v2 b) as [f2|] eqn:E2; [|discriminate].
  destruct (common_mask rds (cells2 f1) (cells2 f2)) as [m|] eqn:Em;
    [|discriminate].
  intros H. inversion H; subst. exists path, v1, v2, f1, f2. auto.
Qed.

Lemma read_reconstruction_lengths w period rds var b g recmask rme rse :
  read_reconstruction w period rds var b = Ok (g, (recmask, rme, rse)) ->
  length (compressed rme) = length (compressed rse).
Proof.
  intros H. apply read_reconstruction_inv in H.
  destruct H as (path & v1 & v2 & f1 & f2 & _ & _ & _ & H).
  apply common_mask_inv in H. cbv zeta in H.
  destruct H as (_ & _ & M1 & M2 & _).
  rewrite !compressed_length, !ma_count_indices. congruence.
Qed.

Lemma read_reconstruction_good w n period rds var b g recmask rme rse :
  good_world w n ->
  read_reconstruction w period rds var b = Ok (g, (recmask, rme, rse)) ->
  length recmask = n /\
  length (compressed rme) = length (compressed (normalised_weights g rme)).
Proof.
  intros G H. apply read_reconstruction_inv in H.
  destruct H as (path & v1 & v2 & f1 & f2 & E1 & E2 & -> & H).
  destruct (gw_read2 _ _ G path v1 b) as (f & Ef & Hn & Hpos).
  rewrite E1 in Ef. inversion Ef; subst f. clear Ef.
  apply common_mask_inv in H. cbv zeta in H.
  destruct H as (Hl & Hm & M1 & M2 & _). split.
  - rewrite <- M1, ma_mask_length.
    assert (length (ma_mask rme) = length (cells2 f1)); [|
      rewrite ma_mask_length in *; congruence].
    rewrite M1, Hm. rewrite length_zip_with_l_eq.
    + rewrite ma_mask_length. destruct (str_in rds ["Tierney2019"]);
        rewrite ?mask_nan_length; auto.
    + rewrite !ma_mask_length. destruct (str_in rds ["Tierney2019"]);
        rewrite ?mask_nan_length; auto.
  - destruct (normalised_weights_compressed (grid2 f1) rme Hpos)
      as (t & _ & Hc).
    rewrite Hc, length_map, compressed_length, ma_count_indices.
    reflexivity.
Qed.

Lemma read_reconstruction_ok w n period rds var b :
  good_world w n -> selected period rds var ->
  is_ok (read_reconstruction w period rds var b) = true.
Proof.
  intros G Hsel. rewrite read_reconstruction_names.
  destruct (selected_rec_names _ _ _ Hsel) as [[[path v1] v2] ->].
  cbn [fst snd].
  destruct (gw_read2 _ _ G path v1 b) as (f1 & -> & Hn1 & _).
  destruct (gw_read2 _ _ G path v2 b) as (f2 & -> & Hn2 & _).
  destruct (common_mask_ok rds (cells2 f1) (cells2 f2)) as (m & a & c & ->);
    [congruence|reflexivity].
Qed.


(* ================================================================== *)
(** * The averaging stage, block by block *)

Lemma wpg_state E (f : State -> State) (Q : unit -> State -> Prop) s :
  Q tt (f s) -> wpg E (fun s => (Ok tt, f s)) Q s.
Proof. intros H. exact H. Qed.

Ltac solve_indep :=
  cbn [app indep];
  repeat first [left; solve [discriminate | congruence | assumption]
               | right].

Lemma at_path_frame p F d d' :
  getpath p d' = getpath p d -> at_path p F d -> at_path p F d'.
Proof. intros E (e & He & HF). exists e. rewrite E. auto. Qed.

Lemma rec_stored_frame w period region rds var b g m d d' :
  (forall q, In q [["mask"]; ["nbpts"]; ["reconstructions"; "mean"];
                   ["reconstructions"; "std"]] ->
     getpath ([period; var; region; rds] ++ q) d'
     = getpath ([period; var; region; rds] ++ q) d) ->
  rec_stored w period region rds var b g m d ->
  rec_stored w period region rds var b g m d'.
Proof.
  intros Hf (rme & rse & pos & Hr & H). cbv zeta in H.
  destruct H as (L1 & L2 & H1 & H2 & H3 & H4).
  exists rme, rse, pos. split; [exact Hr|]. cbv zeta.
  rewrite (Hf ["mask"]), (Hf ["nbpts"]), (Hf ["reconstructions"; "mean"]),
    (Hf ["reconstructions"; "std"]) by (simpl; tauto).
  repeat split; assumption.
Qed.

Lemma wpg_monte_carlo E w rme rse recwei
    (Q : fnum * fnum -> State -> Prop) s :
  length rme = length rse ->
  E \/ length rme = length recwei ->
  (length rme = length recwei ->
   let rrave := realisations w (gauss_pos s) rme rse recwei niter in
   Q (np_average rrave, np_std (sqrtQ w) rrave)
     (with_gauss_pos (gauss_pos s + N.of_nat niter) s)) ->
  wpg E (monte_carlo w rme rse recwei) Q s.
Proof.
  intros L1 HL HQ.
  destruct (decide (length rme = length recwei)) as [L2|L2].
  - eapply wpg_run; [apply monte_carlo_run; assumption|]. apply HQ, L2.
  - pose proof (monte_carlo_raise w _ _ _ s L1 L2) as Hr. unfold wpg.
    destruct (monte_carlo w rme rse recwei s) as [[x|e] s'];
      [discriminate Hr|].
    destruct HL as [He|HL]; [exact He|contradiction].
Qed.

Section Blocks.

Variables (E : Prop) (w : World) (cells : nat).
Hypothesis HE : E \/ good_world w cells.

Lemma reconstructions_spec period region rds var b s :
  selected period rds var ->
  is_dict_at [period; var; region; rds] (dic_res s) ->
  wpg E (reconstructions w period region rds var b)
    (fun g s' =>
       exists recmask,
         chosenmask s' = Some recmask /\
         (E \/ length recmask = cells) /\
         rec_stored w period region rds var b g recmask (dic_res s') /\
         is_dict_at [period; var; region; rds] (dic_res s') /\
         (forall q, indep [period; var; region; rds] q ->
                    getpath q (dic_res s') = getpath q (dic_res s)) /\
         shelf s' = shelf s) s.
Proof.
  intros Hsel Hd. unfold reconstructions.
  apply wpg_bind, wpg_print.
  apply wpg_bind, wpg_lift.
  destruct (read_reconstruction w period rds var b)
    as [[g [[recmask rmeorig] rseorig]]|e] eqn:Hread.
  2:{ destruct HE as [He|G]; [exact He|].
      pose proof (read_reconstruction_ok w cells _ _ _ b G Hsel) as Hok.
      rewrite Hread in Hok. discriminate. }
  cbn [fst snd].
  apply wpg_bind, wpg_key_lookup.
  rewrite (selected_own_mask _ _ _ Hsel).
  change (String.eqb "own" "own") with true. cbv iota.
  apply wpg_bind. apply wpg_bind.
  refine (wpg_state E (with_chosenmask recmask) _ _ _). st_simpl.
  apply wpg_setitem; [exact Hd|]. st_simpl. intros d1 Hd1.
  apply wpg_bind, wpg_setitem; st_simpl.
  { eapply setpath_dict_at; exact Hd1. }
  intros d2 Hd2.
  pose proof (read_reconstruction_lengths _ _ _ _ _ _ _ _ _ Hread) as L1.
  apply wpg_bind, wpg_monte_carlo; [exact L1| |].
  { destruct HE as [He|G]; [left; exact He|right].
    apply (read_reconstruction_good w cells _ _ _ _ _ _ _ _ G Hread). }
  intros L2 rrave. st_simpl.
  apply wpg_bind, wpg_print.
  apply wpg_bind, wpg_setitem; st_simpl.
  { eapply setpath_dict_at; exact Hd2. }
  intros d3 Hd3.
  apply wpg_bind, wpg_setitem; st_simpl.
  { exists ∅. apply (getpath_setpath_same _ _ _ _ _ Hd3). }
  intros d4 Hd4.
  apply wpg_bind, wpg_setitem; st_simpl.
  { eapply setpath_dict_at; exact Hd4. }
  intros d5 Hd5.
  apply wpg_ret. st_simpl.
  exists recmask. split; [reflexivity|]. split.
  { destruct HE as [He|G]; [left; exact He|right].
    apply (read_reconstruction_good w cells _ _ _ _ _ _ _ _ G Hread). }
  split; [|split; [|split]].
  - exists rmeorig, rseorig, (gauss_pos s).
    split; [exact Hread|]. cbv zeta.
    split; [exact L1|]. split; [exact L2|].
    split; [|split; [|split]].
    + rewrite (getpath_setpath_indep _ _ _ _ _ _ Hd5) by solve_indep.
      rewrite (getpath_setpath_indep _ _ _ _ _ _ Hd4) by solve_indep.
      rewrite (getpath_setpath_indep _ _ _ _ _ _ Hd3) by solve_indep.
      rewrite (getpath_setpath_indep _ _ _ _ _ _ Hd2) by solve_indep.
      apply (getpath_setpath_same _ _ _ _ _ Hd1).
    + rewrite (getpath_setpath_indep _ _ _ _ _ _ Hd5) by solve_indep.
      rewrite (getpath_setpath_indep _ _ _ _ _ _ Hd4) by solve_indep.
      rewrite (getpath_setpath_indep _ _ _ _ _ _ Hd3) by solve_indep.
      apply (getpath_setpath_same _ _ _ _ _ Hd2).
    + rewrite (getpath_setpath_indep _ _ _ _ _ _ Hd5) by solve_indep.
      apply (getpath_setpath_same _ _ _ _ _ Hd4).
    + apply (getpath_setpath_same _ _ _ _ _ Hd5).
  - apply (setpath_dict_prefix [period; var; region; rds]
             ["reconstructions"] _ _ _ _ Hd5).
  - intros q Hq.
    rewrite (getpath_setpath_indep _ _ _ _ _ _ Hd5)
      by (apply indep_app_l, (indep_app_l _ _ ["reconstructions"]), Hq).
    rewrite (getpath_setpath_indep _ _ _ _ _ _ Hd4)
      by (apply indep_app_l, (indep_app_l _ _ ["reconstructions"]), Hq).
    rewrite (getpath_setpath_indep _ _ _ _ _ _ Hd3)
      by (apply indep_app_l, Hq).
    rewrite (getpath_setpath_indep _ _ _ _ _ _ Hd2)
      by (apply indep_app_l, Hq).
    apply (getpath_setpath_indep _ _ _ _ _ _ Hd1), indep_app_l, Hq.
  - reflexivity.
Qed.

End Blocks.


Lemma lgm_names_ok table model var :
  In table ["PI"; "LGM"] -> In model list_models_lgm -> In var all_vars ->
  lgm_name_ok table model var = true.
Proof.
  intros Ht Hm Hv.
  assert (H : forallb (fun t => forallb (fun m => forallb (lgm_name_ok t m)
                         all_vars) list_models_lgm) ["PI"; "LGM"] = true)
    by (vm_compute; reflexivity).
  rewrite forallb_forall in H. specialize (H table Ht).
  rewrite forallb_forall in H. specialize (H model Hm).
  rewrite forallb_forall in H. exact (H var Hv).
Qed.

Lemma period_setup_cases period lm dm :
  period_setup period = Some (lm, dm) ->
  (period = "LGM" /\ lm = list_models_lgm /\ dm = dir_lgm) \/
  (period = "MH" /\ lm = list_models_mh /\ dm = dir_mh).
Proof.
  unfold period_setup.
  destruct (String.eqb_spec period "LGM") as [->|_].
  - intros H; inversion H; auto.
  - destruct (String.eqb_spec period "MH") as [->|_]; [|discriminate].
    intros H; inversion H; auto.
Qed.

Lemma models_not_reserved period lm dm model :
  period_setup period = Some (lm, dm) -> In model lm ->
  ~ In model reserved_keys.
Proof.
  intros Hp Hm Hr. apply period_setup_cases in Hp.
  assert (Hall : forallb (fun m => negb (str_in m reserved_keys))
                   (list_models_lgm ++ list_models_mh) = true)
    by (vm_compute; reflexivity).
  rewrite forallb_forall in Hall. specialize (Hall model).
  apply str_in_In in Hr. rewrite Hr in Hall.
  assert (In model (list_models_lgm ++ list_models_mh)).
  { apply in_or_app. destruct Hp as [(_ & -> & _)|(_ & -> & _)]; auto. }
  specialize (Hall H). discriminate.
Qed.

Section Files.

Variables (E : Prop) (w : World) (cells : nat).
Hypothesis HE : E \/ good_world w cells.

Lemma wpg_read3 path v b (Q : tvar3 -> State -> Prop) s :
  (forall f, cdms_read3 w path v b = Some f ->
     E \/ (nbyrs <= length (cells3 f))%nat -> Q f s) ->
  wpg E (read3 w path v b) Q s.
Proof.
  intros H. unfold read3. apply wpg_lift.
  destruct (cdms_read3 w path v b) as [f|] eqn:Ef; simpl.
  - apply H; [reflexivity|]. destruct HE as [He|G]; [left; exact He|right].
    destruct (gw_read3 _ _ G path v b) as (f' & Hf & Hn). congruence.
  - destruct HE as [He|G]; [exact He|].
    destruct (gw_read3 _ _ G path v b) as (f & Hf & _). congruence.
Qed.

Lemma read_pi_spec period var lm dm modvarname diag model b s :
  period_setup period = Some (lm, dm) -> In model lm -> In var all_vars ->
  assoc var dic_model_diagnames = Some diag ->
  assoc var dic_model_varnames = Some modvarname ->
  wpg E (read_pi w period var dm modvarname diag model b)
    (fun v s' =>
       files_frame E s v s' /\
       exists name,
         (forall f, model_file w period dm modvarname diag model
                      "piControl" "PI" = Some f -> name = f) /\
         cdms_read3 w name modvarname b = Some v) s.
Proof.
  intros Hp Hm Hv Hdiag Hmv. unfold read_pi, resolve_file, model_file.
  apply period_setup_cases in Hp.
  destruct Hp as [(-> & -> & ->)|(-> & -> & ->)].
  - change (String.eqb "LGM" "MH") with false.
    change (String.eqb "LGM" "LGM") with true. cbv iota.
    pose proof (lgm_names_ok "PI" model var
                  ltac:(simpl; tauto) Hm Hv) as Hn.
    unfold lgm_name_ok in Hn. rewrite Hdiag, Hmv in Hn.
    change (assoc "PI" dic_models) with (Some dic_models_PI) in *.
    cbv beta iota in Hn.
    destruct (assoc model dic_models_PI) as [t|] eqn:Et; [|discriminate].
    destruct (format_s t [modvarname; diag]) as [name|] eqn:En;
      [|discriminate].
    apply wpg_bind. apply wpg_bind, wpg_key_lookup.
    apply wpg_bind, wpg_key_lookup. rewrite Et.
    apply wpg_bind, wpg_lift. rewrite ?En. cbn [of_option].
    refine (wpg_state E (with_fnamepi _) _ _ _).
    apply wpg_bind, wpg_read_name. st_simpl.
    apply wpg_read3. intros f Hr Hf. split; [repeat split; exact Hf|].
    exists (path_join dir_lgm [name]). split; [|exact Hr].
    intros f0 H0. cbv beta iota in H0. rewrite ?Et in H0.
    cbv beta iota in H0. rewrite ?En in H0. inversion H0. reflexivity.
  - change (String.eqb "MH" "MH") with true. cbv iota.
    apply wpg_bind.
    destruct (glob_glob w _) as [|f [|g l]] eqn:Eg; cbn [length Nat.eqb].
    + apply wpg_print. apply wpg_bind, wpg_read_name. st_simpl.
      destruct (fnamepi s) as [name|].
      * apply wpg_read3. intros v Hr Hf. split; [repeat split; exact Hf|].
        exists name. split; [intros f0 H0; discriminate H0|exact Hr].
      * destruct HE as [He|G]; [exact He|].
        match type of Eg with
        | glob_glob w ?pat = _ => destruct (gw_glob _ _ G pat) as [f' Hf']
        end.
        congruence.
    + apply wpg_bind, wpg_lift. cbn [head of_option].
      apply wpg_bind. refine (wpg_state E (with_fnamepi _) _ _ _).
      apply wpg_print. apply wpg_bind, wpg_read_name. st_simpl.
      apply wpg_read3. intros v Hr Hf. split; [repeat split; exact Hf|].
      exists f. split; [|exact Hr]. intros f0 H0. inversion H0. reflexivity.
    + apply wpg_print. apply wpg_bind, wpg_read_name. st_simpl.
      destruct (fnamepi s) as [name|].
      * apply wpg_read3. intros v Hr Hf. split; [repeat split; exact Hf|].
        exists name. split; [intros f0 H0; discriminate H0|exact Hr].
      * destruct HE as [He|G]; [exact He|].
        match type of Eg with
        | glob_glob w ?pat = _ => destruct (gw_glob _ _ G pat) as [f' Hf']
        end.
        congruence.
Qed.

Lemma read_past_spec period var lm dm modvarname diag model b s :
  period_setup period = Some (lm, dm) -> In model lm -> In var all_vars ->
  assoc var dic_model_diagnames = Some diag ->
  assoc var dic_model_varnames = Some modvarname ->
  wpg E (read_past w period var dm modvarname diag model b)
    (fun v s' =>
       files_frame E s v s' /\
       exists name,
         (forall f, model_file w period dm modvarname diag model
                      "midHolocene" period = Some f -> name = f) /\
         cdms_read3 w name modvarname b = Some v) s.
Proof.
  intros Hp Hm Hv Hdiag Hmv. unfold read_past, resolve_file, model_file.
  apply period_setup_cases in Hp.
  destruct Hp as [(-> & -> & ->)|(-> & -> & ->)].
  - change (String.eqb "LGM" "MH") with false.
    change (String.eqb "LGM" "LGM") with true. cbv iota.
    pose proof (lgm_names_ok "LGM" model var
                  ltac:(simpl; tauto) Hm Hv) as Hn.
    unfold lgm_name_ok in Hn. rewrite Hdiag, Hmv in Hn.
    change (assoc "LGM" dic_models) with (Some dic_models_LGM) in *.
    cbv beta iota in Hn.
    destruct (assoc model dic_models_LGM) as [t|] eqn:Et; [|discriminate].
    destruct (format_s t [modvarname; diag]) as [name|] eqn:En;
      [|discriminate].
    apply wpg_bind. apply wpg_bind, wpg_key_lookup.
    apply wpg_bind, wpg_key_lookup. rewrite Et.
    apply wpg_bind, wpg_lift. rewrite ?En. cbn [of_option].
    refine (wpg_state E (with_fnamepast _) _ _ _).
    apply wpg_bind, wpg_read_name. st_simpl.
    apply wpg_read3. intros f Hr Hf. split; [repeat split; exact Hf|].
    exists (path_join dir_lgm [name]). split; [|exact Hr].
    intros f0 H0. cbv beta iota in H0. rewrite ?Et in H0.
    cbv beta iota in H0. rewrite ?En in H0. inversion H0. reflexivity.
  - change (String.eqb "MH" "MH") with true. cbv iota.
    apply wpg_bind.
    destruct (glob_glob w _) as [|f [|g l]] eqn:Eg; cbn [length Nat.eqb].
    + apply wpg_print. apply wpg_bind, wpg_read_name. st_simpl.
      destruct (fnamepast s) as [name|].
      * apply wpg_read3. intros v Hr Hf. split; [repeat split; exact Hf|].
        exists name. split; [intros f0 H0; discriminate H0|exact Hr].
      * destruct HE as [He|G]; [exact He|].
        match type of Eg with
        | glob_glob w ?pat = _ => destruct (gw_glob _ _ G pat) as [f' Hf']
        end.
        congruence.
    + apply wpg_bind, wpg_lift. cbn [head of_option].
      apply wpg_bind. refine (wpg_state E (with_fnamepast _) _ _ _).
      apply wpg_print. apply wpg_bind, wpg_read_name. st_simpl.
      apply wpg_read3. intros v Hr Hf. split; [repeat split; exact Hf|].
      exists f. split; [|exact Hr]. intros f0 H0. inversion H0. reflexivity.
    + apply wpg_print. apply wpg_bind, wpg_read_name. st_simpl.
      destruct (fnamepast s) as [name|].
      * apply wpg_read3. intros v Hr Hf. split; [repeat split; exact Hf|].
        exists name. split; [intros f0 H0; discriminate H0|exact Hr].
      * destruct HE as [He|G]; [exact He|].
        match type of Eg with
        | glob_glob w ?pat = _ => destruct (gw_glob _ _ G pat) as [f' Hf']
        end.
        congruence.
Qed.

End Files.


Lemma masked_where_slices_ok (cm : list bool) (v : list marray) :
  Forall (fun a => length a = length cm) v ->
  is_Some (masked_where_slices (replicate (length v) cm) v).
Proof.
  induction 1 as [|a v Ha _ IH]; simpl; [eauto|].
  unfold masked_where at 1. rewrite zip_exact_some by congruence.
  destruct IH as [r ->]. eauto.
Qed.

Lemma ma_map_length f a : length (ma_map f a) = length a.
Proof. apply length_map. Qed.

Lemma change_units_years var model v :
  length (cells3 (change_units var model v)) = length (cells3 v).
Proof.
  unfold change_units.
  destruct (str_in var temperature_vars), (str_in var ["MAP"]),
    (negb (str_in model unscaled_precip_models));
    cbn [tmap3 cells3]; rewrite ?length_map; reflexivity.
Qed.

(** In a good world the regional averages of a model are computed, and
    span enough years. *)
Lemma regional_series_good w cells var model recgrid cm vpi vpast :
  good_world w cells -> length cm = cells ->
  exists s, regional_series w var model recgrid cm vpi vpast = Ok s.
Proof.
  intros G Hcm. unfold regional_series, masked_where3.
  destruct (gw_regrid _ _ G (change_units var model vpi) recgrid)
    as [L1 F1].
  destruct (gw_regrid _ _ G (change_units var model vpast) recgrid)
    as [L2 F2].
  rewrite <- L1, <- L2. rewrite <- Hcm in F1, F2.
  destruct (masked_where_slices_ok cm _ F1) as [r1 ->].
  destruct (masked_where_slices_ok cm _ F2) as [r2 ->]. eauto.
Qed.

Lemma masked_where_slices_length cond v r :
  masked_where_slices cond v = Some r -> length r = length v.
Proof.
  revert v r. induction cond as [|c cond IH]; intros [|a v] r H;
    simpl in H; try discriminate.
  - inversion H. reflexivity.
  - destruct (masked_where c a); [|discriminate].
    destruct (masked_where_slices cond v) as [r'|] eqn:Er; [|discriminate].
    inversion H. simpl. f_equal. eauto.
Qed.

Lemma masked_where3_years cond v v' :
  masked_where3 cond v = Ok v' -> length (cells3 v') = length (cells3 v).
Proof.
  unfold masked_where3.
  destruct (masked_where_slices cond (cells3 v)) as [r|] eqn:Er;
    [|discriminate].
  intros H. inversion H. simpl. eapply masked_where_slices_length, Er.
Qed.

Lemma regional_series_years w cells var model recgrid cm vpi vpast s :
  good_world w cells ->
  (nbyrs <= length (cells3 vpi))%nat ->
  (nbyrs <= length (cells3 vpast))%nat ->
  regional_series w var model recgrid cm vpi vpast = Ok s ->
  (nbyrs <= length s.1.1.1)%nat /\ (nbyrs <= length s.1.1.2)%nat /\
  (nbyrs <= length s.1.2)%nat /\ (nbyrs <= length s.2)%nat.
Proof.
  intros G L1 L2 H. apply regional_series_inv in H. cbv zeta in H.
  destruct H as (a & c & Ha & Hc & ->). cbn [fst snd].
  apply masked_where3_years in Ha, Hc.
  destruct (gw_regrid _ _ G (change_units var model vpi) recgrid) as [R1 _].
  destruct (gw_regrid _ _ G (change_units var model vpast) recgrid) as [R2 _].
  rewrite R1, change_units_years in Ha.
  rewrite R2, change_units_years in Hc.
  repeat split; apply (gw_averager _ _ G);
    rewrite ?change_units_years; lia.
Qed.

Lemma wpx_wpg {A} E (m : M A) (Q : A -> State -> Prop) s :
  wpx m Q (fun _ => E) s -> wpg E m Q s.
Proof. intros H. exact H. Qed.

Lemma wpx_ret {A} (a : A) (Q : A -> State -> Prop) R s :
  Q a s -> wpx (ret a) Q R s.
Proof. intros H. exact H. Qed.

Lemma wpx_bind {A B} (m : M B) (k : B -> M A) (Q : A -> State -> Prop) R s :
  wpx m (fun b s' => wpx (k b) Q R s') R s -> wpx (bind m k) Q R s.
Proof.
  unfold wpx, bind. destruct (m s) as [[b|e] s']; auto.
Qed.

Lemma wpx_mono {A} (m : M A) (Q Q' : A -> State -> Prop) R s :
  (forall a s', Q a s' -> Q' a s') -> wpx m Q R s -> wpx m Q' R s.
Proof.
  unfold wpx. intros H. destruct (m s) as [[a|e] s']; auto.
Qed.

Lemma wpx_setitem p k v (Q : unit -> State -> Prop) R s :
  is_dict_at p (dic_res s) ->
  (forall d', setpath p k v (dic_res s) = Ok d' -> Q tt (with_dic_res d' s)) ->
  wpx (py_setitem p k v) Q R s.
Proof.
  intros Hd H. unfold wpx, py_setitem.
  destruct (setpath_ok p k v _ Hd) as [d' Hd']. rewrite Hd'. auto.
Qed.

Lemma wpx_key_lookup {V} (k : string) (l : list (string * V)) v
    (Q : V -> State -> Prop) R s :
  assoc k l = Some v -> Q v s -> wpx (key_lookup k l) Q R s.
Proof.
  intros H HQ. unfold wpx, key_lookup, lift. rewrite H. exact HQ.
Qed.

(** The two distributions are drawn when both series span [nbyrs] years;
    otherwise [N.random.choice] raises a ValueError. *)
Lemma wpx_distributions w pi past
    (Q : list (fnum * fnum) -> State -> Prop) (R : exn -> Prop) s :
  R ValueError \/ ((nbyrs <= length pi)%nat /\ (nbyrs <= length past)%nat) ->
  ((nbyrs <= length pi)%nat -> (nbyrs <= length past)%nat ->
   forall dist,
     map (fun d : fnum * fnum => fsub d.2 d.1) dist
     = deltam_of w (choice_pos s) pi past niter ->
     Q dist (with_choice_pos (choice_pos s + N.of_nat (2 * niter)) s)) ->
  wpx (distributions w pi past) Q R s.
Proof.
  intros HL HQ.
  destruct (Nat.lt_ge_cases (length pi) nbyrs) as [H1|H1];
    [|destruct (Nat.lt_ge_cases (length past) nbyrs) as [H2|H2]].
  - pose proof (distributions_raise w pi past s (or_introl H1)) as Hr.
    unfold wpx. destruct (distributions w pi past s) as [[x|e] s'];
      [discriminate Hr|].
    simpl in Hr. inversion Hr; subst.
    destruct HL as [He|[HL _]]; [exact He|lia].
  - pose proof (distributions_raise w pi past s (or_intror H2)) as Hr.
    unfold wpx. destruct (distributions w pi past s) as [[x|e] s'];
      [discriminate Hr|].
    simpl in Hr. inversion Hr; subst.
    destruct HL as [He|[_ HL]]; [exact He|lia].
  - destruct (distributions_run w pi past s H1 H2) as (dist & Hd & Hm).
    unfold wpx. rewrite Hd. apply HQ; assumption.
Qed.

Lemma getpath_setpath_same2 pm c k v d d' :
  setpath (pm ++ [c]) k v d = Ok d' -> getpath (pm ++ [c; k]) d' = Ok v.
Proof.
  intros H. change (pm ++ [c; k]) with (pm ++ [c] ++ [k]).
  rewrite app_assoc. apply (getpath_setpath_same _ _ _ _ _ H).
Qed.

Lemma indep_prefix pm p q : indep p q -> indep (pm ++ p) (pm ++ q).
Proof. intros H. induction pm; simpl; [exact H|right; assumption]. Qed.

Section Averages.

Variables (w : World) (R : exn -> Prop).

(** One case of the second loop of [temporal_averages]. *)
Lemma case_averages_spec pm series case (Q : unit -> State -> Prop) s :
  In case both_cases ->
  is_dict_at (pm ++ [case]) (dic_res s) ->
  R ValueError \/
  ((nbyrs <= length (case_series case series).1)%nat /\
   (nbyrs <= length (case_series case series).2)%nat) ->
  (forall d1 d2 pos,
     setpath (pm ++ [case]) "delta_mean"
       (PyFloat (np_average
                   (deltam_of w pos (case_series case series).1
                      (case_series case series).2 niter))) (dic_res s)
     = Ok d1 ->
     setpath (pm ++ [case]) "delta_std"
       (PyFloat (np_std (sqrtQ w)
                   (deltam_of w pos (case_series case series).1
                      (case_series case series).2 niter))) d1
     = Ok d2 ->
     (nbyrs <= length (case_series case series).1)%nat ->
     (nbyrs <= length (case_series case series).2)%nat ->
     Q tt (with_dic_res d2
             (with_choice_pos (choice_pos s + N.of_nat (2 * niter)) s))) ->
  wpx
    (let* sv := key_lookup case
                  [("allmodelpts", (series.1.1.1, series.1.1.2));
                   ("modelonrecpts", (series.1.2, series.2))] in
     let* dist := distributions w sv.1 sv.2 in
     let deltam := map (fun d : fnum * fnum => fsub d.2 d.1) dist in
     py_setitem (pm ++ [case]) "delta_mean" (PyFloat (np_average deltam)) ;;
     py_setitem (pm ++ [case]) "delta_std"
       (PyFloat (np_std (sqrtQ w) deltam))) Q R s.
Proof.
  intros Hc Hd HL HQ.
  assert (Hs : assoc case
                 [("allmodelpts", (series.1.1.1, series.1.1.2));
                  ("modelonrecpts", (series.1.2, series.2))]
               = Some (case_series case series)).
  { destruct Hc as [<-|[<-|[]]]; reflexivity. }
  apply wpx_bind. eapply wpx_key_lookup; [exact Hs|].
  apply wpx_bind, wpx_distributions; [exact HL|].
  intros H1 H2 dist Hdist. cbv zeta. rewrite Hdist.
  apply wpx_bind, wpx_setitem; st_simpl; [exact Hd|]. intros d1 Hd1.
  apply wpx_setitem; st_simpl.
  { eapply setpath_dict_at; exact Hd1. }
  intros d2 Hd2. eapply HQ; eassumption.
Qed.

(** [temporal_averages] raises nothing but the ValueError of a series
    shorter than [nbyrs] years; when it returns, both cases are stored. *)
Lemma temporal_averages_spec pm series s :
  is_dict_at pm (dic_res s) ->
  R ValueError \/
  ((nbyrs <= length series.1.1.1)%nat /\
   (nbyrs <= length series.1.1.2)%nat /\
   (nbyrs <= length series.1.2)%nat /\ (nbyrs <= length series.2)%nat) ->
  wpx
    (temporal_averages w pm series.1.1.1 series.1.1.2 series.1.2 series.2)
    (fun _ s' =>
       (forall case, In case both_cases ->
          case_stored w pm series case (dic_res s')) /\
       (forall q, indep pm q ->
          getpath q (dic_res s') = getpath q (dic_res s)) /\
       is_dict_at pm (dic_res s') /\
       chosenmask s' = chosenmask s /\ shelf s' = shelf s) R s.
Proof.
  intros Hd HL. unfold temporal_averages.
  change (negb (String.eqb compute_monte_carlo_averages "yes")) with false.
  cbv iota.
  assert (HLc : forall case, In case both_cases ->
            R ValueError \/
            ((nbyrs <= length (case_series case series).1)%nat /\
             (nbyrs <= length (case_series case series).2)%nat)).
  { intros case Hc. destruct HL as [He|HL]; [left; exact He|right].
    destruct Hc as [<-|[<-|[]]]; simpl; tauto. }
  assert (Hgen : forall c1 c2, c1 <> c2 ->
            In c1 both_cases -> In c2 both_cases ->
            wpx
              (for_each [c1; c2] (fun case => py_setitem pm case empty_dict) ;;
               for_each [c1; c2] (fun case =>
                 let* sv := key_lookup case
                              [("allmodelpts", (series.1.1.1, series.1.1.2));
                               ("modelonrecpts", (series.1.2, series.2))] in
                 let* dist := distributions w sv.1 sv.2 in
                 let deltam :=
                   map (fun d : fnum * fnum => fsub d.2 d.1) dist in
                 py_setitem (pm ++ [case]) "delta_mean"
                   (PyFloat (np_average deltam)) ;;
                 py_setitem (pm ++ [case]) "delta_std"
                   (PyFloat (np_std (sqrtQ w) deltam))))
              (fun _ s' =>
                 (case_stored w pm series c1 (dic_res s') /\
                  case_stored w pm series c2 (dic_res s')) /\
                 (forall q, indep pm q ->
                    getpath q (dic_res s') = getpath q (dic_res s)) /\
                 is_dict_at pm (dic_res s') /\
                 chosenmask s' = chosenmask s /\ shelf s' = shelf s) R s).
  { intros c1 c2 Hne Hc1 Hc2. cbn [for_each].
    apply wpx_bind. apply wpx_bind, wpx_setitem; [exact Hd|].
    st_simpl. intros d1 Hd1.
    apply wpx_bind, wpx_setitem; st_simpl.
    { eapply setpath_dict_at; exact Hd1. }
    intros d2 Hd2. apply wpx_ret.
    apply wpx_bind.
    apply (case_averages_spec pm series c1);
      [exact Hc1| |exact (HLc c1 Hc1)|]; st_simpl.
    { exists ∅. rewrite (getpath_setpath_indep _ _ _ _ _ _ Hd2).
      - apply (getpath_setpath_same _ _ _ _ _ Hd1).
      - apply indep_prefix. simpl. left. congruence. }
    intros d3 d4 pos1 Hd3 Hd4 L1 L2.
    apply wpx_bind.
    apply (case_averages_spec pm series c2);
      [exact Hc2| |exact (HLc c2 Hc2)|]; st_simpl.
    { exists ∅.
      rewrite (getpath_setpath_indep _ _ _ _ _ _ Hd4)
        by (rewrite <- app_assoc; apply indep_prefix; simpl; left;
            congruence).
      rewrite (getpath_setpath_indep _ _ _ _ _ _ Hd3)
        by (rewrite <- app_assoc; apply indep_prefix; simpl; left;
            congruence).
      apply (getpath_setpath_same _ _ _ _ _ Hd2). }
    intros d5 d6 pos2 Hd5 Hd6 L3 L4. apply wpx_ret. st_simpl.
    split; [split|split; [|split; [|split]]].
    - exists pos1. cbv zeta. split; [exact L1|]. split; [exact L2|]. split.
      + rewrite (getpath_setpath_indep _ _ _ _ _ _ Hd6)
          by (rewrite <- app_assoc; apply indep_prefix; simpl; left;
              congruence).
        rewrite (getpath_setpath_indep _ _ _ _ _ _ Hd5)
          by (rewrite <- app_assoc; apply indep_prefix; simpl; left;
              congruence).
        rewrite (getpath_setpath_indep _ _ _ _ _ _ Hd4)
          by (rewrite <- app_assoc; apply indep_prefix; simpl; right; left;
              discriminate).
        apply (getpath_setpath_same2 _ _ _ _ _ _ Hd3).
      + rewrite (getpath_setpath_indep _ _ _ _ _ _ Hd6)
          by (rewrite <- app_assoc; apply indep_prefix; simpl; left;
              congruence).
        rewrite (getpath_setpath_indep _ _ _ _ _ _ Hd5)
          by (rewrite <- app_assoc; apply indep_prefix; simpl; left;
              congruence).
        apply (getpath_setpath_same2 _ _ _ _ _ _ Hd4).
    - exists pos2. cbv zeta. split; [exact L3|]. split; [exact L4|]. split.
      + rewrite (getpath_setpath_indep _ _ _ _ _ _ Hd6)
          by (rewrite <- app_assoc; apply indep_prefix; simpl; right; left;
              discriminate).
        apply (getpath_setpath_same2 _ _ _ _ _ _ Hd5).
      + apply (getpath_setpath_same2 _ _ _ _ _ _ Hd6).
    - intros q Hq.
      rewrite (getpath_setpath_indep _ _ _ _ _ _ Hd6)
        by (rewrite <- app_assoc; apply indep_app_l, Hq).
      rewrite (getpath_setpath_indep _ _ _ _ _ _ Hd5)
        by (rewrite <- app_assoc; apply indep_app_l, Hq).
      rewrite (getpath_setpath_indep _ _ _ _ _ _ Hd4)
        by (rewrite <- app_assoc; apply indep_app_l, Hq).
      rewrite (getpath_setpath_indep _ _ _ _ _ _ Hd3)
        by (rewrite <- app_assoc; apply indep_app_l, Hq).
      rewrite (getpath_setpath_indep _ _ _ _ _ _ Hd2)
        by (apply indep_app_l, Hq).
      apply (getpath_setpath_indep _ _ _ _ _ _ Hd1), indep_app_l, Hq.
    - apply (setpath_dict_prefix pm [c2] _ _ _ _ Hd6).
    - reflexivity.
    - reflexivity. }
  unfold stat_cases. destruct (stat_keys_swapped w).
  - eapply wpx_mono; [|apply (Hgen "modelonrecpts" "allmodelpts");
                        [discriminate|simpl; tauto|simpl; tauto]].
    intros u s' ((H1 & H2) & H3). split; [|exact H3].
    intros case [<-|[<-|[]]]; assumption.
  - eapply wpx_mono; [|apply (Hgen "allmodelpts" "modelonrecpts");
                        [discriminate|simpl; tauto|simpl; tauto]].
    intros u s' ((H1 & H2) & H3). split; [|exact H3].
    intros case [<-|[<-|[]]]; assumption.
Qed.

End Averages.


Lemma at_path_app p q F d :
  at_path (p ++ q) F d <-> at_path p (at_path q F) d.
Proof.
  unfold at_path. split.
  - intros (e & He & HF). rewrite getpath_app in He.
    destruct (getpath p d) as [e0|] eqn:E0; [|discriminate]. eauto.
  - intros (e0 & He0 & e & He & HF). exists e.
    rewrite getpath_app, He0. auto.
Qed.

Section Models.

Variables (E : Prop) (w : World) (cells : nat).
Hypothesis HE : E \/ good_world w cells.

Lemma model_averages_spec period region rds var b lm dm recgrid cm model s :
  selected period rds var ->
  period_setup period = Some (lm, dm) -> In model lm ->
  is_dict_at [period; var; region; rds] (dic_res s) ->
  chosenmask s = Some cm -> E \/ length cm = cells ->
  wpg E (model_averages w period region rds var b dm recgrid model)
    (fun _ s' =>
       at_path [period; var; region; rds; model]
         (model_entry w period var model b dm recgrid cm) (dic_res s') /\
       is_dict_at [period; var; region; rds] (dic_res s') /\
       (forall q, indep [period; var; region; rds; model] q ->
          getpath q (dic_res s') = getpath q (dic_res s)) /\
       chosenmask s' = Some cm /\ shelf s' = shelf s) s.
Proof.
  intros Hsel Hp Hm Hd Hcm Hlen. unfold model_averages.
  destruct (selected_model_names _ _ _ Hsel) as (diag & mv & Hdiag & Hmv).
  destruct (selected_in_range _ _ _ Hsel) as (_ & _ & Hv).
  apply wpg_bind, wpg_setitem; [exact Hd|]. st_simpl. intros d1 Hd1.
  apply wpg_bind, wpg_key_lookup. rewrite Hdiag.
  apply wpg_bind, wpg_key_lookup. rewrite Hmv.
  apply wpg_bind.
  eapply wpg_mono; [|eapply (read_pi_spec E w cells HE); eassumption].
  intros vpi s1 ((D1 & C1 & S1 & Y1) & npi & Npi & Rpi). st_simpl.
  apply wpg_bind.
  eapply wpg_mono; [|eapply (read_past_spec E w cells HE); eassumption].
  intros vpast s2 ((D2 & C2 & S2 & Y2) & npast & Npast & Rpast).
  apply wpg_bind, wpg_read_name. rewrite C2, C1. st_simpl. rewrite Hcm.
  apply wpg_bind, wpg_lift.
  destruct (regional_series w var model recgrid cm vpi vpast)
    as [series|e] eqn:Hs.
  2:{ destruct HE as [He|G]; [exact He|].
      destruct Hlen as [He|Hlen]; [exact He|].
      destruct (regional_series_good w cells var model recgrid cm vpi vpast
                  G Hlen) as [x Hx]. congruence. }
  apply wpg_bind.
  eapply wpg_mono;
    [|apply wpx_wpg,
        (temporal_averages_spec w (fun _ => E)
           ([period; var; region; rds] ++ [model]) series s2)].
  2:{ rewrite D2, D1. st_simpl. exists ∅.
      apply (getpath_setpath_same _ _ _ _ _ Hd1). }
  2:{ destruct Y1 as [He|Y1]; [left; exact He|].
      destruct Y2 as [He|Y2]; [left; exact He|].
      destruct HE as [He|G]; [left; exact He|right].
      apply (regional_series_years w cells _ _ _ _ _ _ _ G Y1 Y2 Hs). }
  intros u s3 (Hcases & Hframe & Hdict & C3 & S3).
  rewrite D2, D1 in Hframe. st_simpl. rewrite C2, C1 in C3. st_simpl.
  rewrite S2, S1 in S3. st_simpl. cbn [app] in *.
  destruct (Hcases "allmodelpts" ltac:(simpl; tauto))
    as (pos & _ & _ & Gm & Gs). cbv zeta in Gm, Gs. cbn [app] in Gm, Gs.
  apply wpg_bind. eapply wpg_getitem; [exact Gm|].
  apply wpg_bind, wpg_ret.
  apply wpg_bind. eapply wpg_getitem; [exact Gs|].
  apply wpg_bind, wpg_ret. apply wpg_print. st_simpl.
  split; [|split; [|split; [|split]]].
  - destruct Hdict as [em Hem]. exists (PyDict em). split; [exact Hem|].
    exists vpi, vpast, series. split; [exact Hs|].
    split; [exists mv, diag, npi, npast; repeat split; assumption|].
    intros case Hc. destruct (Hcases case Hc) as (p & L1 & L2 & G1 & G2).
    exists p. cbv zeta in *. split; [exact L1|]. split; [exact L2|].
    change ([period; var; region; rds; model] ++ [case; "delta_mean"])
      with ([period; var; region; rds; model] ++ [case; "delta_mean"]) in G1.
    rewrite getpath_app, Hem in G1. rewrite getpath_app, Hem in G2. auto.
  - destruct Hdict as [em Hem].
    change [period; var; region; rds; model]
      with ([period; var; region; rds] ++ [model]) in Hem.
    rewrite getpath_app in Hem.
    destruct (getpath [period; var; region; rds] (dic_res s3)) as [e0|] eqn:E0;
      [|discriminate].
    destruct e0 as [| | |m0]; try discriminate. exists m0. exact E0.
  - intros q Hq. rewrite (Hframe q Hq).
    apply (getpath_setpath_indep _ _ _ _ _ _ Hd1). exact Hq.
  - congruence.
  - exact S3.
Qed.

Lemma combination_spec period region rds var b lm dm s :
  selected period rds var ->
  period_setup period = Some (lm, dm) ->
  is_dict_at [period; var; region; rds] (dic_res s) ->
  wpg E (combination w period region rds var b lm dm)
    (fun _ s' =>
       at_path [period; var; region; rds]
         (entry_done w period rds var b lm dm) (dic_res s') /\
       (forall q, indep [period; var; region; rds] q ->
          getpath q (dic_res s') = getpath q (dic_res s)) /\
       shelf s' = shelf s) s.
Proof.
  intros Hsel Hp Hd. unfold combination.
  apply wpg_bind.
  eapply wpg_mono; [|apply (reconstructions_spec E w cells HE); assumption].
  intros recgrid s1 (recmask & Hcm & Hlen & Hrec & Hd1 & Hf1 & Hs1).
  eapply wpg_mono;
    [|apply (wpg_for_each E
               (fun done s2 =>
                  chosenmask s2 = Some recmask /\
                  is_dict_at [period; var; region; rds] (dic_res s2) /\
                  rec_stored w period region rds var b recgrid recmask
                    (dic_res s2) /\
                  (forall m, In m done ->
                     at_path [period; var; region; rds; m]
                       (model_entry w period var m b dm recgrid recmask)
                       (dic_res s2)) /\
                  (forall q, indep [period; var; region; rds] q ->
                     getpath q (dic_res s2) = getpath q (dic_res s)) /\
                  shelf s2 = shelf s))].
  - intros u s2 (_ & [e0 He0] & Hrec2 & Hmod & Hf2 & Hs2).
    split; [|split; assumption].
    exists (PyDict e0). split; [exact He0|]. exists recgrid, recmask. split.
    + destruct Hrec2 as (rme & rse & pos & Hr & H). cbv zeta in H.
      destruct H as (L1 & L2 & G1 & G2 & G3 & G4).
      exists rme, rse, pos. split; [exact Hr|]. cbv zeta.
      rewrite getpath_app, He0 in G1, G2, G3, G4.
      repeat split; assumption.
    + intros m Hm. specialize (Hmod m Hm).
      change [period; var; region; rds; m]
        with ([period; var; region; rds] ++ [m]) in Hmod.
      apply at_path_app in Hmod. destruct Hmod as (e & He & H).
      rewrite He0 in He. inversion He; subst. exact H.
  - split; [exact Hcm|]. split; [exact Hd1|]. split; [exact Hrec|].
    split; [intros m []|]. split; assumption.
  - intros done m rest s2 Hl (Hcm2 & Hd2 & Hrec2 & Hmod & Hf2 & Hs2).
    assert (Hm : In m lm) by (rewrite Hl; apply in_or_app; simpl; tauto).
    pose proof (models_not_reserved _ _ _ _ Hp Hm) as Hres.
    eapply wpg_mono;
      [|apply (model_averages_spec period region rds var b lm dm recgrid
                 recmask m s2); assumption].
    intros u s3 (Hme & Hd3 & Hf3 & Hcm3 & Hs3).
    split; [exact Hcm3|]. split; [exact Hd3|]. split; [|split; [|split]].
    + eapply rec_stored_frame; [|exact Hrec2].
      intros q Hq. apply Hf3. cbn [app].
      simpl in Hq. unfold reserved_keys in Hres. simpl in Hres.
      destruct Hq as [<-|[<-|[<-|[<-|[]]]]]; simpl;
        do 4 right; left; intros ->; tauto.
    + intros m' Hm'. apply in_app_or in Hm'.
      destruct (decide (m' = m)) as [->|Hne]; [exact Hme|].
      destruct Hm' as [Hm'|[->|[]]]; [|congruence].
      eapply at_path_frame; [|apply (Hmod m' Hm')].
      apply Hf3. simpl. do 4 right. left. congruence.
    + intros q Hq. rewrite <- (Hf2 q Hq). apply Hf3.
      change [period; var; region; rds; m]
        with ([period; var; region; rds] ++ [m]).
      apply indep_app_l, Hq.
    + congruence.
Qed.

End Models.


Lemma all_combos_eq : all_combos = flat_map region_combos list_periods.
Proof. reflexivity. Qed.

Lemma combo_path_inj c c' : combo_path c = combo_path c' -> c = c'.
Proof.
  destruct c as [[[p r] d] v], c' as [[[p' r'] d'] v']. unfold combo_path.
  simpl. intros H. inversion H. reflexivity.
Qed.

Lemma entry_done_is_dict w period rds var b lm dm e :
  entry_done w period rds var b lm dm e -> exists m, e = PyDict m.
Proof.
  intros (g & mk & (a & c & pos & _ & H) & _). cbv zeta in H.
  destruct H as (_ & _ & H & _). destruct e; simpl in H; try discriminate.
  eauto.
Qed.

Lemma averaged_step w done d d' period region rds var b setup :
  averaged w done d ->
  assoc region dic_regions = Some b ->
  period_setup period = Some setup ->
  at_path [period; var; region; rds]
    (entry_done w period rds var b setup.1 setup.2) d' ->
  (forall q, indep [period; var; region; rds] q ->
     getpath q d' = getpath q d) ->
  averaged w (done ++ [(period, region, rds, var)]) d'.
Proof.
  intros Hav Hb Hs Hat Hf c Hr.
  destruct (decide (c = (period, region, rds, var))) as [->|Hne].
  - split; [|split].
    + destruct Hat as (e & He & Hdone).
      destruct (entry_done_is_dict _ _ _ _ _ _ _ _ Hdone) as [m ->].
      exists m. exact He.
    + intros _. exists b, setup. auto.
    + intros Hn. exfalso. apply Hn, in_or_app. simpl. tauto.
  - assert (Hi : indep [period; var; region; rds] (combo_path c)).
    { apply indep_same_length; [reflexivity|].
      intros Heq. apply Hne. symmetry.
      apply (combo_path_inj (period, region, rds, var) c Heq). }
    destruct (Hav c Hr) as (H1 & H2 & H3). split; [|split].
    + destruct H1 as [m Hm]. exists m. rewrite (Hf _ Hi). exact Hm.
    + intros Hin. apply in_app_or in Hin.
      destruct Hin as [Hin|[Heq|[]]]; [|congruence].
      destruct (H2 Hin) as (b' & setup' & Hb' & Hs' & Hat').
      exists b', setup'. split; [exact Hb'|]. split; [exact Hs'|].
      eapply at_path_frame; [|exact Hat']. apply Hf, Hi.
    + intros Hn. rewrite (Hf _ Hi). apply H3. intro Hin. apply Hn.
      apply in_or_app. auto.
Qed.

Lemma init_run s :
  (put_dic_res empty_dict ;; init_dic_res) s
  = (Ok tt, with_dic_res (dic_res initialised) s).
Proof. vm_compute. reflexivity. Qed.

Lemma initialised_entries c :
  in_range c -> getpath (combo_path c) (dic_res initialised) = Ok empty_dict.
Proof.
  destruct c as [[[period region] rds] var].
  intros (Hp & Hr & Hd & Hv). simpl in *.
  repeat match goal with
         | H : _ \/ _ |- _ => destruct H
         | H : False |- _ => contradiction
         end; subst; vm_compute; reflexivity.
Qed.

Lemma averaged_initialised w : averaged w [] (dic_res initialised).
Proof.
  intros c Hr. pose proof (initialised_entries c Hr) as H.
  split; [|split].
  - exists ∅. exact H.
  - intros [].
  - intros _. exact H.
Qed.

Lemma region_box region :
  In region list_regions -> exists b, assoc region dic_regions = Some b.
Proof.
  simpl. intros H.
  repeat (destruct H as [<-|H]; [eexists; reflexivity|]). contradiction.
Qed.

Section Stage.

Variables (E : Prop) (w : World) (cells : nat).
Hypothesis HE : E \/ good_world w cells.

Lemma vars_loop_spec s0 base period region rds b setup vars_of list_vars s :
  In period list_periods -> In region list_regions ->
  assoc period dic_list_vars = Some vars_of ->
  assoc rds vars_of = Some list_vars ->
  assoc region dic_regions = Some b ->
  period_setup period = Some setup ->
  stage_inv w s0 base s ->
  wpg E
    (for_each list_vars (fun var =>
       combination w period region rds var b setup.1 setup.2))
    (fun _ s' =>
       stage_inv w s0
         (base ++ map (fun var => (period, region, rds, var)) list_vars) s') s.
Proof.
  intros Hp Hr Hvo Hlv Hb Hs Hinv.
  apply (wpg_for_each E
           (fun dv s1 =>
              stage_inv w s0
                (base ++ map (fun var => (period, region, rds, var)) dv) s1)).
  - simpl. rewrite app_nil_r. exact Hinv.
  - intros dv var rest s1 Hl [Hav Hsh].
    assert (Hsel : selected period rds var).
    { exists vars_of, list_vars. repeat split; auto.
      rewrite Hl. apply in_or_app. simpl. tauto. }
    assert (Hrange : in_range (period, region, rds, var)).
    { destruct (selected_in_range _ _ _ Hsel) as (H1 & H2 & H3).
      repeat split; assumption. }
    destruct setup as [lm dm].
    eapply wpg_mono;
      [|apply (combination_spec E w cells HE period region rds var b lm dm);
        [exact Hsel|exact Hs|apply (Hav _ Hrange)]].
    intros u s2 (Hat & Hf & Hsh2). split; [|congruence].
    rewrite map_app, app_assoc. simpl.
    eapply averaged_step; eassumption.
Qed.

Lemma rds_loop_spec s0 base period region b setup s :
  In period list_periods -> In region list_regions ->
  assoc region dic_regions = Some b ->
  period_setup period = Some setup ->
  stage_inv w s0 base s ->
  wpg E
    (for_each list_reconstructions (fun rds =>
       let* vars_of := key_lookup period dic_list_vars in
       if str_in rds (keys vars_of) then
         let* list_vars := key_lookup rds vars_of in
         for_each list_vars (fun var =>
           combination w period region rds var b setup.1 setup.2)
       else ret tt))
    (fun _ s' => stage_inv w s0 (base ++ rds_combos period region) s') s.
Proof.
  intros Hp Hr Hb Hs Hinv.
  apply (wpg_for_each E
           (fun dr s1 =>
              stage_inv w s0
                (base ++ flat_map (vars_combos period region) dr) s1)).
  - simpl. rewrite app_nil_r. exact Hinv.
  - intros dr rds rest s1 Hl Hinv1.
    rewrite flat_map_app, app_assoc. simpl. rewrite app_nil_r.
    apply wpg_bind, wpg_key_lookup.
    assert (Hrds : In rds list_reconstructions)
      by (rewrite Hl; apply in_or_app; simpl; tauto).
    destruct (assoc period dic_list_vars) as [vars_of|] eqn:Hvo.
    2:{ exfalso. simpl in Hp.
        destruct Hp as [<-|[<-|[]]]; discriminate Hvo. }
    destruct (str_in rds (keys vars_of)) eqn:Hin.
    + apply wpg_bind, wpg_key_lookup.
      destruct (assoc rds vars_of) as [list_vars|] eqn:Hlv.
      * replace (vars_combos period region rds)
          with (map (fun var => (period, region, rds, var)) list_vars)
          by (unfold vars_combos; rewrite Hvo, Hlv; reflexivity).
        eapply vars_loop_spec; eassumption.
      * exfalso. apply str_in_In in Hin. unfold keys in Hin.
        apply in_map_iff in Hin. destruct Hin as ([k v] & <- & Hkv).
        clear -Hkv Hlv. induction vars_of as [|[k' v'] l IH];
          simpl in *; [contradiction|].
        destruct (String.eqb_spec k k'); [discriminate|].
        destruct Hkv as [Hkv|Hkv]; [congruence|auto].
    + apply wpg_ret.
      destruct (assoc rds vars_of) as [list_vars|] eqn:Hlv.
      * exfalso. apply assoc_In in Hlv.
        apply str_in_not_In in Hin. apply Hin. unfold keys.
        apply in_map_iff. exists (rds, list_vars). auto.
      * replace (vars_combos period region rds) with (@nil combo)
          by (unfold vars_combos; rewrite Hvo, Hlv; reflexivity).
        rewrite app_nil_r. exact Hinv1.
Qed.

Lemma region_loop_spec s0 base period setup s :
  In period list_periods ->
  period_setup period = Some setup ->
  stage_inv w s0 base s ->
  wpg E
    (for_each list_regions (fun region =>
       let* b := key_lookup region dic_regions in
       for_each list_reconstructions (fun rds =>
         let* vars_of := key_lookup period dic_list_vars in
         if str_in rds (keys vars_of) then
           let* list_vars := key_lookup rds vars_of in
           for_each list_vars (fun var =>
             combination w period region rds var b setup.1 setup.2)
         else ret tt)))
    (fun _ s' => stage_inv w s0 (base ++ region_combos period) s') s.
Proof.
  intros Hp Hs Hinv.
  apply (wpg_for_each E
           (fun dr s1 =>
              stage_inv w s0 (base ++ flat_map (rds_combos period) dr) s1)).
  - simpl. rewrite app_nil_r. exact Hinv.
  - intros dr region rest s1 Hl Hinv1.
    rewrite flat_map_app, app_assoc. simpl. rewrite app_nil_r.
    assert (Hr : In region list_regions)
      by (rewrite Hl; apply in_or_app; simpl; tauto).
    destruct (region_box region Hr) as [b Hb].
    apply wpg_bind, wpg_key_lookup. rewrite Hb.
    eapply rds_loop_spec; eassumption.
Qed.

Lemma compute_averages_spec s :
  averaged w [] (dic_res s) ->
  wpg E (compute_averages w)
    (fun _ s' => averaged w all_combos (dic_res s') /\ shelf s' = shelf s) s.
Proof.
  intros Hav. unfold compute_averages. rewrite all_combos_eq.
  apply (wpg_for_each E
           (fun dp s1 => stage_inv w s (flat_map region_combos dp) s1)).
  - split; [exact Hav|reflexivity].
  - intros dp period rest s1 Hl Hinv1.
    rewrite flat_map_app. simpl. rewrite app_nil_r.
    assert (Hp : In period list_periods)
      by (rewrite Hl; apply in_or_app; simpl; tauto).
    apply wpg_bind, wpg_lift.
    destruct (period_setup period) as [setup|] eqn:Hs.
    2:{ exfalso. simpl in Hp. destruct Hp as [<-|[<-|[]]]; discriminate Hs. }
    cbn [of_option]. eapply region_loop_spec; eassumption.
Qed.

(** The averaging stage, run with [compute_averages_again = 'yes']. *)
Lemma part1_spec s :
  wpg E (part1 w "yes")
    (fun _ s' =>
       averaged w all_combos (dic_res s') /\
       shelf s' = <[shelf_key := dic_res s']> (shelf s)) s.
Proof.
  unfold part1. change (negb (String.eqb "yes" "yes")) with false. cbv iota.
  unfold wpg.
  change ((put_dic_res empty_dict ;; init_dic_res ;; compute_averages w ;;
           save_results) s)
    with (bind (put_dic_res empty_dict ;; init_dic_res)
            (fun _ => compute_averages w ;; save_results) s).
  unfold bind at 1. rewrite init_run.
  fold (wpg E (compute_averages w ;; save_results)
          (fun _ s' =>
             averaged w all_combos (dic_res s') /\
             shelf s' = <[shelf_key := dic_res s']> (shelf s))
          (with_dic_res (dic_res initialised) s)).
  apply wpg_bind.
  eapply wpg_mono; [|apply compute_averages_spec].
  - intros u s1 [Hav Hsh]. unfold wpg, save_results. st_simpl.
    split; [exact Hav|]. rewrite Hsh. reflexivity.
  - st_simpl. apply averaged_initialised.
Qed.

End Stage.

(* ================================================================== *)
(** * The averaging stage as a whole *)

Lemma small_world_good : good_world small_world 3.
Proof.
  constructor.
  - intros path v b. exists small_rec. split; [reflexivity|].
    split; [reflexivity|]. intros i. reflexivity.
  - intros path v b. exists small_model. split; [reflexivity|].
    vm_compute. lia.
  - intros pattern. exists pattern. reflexivity.
  - intros v g. simpl. rewrite length_map. split; [reflexivity|].
    apply Forall_forall. intros a Ha. apply list_elem_of_In in Ha.
    apply in_map_iff in Ha. destruct Ha as (x & <- & _). reflexivity.
  - intros v Hv. simpl. rewrite length_map. exact Hv.
Qed.

Lemma part1_averaged w s s' :
  part1 w "yes" s = (Ok tt, s') ->
  averaged w all_combos (dic_res s') /\
  shelf s' = <[shelf_key := dic_res s']> (shelf s).
Proof.
  intros H.
  apply (wpg_partial _ _ _ _ _
           (part1_spec True w 0 (or_introl I) s) H).
Qed.

Lemma part1_good w cells s :
  good_world w cells -> part1 w "yes" s = (Ok tt, snd (part1 w "yes" s)).
Proof.
  intros G.
  destruct (wpg_total _ _ _ (part1_spec False w cells (or_intror G) s))
    as ([] & s' & H & _).
  rewrite H. reflexivity.
Qed.

Lemma part1_small_run :
  part1 small_world "yes" (initial_state ∅) = (Ok tt, averaged_small).
Proof. apply (part1_good small_world 3), small_world_good. Qed.

Lemma in_vars_combos period region rds var :
  selected period rds var ->
  In (period, region, rds, var) (vars_combos period region rds).
Proof.
  intros (vo & lv & H1 & H2 & H3). unfold vars_combos. rewrite H1, H2.
  apply in_map_iff. eauto.
Qed.

Lemma vars_combos_selected c period region rds :
  In c (vars_combos period region rds) ->
  exists var, c = (period, region, rds, var) /\ selected period rds var.
Proof.
  unfold vars_combos.
  destruct (assoc period dic_list_vars) as [vo|] eqn:H1; [|intros []].
  destruct (assoc rds vo) as [lv|] eqn:H2; [|intros []].
  intros H. apply in_map_iff in H. destruct H as (var & <- & Hv).
  exists var. split; [reflexivity|]. exists vo, lv. auto.
Qed.

Lemma in_all_combos period region rds var :
  In (period, region, rds, var) all_combos <->
  In period list_periods /\ In region list_regions /\
  selected period rds var.
Proof.
  rewrite all_combos_eq. unfold region_combos, rds_combos. split.
  - intros H. apply in_flat_map in H. destruct H as (p & Hp & H).
    apply in_flat_map in H. destruct H as (r & Hr & H).
    apply in_flat_map in H. destruct H as (d & Hd & H).
    apply vars_combos_selected in H. destruct H as (v & Heq & Hsel).
    inversion Heq; subst. auto.
  - intros (Hp & Hr & Hsel). apply in_flat_map. exists period.
    split; [exact Hp|]. apply in_flat_map. exists region.
    split; [exact Hr|]. apply in_flat_map. exists rds. split.
    + apply (selected_in_range _ _ _ Hsel).
    + apply in_vars_combos, Hsel.
Qed.

(** The entry of a combination that the stage has processed. *)
Lemma processed_entry w d period region rds var :
  averaged w all_combos d ->
  In period list_periods -> In region list_regions ->
  selected period rds var ->
  exists b setup,
    assoc region dic_regions = Some b /\
    period_setup period = Some setup /\
    at_path [period; var; region; rds]
      (entry_done w period rds var b setup.1 setup.2) d.
Proof.
  intros Hav Hp Hr Hsel.
  assert (Hrange : in_range (period, region, rds, var)).
  { destruct (selected_in_range _ _ _ Hsel) as (H1 & H2 & H3).
    repeat split; assumption. }
  destruct (Hav _ Hrange) as (_ & H & _). apply H.
  apply in_all_combos. auto.
Qed.

Lemma skipped_entry w d period region rds var :
  averaged w all_combos d ->
  In period list_periods -> In region list_regions ->
  In rds list_reconstructions -> In var all_vars ->
  ~ selected period rds var ->
  getpath [period; var; region; rds] d = Ok empty_dict.
Proof.
  intros Hav Hp Hr Hd Hv Hsel.
  assert (Hrange : in_range (period, region, rds, var))
    by (repeat split; assumption).
  destruct (Hav _ Hrange) as (_ & _ & H). apply H.
  intros Hin. apply in_all_combos in Hin. tauto.
Qed.

(** C3.  After the averaging stage, for every period, region, data set of
    [dic_list_vars] for that period and variable listed for that data set,
    the entry of [dic_res] holds 'mask', 'nbpts', 'reconstructions' with
    'mean' and 'std', and for every model of the period both cases, each
    with 'delta_mean' and 'delta_std'; the entries of the combinations that
    [dic_list_vars] does not list are left empty; [dic_list_vars] lists
    three data sets for the LGM and one for the Mid-Holocene. *)
Theorem averaging_stage_fills_dic_res (w : World) (s s' : State) :
  part1 w "yes" s = (Ok tt, s') ->
  (forall period region rds var list_models dir_models,
     In period list_periods -> In region list_regions ->
     selected period rds var ->
     period_setup period = Some (list_models, dir_models) ->
     let p := [period; var; region; rds] in
     (exists m, getpath (p ++ ["mask"]) (dic_res s') = Ok (PyMask m)) /\
     (exists n, getpath (p ++ ["nbpts"]) (dic_res s') = Ok (PyInt n)) /\
     (exists x, getpath (p ++ ["reconstructions"; "mean"]) (dic_res s')
                = Ok (PyFloat x)) /\
     (exists x, getpath (p ++ ["reconstructions"; "std"]) (dic_res s')
                = Ok (PyFloat x)) /\
     forall model case, In model list_models -> In case both_cases ->
       (exists x, getpath (p ++ [model; case; "delta_mean"]) (dic_res s')
                  = Ok (PyFloat x)) /\
       (exists x, getpath (p ++ [model; case; "delta_std"]) (dic_res s')
                  = Ok (PyFloat x))) /\
  (forall period region rds var,
     In period list_periods -> In region list_regions ->
     In rds list_reconstructions -> In var all_vars ->
     ~ selected period rds var ->
     getpath [period; var; region; rds] (dic_res s') = Ok empty_dict) /\
  keys <$> assoc "LGM" dic_list_vars
  = Some ["Bartlein2011"; "Cleator2019"; "Tierney2019"] /\
  keys <$> assoc "MH" dic_list_vars = Some ["Bartlein2011"] /\
  period_setup "LGM" = Some (list_models_lgm, dir_lgm) /\
  period_setup "MH" = Some (list_models_mh, dir_mh).
Proof.
  intros Hrun. destruct (part1_averaged _ _ _ Hrun) as [Hav _].
  split; [|split; [|repeat split]].
  - intros period region rds var lm dm Hp Hr Hsel Hs p.
    destruct (processed_entry _ _ _ _ _ _ Hav Hp Hr Hsel)
      as (b & setup & Hb & Hs' & e & He & g & mk & Hrec & Hmod).
    rewrite Hs in Hs'. inversion Hs'; subst setup. cbn [fst] in Hmod.
    destruct Hrec as (a & c & pos & _ & H). cbv zeta in H.
    destruct H as (_ & _ & G1 & G2 & G3 & G4).
    unfold p. rewrite !getpath_app, He.
    split; [eauto|]. split; [eauto|]. split; [eauto|]. split; [eauto|].
    intros model case Hm Hc.
    destruct (Hmod model Hm) as (em & Hem & Hme).
    destruct Hme as (vpi & vpast & series & _ & _ & H).
    destruct (H case Hc) as (pos' & H'). cbv zeta in H'.
    destruct H' as (_ & _ & D1 & D2).
    change [model; case; "delta_mean"]
      with ([model] ++ [case; "delta_mean"]).
    change [model; case; "delta_std"] with ([model] ++ [case; "delta_std"]).
    rewrite !getpath_app, He. cbv beta iota.
    rewrite !getpath_app, Hem. eauto.
  - intros period region rds var Hp Hr Hd Hv Hsel.
    eapply skipped_entry; eassumption.
Qed.

Lemma averaging_stage_fills_dic_res_witness :
  part1 small_world "yes" (initial_state ∅) = (Ok tt, averaged_small) /\
  ((forall period region rds var list_models dir_models,
     In period list_periods -> In region list_regions ->
     selected period rds var ->
     period_setup period = Some (list_models, dir_models) ->
     let p := [period; var; region; rds] in
     (exists m, getpath (p ++ ["mask"]) (dic_res averaged_small)
                = Ok (PyMask m)) /\
     (exists n, getpath (p ++ ["nbpts"]) (dic_res averaged_small)
                = Ok (PyInt n)) /\
     (exists x, getpath (p ++ ["reconstructions"; "mean"])
                  (dic_res averaged_small) = Ok (PyFloat x)) /\
     (exists x, getpath (p ++ ["reconstructions"; "std"])
                  (dic_res averaged_small) = Ok (PyFloat x)) /\
     forall model case, In model list_models -> In case both_cases ->
       (exists x, getpath (p ++ [model; case; "delta_mean"])
                    (dic_res averaged_small) = Ok (PyFloat x)) /\
       (exists x, getpath (p ++ [model; case; "delta_std"])
                    (dic_res averaged_small) = Ok (PyFloat x))) /\
  (forall period region rds var,
     In period list_periods -> In region list_regions ->
     In rds list_reconstructions -> In var all_vars ->
     ~ selected period rds var ->
     getpath [period; var; region; rds] (dic_res averaged_small)
     = Ok empty_dict) /\
  keys <$> assoc "LGM" dic_list_vars
  = Some ["Bartlein2011"; "Cleator2019"; "Tierney2019"] /\
  keys <$> assoc "MH" dic_list_vars = Some ["Bartlein2011"] /\
  period_setup "LGM" = Some (list_models_lgm, dir_lgm) /\
  period_setup "MH" = Some (list_models_mh, dir_mh)).
Proof.
  split; [exact part1_small_run|].
  exact (averaging_stage_fills_dic_res small_world (initial_state ∅)
           averaged_small part1_small_run).
Defined.

(** ** The statistics of the reconstructions *)

(** A realisation is a function of one deviate: the weighted sum of the
    means plus the deviate times the weighted sum of the standard errors,
    where the values are numbers. *)
Lemma shared_draw_unfold z rme rse recwei :
  shared_draw z rme rse recwei =
  np_sum (zip_with fmul
            (zip_with (fun m s => fadd m (fmul (Fin z) s)) rme rse) recwei).
Proof. reflexivity. Qed.

Lemma realisations_length w pos rme rse recwei n :
  length (realisations w pos rme rse recwei n) = n.
Proof. unfold realisations. rewrite length_map. apply length_seq. Qed.

Lemma realisations_nth w pos rme rse recwei n k :
  (k < n)%nat ->
  nth k (realisations w pos rme rse recwei n) NaN =
  shared_draw (gauss_z w (pos + N.of_nat k)) rme rse recwei.
Proof.
  intros Hk. unfold realisations.
  rewrite (nth_indep _ NaN
             (shared_draw (gauss_z w (pos + N.of_nat 0)) rme rse recwei))
    by (rewrite length_map, length_seq; exact Hk).
  rewrite (map_nth (fun k => shared_draw (gauss_z w (pos + N.of_nat k))
                               rme rse recwei)).
  rewrite seq_nth by exact Hk. reflexivity.
Qed.

(** C1, as the specification words it, does not hold.  In the small world
    the reconstruction has two unmasked grid points.  A realisation of the
    script takes one deviate from the stream, for both points; a realisation
    that draws one deviate per grid point takes two and has another value.
    The mean stored by [reconstructions] is 10001, the mean of the
    realisations of the script, whereas realisations that draw one deviate
    per grid point from the same stream have the mean 40003/2. *)
Lemma stored_mean_is_not_of_independent_draws :
  exists recgrid recmask rmeorig rseorig s',
    read_reconstruction small_world "LGM" "Bartlein2011" "MAT" globe
    = Ok (recgrid, (recmask, rmeorig, rseorig)) /\
    compressed rmeorig = [Fin 1; Fin 3] /\
    compressed rseorig = [Fin 1; Fin 3] /\
    compressed (normalised_weights recgrid rmeorig)
    = [Fin (1 # 2); Fin (1 # 2)] /\
    realisation small_world (compressed rmeorig) (compressed rseorig)
      (compressed (normalised_weights recgrid rmeorig)) initialised
    = (Ok (Fin 2), with_gauss_pos 1 initialised) /\
    realisation_independent small_world (compressed rmeorig)
      (compressed rseorig)
      (compressed (normalised_weights recgrid rmeorig)) initialised
    = (Ok (Fin (7 # 2)), with_gauss_pos 2 initialised) /\
    reconstructions small_world "LGM" "Globe" "Bartlein2011" "MAT" globe
      initialised = (Ok recgrid, s') /\
    getpath ["LGM"; "MAT"; "Globe"; "Bartlein2011"; "reconstructions"; "mean"]
      (dic_res s') = Ok (PyFloat (Fin 10001)) /\
    fst (monte_carlo_independent small_world (compressed rmeorig)
           (compressed rseorig)
           (compressed (normalised_weights recgrid rmeorig)) initialised)
    = Ok (Fin (40003 # 2), Fin 11547) /\
    Fin 10001 <> Fin (40003 # 2).
Proof.
  exists unit_grid, [false; true; false],
    [(false, Fin 1); (true, Fin 5); (false, Fin 3)],
    [(false, Fin 1); (true, Fin 5); (false, Fin 3)],
    (snd (reconstructions small_world "LGM" "Globe" "Bartlein2011" "MAT"
            globe initialised)).
  split; [vm_compute; reflexivity|].
  split; [reflexivity|]. split; [reflexivity|].
  split; [vm_compute; reflexivity|].
  split; [vm_compute; reflexivity|].
  split; [vm_compute; reflexivity|].
  split; [vm_compute; reflexivity|].
  split; [vm_compute; reflexivity|].
  split; [vm_compute; reflexivity|].
  discriminate.
Qed.

(** C1, amended.  After the averaging stage, for every processed
    combination, the stored 'mean' and 'std' of the reconstructions are the
    mean and the standard deviation (divisor N) of [niter] = 10000
    realisations; the realisation number k is the weighted sum, over the
    unmasked grid points, of mean + z_k * standard error, weighted by the
    normalised area weights, with ONE Gaussian deviate z_k shared by all
    the grid points of that realisation. *)
Theorem reconstruction_statistics_share_a_deviate (w : World) (s s' : State) :
  part1 w "yes" s = (Ok tt, s') ->
  forall period region rds var b,
    In period list_periods -> In region list_regions ->
    selected period rds var ->
    assoc region dic_regions = Some b ->
    exists recgrid recmask rmeorig rseorig pos rrave,
      read_reconstruction w period rds var b
      = Ok (recgrid, (recmask, rmeorig, rseorig)) /\
      let p := [period; var; region; rds] in
      let rme := compressed rmeorig in
      let rse := compressed rseorig in
      let recwei := compressed (normalised_weights recgrid rmeorig) in
      length rrave = niter /\ niter = Z.to_nat 10000 /\
      (forall k, (k < niter)%nat ->
         nth k rrave NaN =
         np_sum (zip_with fmul
                   (zip_with
                      (fun m e =>
                         fadd m (fmul (Fin (gauss_z w (pos + N.of_nat k))) e))
                      rme rse)
                   recwei)) /\
      length rme = length rse /\ length rme = length recwei /\
      getpath (p ++ ["reconstructions"; "mean"]) (dic_res s')
      = Ok (PyFloat (fdiv (np_sum rrave) (of_nat (length rrave)))) /\
      getpath (p ++ ["reconstructions"; "std"]) (dic_res s')
      = Ok (PyFloat (np_std (sqrtQ w) rrave)).
Proof.
  intros Hrun period region rds var b Hp Hr Hsel Hb.
  destruct (part1_averaged _ _ _ Hrun) as [Hav _].
  destruct (processed_entry _ _ _ _ _ _ Hav Hp Hr Hsel)
    as (b' & setup & Hb' & _ & e & He & g & mk & Hrec & _).
  rewrite Hb in Hb'. inversion Hb'; subst b'.
  destruct Hrec as (a & c & pos & Hread & H). cbv zeta in H.
  destruct H as (L1 & L2 & _ & _ & G3 & G4).
  exists g, mk, a, c, pos,
    (realisations w pos (compressed a) (compressed c)
       (compressed (normalised_weights g a)) niter).
  split; [exact Hread|]. cbv zeta.
  split; [apply realisations_length|]. split; [reflexivity|].
  split; [intros k Hk; apply (realisations_nth _ _ _ _ _ _ _ Hk)|].
  split; [exact L1|]. split; [exact L2|].
  rewrite !getpath_app, He. split; [exact G3|exact G4].
Qed.

Lemma selected_lgm_bartlein_mat : selected "LGM" "Bartlein2011" "MAT".
Proof.
  unfold selected. eexists. eexists.
  split; [reflexivity|]. split; [reflexivity|]. simpl. tauto.
Qed.

Lemma reconstruction_statistics_share_a_deviate_witness :
  part1 small_world "yes" (initial_state ∅) = (Ok tt, averaged_small) /\
  In "LGM" list_periods /\ In "Globe" list_regions /\
  selected "LGM" "Bartlein2011" "MAT" /\
  assoc "Globe" dic_regions = Some globe /\
  exists recgrid recmask rmeorig rseorig pos rrave,
    read_reconstruction small_world "LGM" "Bartlein2011" "MAT" globe
    = Ok (recgrid, (recmask, rmeorig, rseorig)) /\
    let p := ["LGM"; "MAT"; "Globe"; "Bartlein2011"] in
    let rme := compressed rmeorig in
    let rse := compressed rseorig in
    let recwei := compressed (normalised_weights recgrid rmeorig) in
    length rrave = niter /\ niter = Z.to_nat 10000 /\
    (forall k, (k < niter)%nat ->
       nth k rrave NaN =
       np_sum (zip_with fmul
                 (zip_with
                    (fun m e =>
                       fadd m
                         (fmul (Fin (gauss_z small_world (pos + N.of_nat k)))
                            e))
                    rme rse)
                 recwei)) /\
    length rme = length rse /\ length rme = length recwei /\
    getpath (p ++ ["reconstructions"; "mean"]) (dic_res averaged_small)
    = Ok (PyFloat (fdiv (np_sum rrave) (of_nat (length rrave)))) /\
    getpath (p ++ ["reconstructions"; "std"]) (dic_res averaged_small)
    = Ok (PyFloat (np_std (sqrtQ small_world) rrave)).
Proof.
  assert (H1 : In "LGM" list_periods) by (simpl; tauto).
  assert (H2 : In "Globe" list_regions) by (simpl; tauto).
  assert (H3 : assoc "Globe" dic_regions = Some globe) by reflexivity.
  split; [exact part1_small_run|]. split; [exact H1|]. split; [exact H2|].
  split; [exact selected_lgm_bartlein_mat|]. split; [exact H3|].
  exact (reconstruction_statistics_share_a_deviate small_world
           (initial_state ∅) averaged_small part1_small_run
           "LGM" "Globe" "Bartlein2011" "MAT" globe H1 H2
           selected_lgm_bartlein_mat H3).
Defined.

(** ** The statistics of the models *)



(** ** The common mask of the reconstructions *)

Lemma masked_where_mask_nan cond a0 a :
  masked_where cond (mask_nan a0) = Some a ->
  Forall (fun x => isnan x = false) (compressed a).
Proof.
  unfold masked_where, mask_nan. revert cond a.
  induction a0 as [|[m x] a0 IH]; intros [|c cond] a H; simpl in H;
    try discriminate.
  - inversion H. constructor.
  - destruct (zip_exact _ cond _) as [r|] eqn:E; [|discriminate].
    inversion H; subst a. specialize (IH _ _ E).
    unfold compressed in *. simpl.
    destruct m, (isnan x) eqn:En, c; simpl; auto.
Qed.

Lemma common_mask_no_nan rds rme0 rse0 recmask rme rse :
  common_mask rds rme0 rse0 = Ok (recmask, rme, rse) ->
  str_in rds ["Tierney2019"] = true ->
  Forall (fun x => isnan x = false) (compressed rme ++ compressed rse).
Proof.
  unfold common_mask. intros H Ht. rewrite Ht in H.
  destruct (mask_add _ _) as [mk|]; [|discriminate].
  destruct (masked_where mk (mask_nan rme0)) as [a|] eqn:Ea; [|discriminate].
  destruct (masked_where mk (mask_nan rse0)) as [c|] eqn:Ec; [|discriminate].
  inversion H; subst. apply Forall_app. split.
  - apply (masked_where_mask_nan _ _ _ Ea).
  - apply (masked_where_mask_nan _ _ _ Ec).
Qed.

(** The weights of the unmasked cells are the areas of these cells, each
    divided by the same total. *)
Lemma weights_by_index g a :
  length (compressed a) = length (compressed (normalised_weights g a)) ->
  exists t,
    compressed (normalised_weights g a) =
    map (fun i => fdiv (Fin (cell_area g i)) t)
        (unmasked_indices (ma_mask a)).
Proof.
  intros Hl.
  assert (Hempty : compressed (normalised_weights g a) = [] ->
                   exists t : fnum,
                     compressed (normalised_weights g a) =
                     map (fun i => fdiv (Fin (cell_area g i)) t)
                         (unmasked_indices (ma_mask a))).
  { intros E. exists NaN. rewrite E in Hl |- *. simpl in Hl.
    rewrite compressed_length, ma_count_indices in Hl.
    destruct (unmasked_indices (ma_mask a)); [reflexivity|discriminate]. }
  unfold normalised_weights, ma_div in *.
  destruct (ma_sum _) as [[t|]|];
    try (apply Hempty, compressed_all_masked).
  destruct (Qeq_bool t 0); [apply Hempty, compressed_all_masked|].
  exists (Fin t). rewrite compressed_ma_map. unfold area_weights. simpl.
  rewrite area_cells_compressed, map_map. reflexivity.
Qed.

(** C8.  After the averaging stage, for every processed combination, the
    mask applied to the means and to the standard errors of the
    reconstruction is the union of the masks of the two fields (NaN values
    masked first for Tierney2019); the compressed vectors of means, standard
    errors and weights have the same length, the stored 'nbpts'; position k
    of each of the three holds the value of the same grid point, the k-th
    unmasked one, so a draw pairs a mean with the standard error and the
    weight of its grid point. *)
Theorem common_mask_pairs_the_vectors (w : World) (s s' : State) :
  part1 w "yes" s = (Ok tt, s') ->
  forall period region rds var b,
    In period list_periods -> In region list_regions ->
    selected period rds var ->
    assoc region dic_regions = Some b ->
    exists path rmevarname rsevarname rmeraw rseraw recmask rmeorig rseorig
           t pos,
      cdms_read2 w path rmevarname b = Some rmeraw /\
      cdms_read2 w path rsevarname b = Some rseraw /\
      read_reconstruction w period rds var b
      = Ok (grid2 rmeraw, (recmask, rmeorig, rseorig)) /\
      let p := [period; var; region; rds] in
      let tierney := str_in rds ["Tierney2019"] in
      let rme1 :=
        if tierney then mask_nan (cells2 rmeraw) else cells2 rmeraw in
      let rse1 :=
        if tierney then mask_nan (cells2 rseraw) else cells2 rseraw in
      let idx := unmasked_indices recmask in
      let rme := compressed rmeorig in
      let rse := compressed rseorig in
      let recwei := compressed (normalised_weights (grid2 rmeraw) rmeorig) in
      recmask = zip_with orb (ma_mask rse1) (ma_mask rme1) /\
      ma_mask rmeorig = recmask /\ ma_mask rseorig = recmask /\
      rme = map (fun i => nth i (ma_data (cells2 rmeraw)) NaN) idx /\
      rse = map (fun i => nth i (ma_data (cells2 rseraw)) NaN) idx /\
      recwei = map (fun i => fdiv (Fin (cell_area (grid2 rmeraw) i)) t) idx /\
      length rme = length idx /\ length rse = length idx /\
      length recwei = length idx /\
      (tierney = true -> Forall (fun x => isnan x = false) (rme ++ rse)) /\
      getpath (p ++ ["mask"]) (dic_res s') = Ok (PyMask recmask) /\
      getpath (p ++ ["nbpts"]) (dic_res s') = Ok (PyInt (length idx)) /\
      getpath (p ++ ["reconstructions"; "mean"]) (dic_res s')
      = Ok (PyFloat (np_average (realisations w pos rme rse recwei niter))).
Proof.
  intros Hrun period region rds var b Hp Hr Hsel Hb.
  destruct (part1_averaged _ _ _ Hrun) as [Hav _].
  destruct (processed_entry _ _ _ _ _ _ Hav Hp Hr Hsel)
    as (b' & setup & Hb' & _ & e & He & g & mk & Hrec & _).
  rewrite Hb in Hb'. inversion Hb'; subst b'.
  destruct Hrec as (a & c & pos & Hread & H). cbv zeta in H.
  destruct H as (L1 & L2 & G1 & G2 & G3 & _).
  destruct (read_reconstruction_inv _ _ _ _ _ _ _ _ _ Hread)
    as (path & v1 & v2 & f1 & f2 & R1 & R2 & -> & Hcm).
  pose proof (common_mask_inv _ _ _ _ _ _ Hcm) as Hinv. cbv zeta in Hinv.
  destruct Hinv as (_ & Hmk & M1 & M2 & D1 & D2).
  destruct (weights_by_index (grid2 f1) a L2) as [t Ht].
  assert (Ia : length (compressed a) = length (unmasked_indices mk))
    by (rewrite compressed_length, ma_count_indices, M1; reflexivity).
  exists path, v1, v2, f1, f2, mk, a, c, t, pos.
  split; [exact R1|]. split; [exact R2|]. split; [exact Hread|]. cbv zeta.
  split; [exact Hmk|]. split; [exact M1|]. split; [exact M2|].
  split; [rewrite compressed_indices, M1, D1; reflexivity|].
  split; [rewrite compressed_indices, M2, D2; reflexivity|].
  split; [rewrite Ht, M1; reflexivity|].
  split; [exact Ia|]. split; [rewrite <- L1; exact Ia|].
  split; [rewrite <- L2; exact Ia|].
  split; [intros Ht'; apply (common_mask_no_nan _ _ _ _ _ _ Hcm Ht')|].
  rewrite !getpath_app, He. split; [exact G1|].
  split; [|exact G3].
  rewrite G2, ma_count_indices, M1. reflexivity.
Qed.

Lemma common_mask_pairs_the_vectors_witness :
  part1 small_world "yes" (initial_state ∅) = (Ok tt, averaged_small) /\
  In "LGM" list_periods /\ In "Globe" list_regions /\
  selected "LGM" "Bartlein2011" "MAT" /\
  assoc "Globe" dic_regions = Some globe /\
  exists path rmevarname rsevarname rmeraw rseraw recmask rmeorig rseorig
         t pos,
    cdms_read2 small_world path rmevarname globe = Some rmeraw /\
    cdms_read2 small_world path rsevarname globe = Some rseraw /\
    read_reconstruction small_world "LGM" "Bartlein2011" "MAT" globe
    = Ok (grid2 rmeraw, (recmask, rmeorig, rseorig)) /\
    let p := ["LGM"; "MAT"; "Globe"; "Bartlein2011"] in
    let tierney := str_in "Bartlein2011" ["Tierney2019"] in
    let rme1 :=
      if tierney then mask_nan (cells2 rmeraw) else cells2 rmeraw in
    let rse1 :=
      if tierney then mask_nan (cells2 rseraw) else cells2 rseraw in
    let idx := unmasked_indices recmask in
    let rme := compressed rmeorig in
    let rse := compressed rseorig in
    let recwei := compressed (normalised_weights (grid2 rmeraw) rmeorig) in
    recmask = zip_with orb (ma_mask rse1) (ma_mask rme1) /\
    ma_mask rmeorig = recmask /\ ma_mask rseorig = recmask /\
    rme = map (fun i => nth i (ma_data (cells2 rmeraw)) NaN) idx /\
    rse = map (fun i => nth i (ma_data (cells2 rseraw)) NaN) idx /\
    recwei = map (fun i => fdiv (Fin (cell_area (grid2 rmeraw) i)) t) idx /\
    length rme = length idx /\ length rse = length idx /\
    length recwei = length idx /\
    (tierney = true -> Forall (fun x => isnan x = false) (rme ++ rse)) /\
    getpath (p ++ ["mask"]) (dic_res averaged_small) = Ok (PyMask recmask) /\
    getpath (p ++ ["nbpts"]) (dic_res averaged_small)
    = Ok (PyInt (length idx)) /\
    getpath (p ++ ["reconstructions"; "mean"]) (dic_res averaged_small)
    = Ok (PyFloat
            (np_average (realisations small_world pos rme rse recwei niter))).
Proof.
  assert (H1 : In "LGM" list_periods) by (simpl; tauto).
  assert (H2 : In "Globe" list_regions) by (simpl; tauto).
  assert (H3 : assoc "Globe" dic_regions = Some globe) by reflexivity.
  split; [exact part1_small_run|]. split; [exact H1|]. split; [exact H2|].
  split; [exact selected_lgm_bartlein_mat|]. split; [exact H3|].
  exact (common_mask_pairs_the_vectors small_world (initial_state ∅)
           averaged_small part1_small_run
           "LGM" "Globe" "Bartlein2011" "MAT" globe H1 H2
           selected_lgm_bartlein_mat H3).
Defined.

(* ================================================================== *)
(** * The plotting stage *)

Create HintDb reads_only discriminated.

Lemma ro_ret {A} (a : A) : reads_only (ret a).
Proof. intros s. reflexivity. Qed.

Lemma ro_raise {A} e : reads_only (@raise A e).
Proof. intros s. reflexivity. Qed.

Lemma ro_lift {A} (r : result A) : reads_only (lift r).
Proof. intros s. reflexivity. Qed.

Lemma ro_bind {A B} (m : M A) (k : A -> M B) :
  reads_only m -> (forall a, reads_only (k a)) -> reads_only (bind m k).
Proof.
  intros Hm Hk s. unfold bind. specialize (Hm s).
  destruct (m s) as [[a|e] s1]; simpl in *.
  - rewrite (Hk a s1). exact Hm.
  - exact Hm.
Qed.

Lemma ro_print l : reads_only (print l).
Proof. intros s. reflexivity. Qed.

Lemma ro_f_write f l : reads_only (f_write f l).
Proof. intros s. reflexivity. Qed.

Lemma ro_plot f l : reads_only (plot f l).
Proof. intros s. reflexivity. Qed.

Lemma ro_read_name {A} (f : State -> option A) : reads_only (read_name f).
Proof. intros s. reflexivity. Qed.

Lemma ro_py_getitem p : reads_only (py_getitem p).
Proof. intros s. reflexivity. Qed.

Lemma ro_key_lookup {A} k (l : list (string * A)) :
  reads_only (key_lookup k l).
Proof. intros s. reflexivity. Qed.

Lemma ro_update_locals2 f : reads_only (update_locals2 f).
Proof. intros s. reflexivity. Qed.

Lemma ro_when c m : reads_only m -> reads_only (when c m).
Proof. intros H. destruct c; [exact H|apply ro_ret]. Qed.

Lemma ro_if {A} (c : bool) (m1 m2 : M A) :
  reads_only m1 -> reads_only m2 -> reads_only (if c then m1 else m2).
Proof. destruct c; auto. Qed.

Lemma ro_for_each {A} (l : list A) body :
  (forall x, reads_only (body x)) -> reads_only (for_each l body).
Proof.
  intros H. induction l as [|x l IH]; simpl.
  - apply ro_ret.
  - apply ro_bind; [apply H|intros _; exact IH].
Qed.

Lemma ro_for_fold {A S} (l : list A) (acc : S) body :
  (forall x a, reads_only (body x a)) -> reads_only (for_fold l acc body).
Proof.
  intros H. revert acc. induction l as [|x l IH]; intros acc; simpl.
  - apply ro_ret.
  - apply ro_bind; [apply H|intros a; apply IH].
Qed.

Lemma ro_set_delta x : reads_only (set_delta x).
Proof. apply ro_update_locals2. Qed.

Lemma ro_set_deltaerr x : reads_only (set_deltaerr x).
Proof. apply ro_update_locals2. Qed.

Lemma ro_set_pmipphase x : reads_only (set_pmipphase x).
Proof. apply ro_update_locals2. Qed.

Lemma ro_set_list_pmip4_models2 x : reads_only (set_list_pmip4_models2 x).
Proof. apply ro_update_locals2. Qed.

Lemma ro_set_index_i x : reads_only (set_index_i x).
Proof. apply ro_update_locals2. Qed.

#[local] Hint Resolve ro_ret ro_raise ro_lift ro_print ro_f_write ro_plot
  ro_read_name ro_py_getitem ro_key_lookup ro_update_locals2
  ro_set_delta ro_set_deltaerr ro_set_pmipphase ro_set_list_pmip4_models2
  ro_set_index_i : reads_only.

(** One step of a proof that a computation only reads [dic_res]: along the
    structure of the computation. *)
Ltac ro_step :=
  first
    [ progress intros
    | solve [auto with reads_only]
    | apply ro_bind
    | apply ro_when
    | apply ro_if
    | apply ro_for_each
    | apply ro_for_fold ].

Ltac ro := repeat ro_step.

Lemma ro_read_float f : reads_only (read_float f).
Proof. unfold read_float. ro. Qed.

Lemma ro_model_point_344 period var region rds lm model ens :
  reads_only (model_point_344 period var region rds lm model ens).
Proof.
  unfold model_point_344. pose proof ro_read_float. ro.
Qed.

Lemma ro_panel_344 w sp : reads_only (panel_344 w sp).
Proof.
  unfold panel_344. pose proof ro_read_float. pose proof ro_model_point_344. ro.
Qed.

Lemma ro_figure_344 w : reads_only (figure_344 w).
Proof. unfold figure_344. pose proof (ro_panel_344 w). ro. Qed.

Lemma ro_model_point_32a period region rdsl rdso model :
  reads_only (model_point_32a period region rdsl rdso model).
Proof. unfold model_point_32a. ro. Qed.

Lemma ro_figure_32a : reads_only figure_32a.
Proof. unfold figure_32a. pose proof ro_model_point_32a. ro. Qed.

(** C6.  Part II only reads [dic_res]: after the two figures and their
    text reports, whether they end or raise, [dic_res] is the object Part I
    produced or loaded. *)
Theorem plotting_stage_only_reads_dic_res (w : World) :
  (forall s, dic_res (snd (part2 w s)) = dic_res s) /\
  (forall s, dic_res (snd (figure_344 w s)) = dic_res s) /\
  (forall s, dic_res (snd (figure_32a s)) = dic_res s) /\
  (forall again s,
     dic_res (snd (script w again s)) = dic_res (snd (part1 w again s))).
Proof.
  assert (H2 : reads_only (part2 w)).
  { unfold part2. apply ro_bind; [apply ro_figure_344|].
    intros _. apply ro_figure_32a. }
  split; [exact H2|]. split; [exact (ro_figure_344 w)|].
  split; [exact ro_figure_32a|].
  intros again s. unfold script, bind.
  destruct (part1 w again s) as [[[]|e] s1]; simpl; [apply H2|reflexivity].
Qed.

(* ================================================================== *)
(** * The shelve file *)

(** C5.  When the averaging stage has run to its end, the shelve file is
    the one it found with the key 'dic_res' bound to the whole of
    [dic_res]; a later run that skips the stage ([compute_averages_again]
    other than 'yes') on that shelve file reads back the object saved, so
    Part II starts from the same [dic_res] in both modes. *)
Theorem results_cache_round_trip (w : World) (s s1 : State) :
  part1 w "yes" s = (Ok tt, s1) ->
  shelf_key = "dic_res" /\
  shelf s1 = <[shelf_key := dic_res s1]> (shelf s) /\
  (forall k, k <> shelf_key -> shelf s1 !! k = shelf s !! k) /\
  script w "yes" s = part2 w s1 /\
  forall (w' : World) (again : string) (s2 : State),
    String.eqb again "yes" = false ->
    shelf s2 = shelf s1 ->
    part1 w' again s2 = (Ok tt, with_dic_res (dic_res s1) s2) /\
    dic_res (with_dic_res (dic_res s1) s2) = dic_res s1 /\
    script w' again s2 = part2 w' (with_dic_res (dic_res s1) s2).
Proof.
  intros Hrun. destruct (part1_averaged _ _ _ Hrun) as [_ Hshelf].
  split; [reflexivity|]. split; [exact Hshelf|]. split.
  { intros k Hk. rewrite Hshelf. apply lookup_insert_ne. congruence. }
  split.
  { unfold script, bind. rewrite Hrun. reflexivity. }
  intros w' again s2 Hag Hs2.
  assert (Hload : part1 w' again s2 = (Ok tt, with_dic_res (dic_res s1) s2)).
  { unfold part1, load_results. rewrite Hag. cbn [negb].
    rewrite Hs2, Hshelf, lookup_insert_eq. reflexivity. }
  split; [exact Hload|]. split; [reflexivity|].
  unfold script, bind. rewrite Hload. reflexivity.
Qed.

Lemma results_cache_round_trip_witness :
  part1 small_world "yes" (initial_state ∅) = (Ok tt, averaged_small) /\
  shelf_key = "dic_res" /\
  shelf averaged_small
  = <[shelf_key := dic_res averaged_small]> (shelf (initial_state ∅)) /\
  (forall k, k <> shelf_key ->
     shelf averaged_small !! k = shelf (initial_state ∅) !! k) /\
  script small_world "yes" (initial_state ∅) = part2 small_world averaged_small /\
  forall (w' : World) (again : string) (s2 : State),
    String.eqb again "yes" = false ->
    shelf s2 = shelf averaged_small ->
    part1 w' again s2 = (Ok tt, with_dic_res (dic_res averaged_small) s2) /\
    dic_res (with_dic_res (dic_res averaged_small) s2)
    = dic_res averaged_small /\
    script w' again s2 = part2 w' (with_dic_res (dic_res averaged_small) s2).
Proof.
  split; [exact part1_small_run|].
  exact (results_cache_round_trip small_world (initial_state ∅)
           averaged_small part1_small_run).
Defined.

(* ================================================================== *)
(** * Sampling years *)

(** C9.  [N.random.choice(a, nbyrs, replace=0)] raises ValueError for a
    series of fewer than [nbyrs] = 50 years and otherwise returns the values
    of 50 years of the series, all different when the generator permutes
    the years; the temporal averages of a model end when the four series
    (pre-industrial and past, for both cases) have at least 50 years and
    raise ValueError when one of them is shorter. *)
Theorem temporal_averages_need_fifty_years (w : World) (pm : list string)
    (vpimall vpastmall vpirall vpastrall : list fnum) (s : State) :
  is_dict_at pm (dic_res s) ->
  let enough :=
    (nbyrs <= length vpimall)%nat /\ (nbyrs <= length vpastmall)%nat /\
    (nbyrs <= length vpirall)%nat /\ (nbyrs <= length vpastrall)%nat in
  nbyrs = 50%nat /\
  (forall a s0,
     np_random_choice w a nbyrs s0 =
     if (length a <? nbyrs)%nat then (Raise ValueError, s0)
     else (Ok (map (fun i => nth i a NaN) (sample_years w (choice_pos s0) a)),
           with_choice_pos (N.succ (choice_pos s0)) s0)) /\
  (forall k a,
     Permutation (np_perm w k (length a)) (seq 0 (length a)) ->
     (nbyrs <= length a)%nat ->
     length (sample_years w k a) = nbyrs /\
     NoDup (sample_years w k a) /\
     Forall (fun i => (i < length a)%nat) (sample_years w k a)) /\
  (enough ->
   exists s',
     temporal_averages w pm vpimall vpastmall vpirall vpastrall s
     = (Ok tt, s')) /\
  (~ enough ->
   exists s',
     temporal_averages w pm vpimall vpastmall vpirall vpastrall s
     = (Raise ValueError, s')).
Proof.
  intros Hd enough. split; [reflexivity|]. split; [|split; [|split]].
  - intros a s0. unfold np_random_choice, sample_years. reflexivity.
  - intros k a Hperm Hlen.
    destruct (sample_years_distinct w k a Hperm) as [H1 H2].
    split; [|split; assumption].
    unfold sample_years. rewrite length_take_le; [reflexivity|].
    rewrite (Permutation_length Hperm), length_seq. exact Hlen.
  - intros Hen.
    pose proof (temporal_averages_spec w (fun _ => False) pm
                  (vpimall, vpastmall, vpirall, vpastrall) s Hd
                  (or_intror Hen)) as H.
    unfold wpx in H. cbn [fst snd] in H.
    destruct (temporal_averages w pm vpimall vpastmall vpirall vpastrall s)
      as [[[]|e] s']; [|contradiction].
    exists s'. reflexivity.
  - intros Hne.
    pose proof (temporal_averages_spec w (fun e => e = ValueError) pm
                  (vpimall, vpastmall, vpirall, vpastrall) s Hd
                  (or_introl eq_refl)) as H.
    unfold wpx in H. cbn [fst snd] in H.
    destruct (temporal_averages w pm vpimall vpastmall vpirall vpastrall s)
      as [[[]|e] s'].
    + exfalso. apply Hne. destruct H as [Hc _].
      destruct (Hc "allmodelpts" ltac:(simpl; tauto)) as (p1 & A1 & A2 & _).
      destruct (Hc "modelonrecpts" ltac:(simpl; tauto)) as (p2 & B1 & B2 & _).
      unfold enough. simpl in A1, A2, B1, B2. auto.
    + subst e. exists s'. reflexivity.
Qed.

Lemma temporal_averages_need_fifty_years_witness :
  is_dict_at [] (dic_res (initial_state ∅)) /\
  let w := small_world in
  let pm : list string := [] in
  let s := initial_state ∅ in
  let vpimall := replicate 50 (Fin 1) in
  let vpastmall := replicate 49 (Fin 2) in
  let vpirall := replicate 50 (Fin 1) in
  let vpastrall := replicate 50 (Fin 2) in
  let enough :=
    (nbyrs <= length vpimall)%nat /\ (nbyrs <= length vpastmall)%nat /\
    (nbyrs <= length vpirall)%nat /\ (nbyrs <= length vpastrall)%nat in
  nbyrs = 50%nat /\
  (forall a s0,
     np_random_choice w a nbyrs s0 =
     if (length a <? nbyrs)%nat then (Raise ValueError, s0)
     else (Ok (map (fun i => nth i a NaN) (sample_years w (choice_pos s0) a)),
           with_choice_pos (N.succ (choice_pos s0)) s0)) /\
  (forall k a,
     Permutation (np_perm w k (length a)) (seq 0 (length a)) ->
     (nbyrs <= length a)%nat ->
     length (sample_years w k a) = nbyrs /\
     NoDup (sample_years w k a) /\
     Forall (fun i => (i < length a)%nat) (sample_years w k a)) /\
  (enough ->
   exists s',
     temporal_averages w pm vpimall vpastmall vpirall vpastrall s
     = (Ok tt, s')) /\
  (~ enough ->
   exists s',
     temporal_averages w pm vpimall vpastmall vpirall vpastrall s
     = (Raise ValueError, s')).
Proof.
  assert (H : is_dict_at [] (dic_res (initial_state ∅)))
    by (exists ∅; reflexivity).
  split; [exact H|].
  exact (temporal_averages_need_fifty_years small_world []
           (replicate 50 (Fin 1)) (replicate 49 (Fin 2))
           (replicate 50 (Fin 1)) (replicate 50 (Fin 2))
           (initial_state ∅) H).
Defined.

(* ================================================================== *)
(** * The files of the Mid-Holocene *)

(** C10.  For the Mid-Holocene the name of the file, of the pre-industrial
    as of the midHolocene experiment, is bound only when exactly one file
    matches the pattern.  With no match or several, a line is printed, the
    name keeps the value of an earlier iteration, nothing is raised there,
    and the script opens the file of that stale name; when the name was
    never bound it raises NameError. *)
Theorem mh_file_name_bound_only_for_one_match (w : World)
    (var dir_models modvarname diag model : string) (b : box) (s : State) :
  let pattern experiment :=
    path_join dir_models
      ["*"; modvarname;
       diag +:+ modvarname +:+ "*" +:+ model +:+ "*" +:+ experiment
         +:+ "*.nc"] in
  match glob_glob w (pattern "piControl") with
  | [f] =>
      read_pi w "MH" var dir_models modvarname diag model b s =
      read3 w f modvarname b
        (with_stdout
           (stdout s ++ [[OStr var; OStr diag; OStr modvarname; OStr model;
                          OStr f]])
           (with_fnamepi f s))
  | file_list =>
      let s1 :=
        with_stdout
          (stdout s ++ [[OStr var; OStr diag; OStr model; OStr "MH";
                         OStr "Houston we have a problem "; OList file_list]])
          s in
      fnamepi s1 = fnamepi s /\
      read_pi w "MH" var dir_models modvarname diag model b s =
      match fnamepi s with
      | Some stale => read3 w stale modvarname b s1
      | None => (Raise NameError, s1)
      end
  end /\
  match glob_glob w (pattern "midHolocene") with
  | [f] =>
      read_past w "MH" var dir_models modvarname diag model b s =
      read3 w f modvarname b
        (with_stdout (stdout s ++ [[OStr var; OStr model; OStr f]])
           (with_fnamepast f s))
  | file_list =>
      let s1 :=
        with_stdout
          (stdout s ++ [[OStr var; OStr diag; OStr model;
                         OStr "Houston we have a problem "; OList file_list]])
          s in
      fnamepast s1 = fnamepast s /\
      read_past w "MH" var dir_models modvarname diag model b s =
      match fnamepast s with
      | Some stale => read3 w stale modvarname b s1
      | None => (Raise NameError, s1)
      end
  end.
Proof.
  cbv zeta. split.
  - unfold read_pi, resolve_file.
    change (String.eqb "MH" "MH") with true. cbv iota.
    destruct (glob_glob w _) as [|f [|g l]]; cbn [length Nat.eqb].
    + split; [reflexivity|]. unfold bind, print, read_name. simpl.
      destruct (fnamepi s); reflexivity.
    + reflexivity.
    + split; [reflexivity|]. unfold bind, print, read_name. simpl.
      destruct (fnamepi s); reflexivity.
  - unfold read_past, resolve_file.
    change (String.eqb "MH" "MH") with true. cbv iota.
    destruct (glob_glob w _) as [|f [|g l]]; cbn [length Nat.eqb].
    + split; [reflexivity|]. unfold bind, print, read_name. simpl.
      destruct (fnamepast s); reflexivity.
    + reflexivity.
    + split; [reflexivity|]. unfold bind, print, read_name. simpl.
      destruct (fnamepast s); reflexivity.
Qed.

(* ================================================================== *)
(** * Further properties of the script *)

(** ** Item assignment in nested dictionaries *)

Lemma setpath_raise p k v d e :
  getpath p d = Raise e -> setpath p k v d = Raise e.
Proof.
  revert d. induction p as [|a p IH]; intros d H; simpl in H.
  - discriminate.
  - destruct d as [| | |m]; simpl; try (inversion H; reflexivity).
    destruct (m !! a) as [o|]; [|inversion H; reflexivity].
    rewrite (IH _ H). reflexivity.
Qed.

Lemma setpath_not_dict p k v d o :
  getpath p d = Ok o -> (forall m, o <> PyDict m) ->
  setpath p k v d = Raise SubscriptError.
Proof.
  revert d. induction p as [|a p IH]; intros d H Hn; simpl in H.
  - inversion H; subst. destruct o as [| | |m]; try reflexivity.
    destruct (Hn m eq_refl).
  - destruct d as [| | |m]; try discriminate. simpl.
    destruct (m !! a) as [o'|]; [|discriminate].
    rewrite (IH _ H Hn). reflexivity.
Qed.

(** X1.  After [dic_res[p1]..[pn][k] = v] has succeeded, [dic_res[p1]..[pn][k]]
    is [v], what lies below it is what lies below [v], every entry on a
    path that parts from [p1..pn, k] is the one it was, and nothing of the
    state but [dic_res] has changed. *)
Theorem item_assignment_round_trip (p : list string) (k : string)
    (v : pyobj) (s s' : State) :
  py_setitem p k v s = (Ok tt, s') ->
  py_getitem (p ++ [k]) s' = (Ok v, s') /\
  (forall r, py_getitem (p ++ k :: r) s' = (getpath r v, s')) /\
  (forall q, indep (p ++ [k]) q ->
     fst (py_getitem q s') = fst (py_getitem q s)) /\
  s' = with_dic_res (dic_res s') s.
Proof.
  unfold py_setitem, py_getitem. intros H.
  destruct (setpath p k v (dic_res s)) as [d|e] eqn:E; [|discriminate].
  inversion H; subst s'. cbn [dic_res with_dic_res fst].
  split; [rewrite (getpath_setpath_same _ _ _ _ _ E); reflexivity|].
  split; [intros r; rewrite (getpath_setpath_below _ _ _ _ _ r E);
          reflexivity|].
  split; [intros q Hq; apply (getpath_setpath_indep _ _ _ _ _ _ E Hq)|].
  reflexivity.
Qed.

Lemma item_assignment_round_trip_witness :
  let s := initial_state ∅ in
  let s' := with_dic_res (PyDict {["LGM" := empty_dict]}) s in
  py_setitem [] "LGM" empty_dict s = (Ok tt, s') /\
  py_getitem ([] ++ ["LGM"]) s' = (Ok empty_dict, s') /\
  (forall r, py_getitem ([] ++ "LGM" :: r) s' = (getpath r empty_dict, s')) /\
  (forall q, indep ([] ++ ["LGM"]) q ->
     fst (py_getitem q s') = fst (py_getitem q s)) /\
  s' = with_dic_res (dic_res s') s.
Proof.
  assert (H : py_setitem [] "LGM" empty_dict (initial_state ∅)
              = (Ok tt, with_dic_res (PyDict {["LGM" := empty_dict]})
                          (initial_state ∅)))
    by reflexivity.
  split; [exact H|].
  exact (item_assignment_round_trip [] "LGM" empty_dict (initial_state ∅)
           (with_dic_res (PyDict {["LGM" := empty_dict]}) (initial_state ∅))
           H).
Defined.

(** X2.  An item assignment creates no dictionary on its way:
    [dic_res[p1]..[pn][k] = v] succeeds exactly when [dic_res[p1]..[pn]] is
    a dictionary.  When a key on the way is missing from its dictionary it
    raises KeyError; when reading [dic_res[p1]..[pn]] raises, it raises the
    same exception; when [dic_res[p1]..[pn]] is a number or an array it
    raises the error of an item assignment to such an object.  Whenever it
    fails, the state is left as it was. *)
Theorem item_assignment_needs_the_dictionaries (p : list string)
    (k : string) (v : pyobj) (s : State) :
  (is_dict_at p (dic_res s) <->
   exists s', py_setitem p k v s = (Ok tt, s')) /\
  (forall q a r m,
     p = q ++ a :: r -> getpath q (dic_res s) = Ok (PyDict m) ->
     m !! a = None ->
     py_setitem p k v s = (Raise KeyError, s)) /\
  (forall e, getpath p (dic_res s) = Raise e ->
     py_setitem p k v s = (Raise e, s)) /\
  (forall o, getpath p (dic_res s) = Ok o -> (forall m, o <> PyDict m) ->
     py_setitem p k v s = (Raise SubscriptError, s)) /\
  (forall r s', py_setitem p k v s = (r, s') -> r <> Ok tt -> s' = s).
Proof.
  unfold py_setitem. split; [split|split; [|split; [|split]]].
  - intros Hd. destruct (setpath_ok p k v _ Hd) as [d' Hd'].
    rewrite Hd'. eauto.
  - intros [s' H].
    destruct (setpath p k v (dic_res s)) as [d|e] eqn:E; [|discriminate].
    apply (setpath_is_dict _ _ _ _ _ E).
  - intros q a r m -> Hq Ha.
    assert (He : getpath (q ++ a :: r) (dic_res s) = Raise KeyError)
      by (rewrite getpath_app, Hq; simpl; rewrite Ha; reflexivity).
    rewrite (setpath_raise _ k v _ _ He). reflexivity.
  - intros e He. rewrite (setpath_raise _ k v _ _ He). reflexivity.
  - intros o Ho Hn. rewrite (setpath_not_dict _ k v _ _ Ho Hn). reflexivity.
  - intros r s' H Hr.
    destruct (setpath p k v (dic_res s)) as [d|e]; inversion H; subst;
      [destruct (Hr eq_refl)|reflexivity].
Qed.

(** ** The initialisation of [dic_res] *)

Lemma lookup_dict_of (ks : list string) (o : pyobj) (k : string) :
  (list_to_map (map (fun k => (k, o)) ks) : gmap string pyobj) !! k =
  if str_in k ks then Some o else None.
Proof.
  induction ks as [|a ks IH]; simpl.
  - apply lookup_empty.
  - unfold str_in in *. simpl. destruct (String.eqb_spec k a) as [->|Hne].
    + apply lookup_insert_eq.
    + rewrite lookup_insert_ne by congruence. exact IH.
Qed.

Lemma initialised_dict_of :
  dic_res initialised =
  dict_of list_periods
    (dict_of all_vars
       (dict_of list_regions (dict_of list_reconstructions empty_dict))).
Proof. vm_compute. reflexivity. Qed.

(** X3.  The initialisation discards whatever [dic_res] held and binds,
    for every period of [list_periods], every one of the five variables,
    every region and every data set, [dic_res[period][var][region][rds]] to
    an empty dictionary; it creates no other entry at that depth: a key
    outside these lists raises KeyError. *)
Theorem initialisation_creates_the_empty_entries (s : State) :
  (put_dic_res empty_dict ;; init_dic_res) s
  = (Ok tt, with_dic_res (dic_res initialised) s) /\
  forall period var region rds,
    getpath [period; var; region; rds]
      (dic_res (snd ((put_dic_res empty_dict ;; init_dic_res) s)))
    = if str_in period list_periods && str_in var all_vars
         && str_in region list_regions && str_in rds list_reconstructions
      then Ok empty_dict else Raise KeyError.
Proof.
  split; [apply init_run|]. intros period var region rds.
  rewrite init_run. cbn [snd dic_res with_dic_res].
  rewrite initialised_dict_of. unfold dict_of. cbn [getpath].
  rewrite !lookup_dict_of.
  destruct (str_in period list_periods); [|reflexivity]. cbn [andb].
  rewrite lookup_dict_of.
  destruct (str_in var all_vars); [|reflexivity]. cbn [andb].
  rewrite lookup_dict_of.
  destruct (str_in region list_regions); [|reflexivity]. cbn [andb].
  rewrite lookup_dict_of.
  destruct (str_in rds list_reconstructions); reflexivity.
Qed.

(** ** Masking *)

(** X4.  [MV.masked_where(cond, a)] keeps the data, masks a cell when it
    was masked or [cond] holds there, and so never unmasks a cell: the
    unmasked values that are left are a sublist of those there were;
    masking a second time with the same condition changes nothing. *)
Theorem masking_only_adds_masked_cells (cond : list bool) (a a' : marray) :
  masked_where cond a = Some a' ->
  ma_data a' = ma_data a /\
  ma_mask a' = zip_with orb (ma_mask a) cond /\
  sublist (compressed a') (compressed a) /\
  (ma_count a' <= ma_count a)%nat /\
  masked_where cond a' = Some a'.
Proof.
  intros H. destruct (masked_where_inv _ _ _ H) as (_ & Hm & Hd).
  split; [exact Hd|]. split; [exact Hm|].
  assert (Hs : sublist (compressed a') (compressed a) /\
               masked_where cond a' = Some a').
  { clear Hm Hd. unfold masked_where in *. revert a a' H.
    induction cond as [|c cond IH]; intros [|[m x] a] a' H; simpl in H;
      try discriminate.
    - inversion H. split; [constructor|reflexivity].
    - destruct (zip_exact _ cond a) as [r|] eqn:E; [|discriminate].
      inversion H; subst a'. destruct (IH _ _ E) as [IH1 IH2].
      split.
      + unfold compressed in *. simpl.
        destruct m, c; simpl; try exact IH1.
        * apply sublist_cons, IH1.
        * apply sublist_skip, IH1.
      + simpl. rewrite IH2. cbn [fst snd].
        destruct m, c; reflexivity. }
  destruct Hs as [Hs Hi]. split; [exact Hs|]. split; [|exact Hi].
  rewrite <- !compressed_length. apply sublist_length, Hs.
Qed.

Lemma masking_only_adds_masked_cells_witness :
  let a := [(false, Fin 1); (true, Fin 5); (false, Fin 3)] in
  let cond := [true; false; false] in
  let a' := [(true, Fin 1); (true, Fin 5); (false, Fin 3)] in
  masked_where cond a = Some a' /\
  ma_data a' = ma_data a /\
  ma_mask a' = zip_with orb (ma_mask a) cond /\
  sublist (compressed a') (compressed a) /\
  (ma_count a' <= ma_count a)%nat /\
  masked_where cond a' = Some a'.
Proof.
  assert (H : masked_where [true; false; false]
                [(false, Fin 1); (true, Fin 5); (false, Fin 3)]
              = Some [(true, Fin 1); (true, Fin 5); (false, Fin 3)])
    by reflexivity.
  split; [exact H|].
  exact (masking_only_adds_masked_cells [true; false; false]
           [(false, Fin 1); (true, Fin 5); (false, Fin 3)]
           [(true, Fin 1); (true, Fin 5); (false, Fin 3)] H).
Defined.

(** ** The Monte Carlo average of the reconstructions in closed form *)

Lemma weighted_draw_Fin (z : Q) (ms ses ws : list Q) :
  length ms = length ses -> length ms = length ws ->
  exists qs,
    zip_with fmul
      (zip_with (fun m s => fadd m (fmul (Fin z) s)) (map Fin ms)
         (map Fin ses)) (map Fin ws) = map Fin qs /\
    (Qsum qs ==
     Qsum (zip_with Qmult ms ws) + z * Qsum (zip_with Qmult ses ws))%Q.
Proof.
  revert ses ws. induction ms as [|m ms IH]; intros [|e ses] [|x ws] H1 H2;
    simpl in H1, H2; try discriminate.
  - exists []. split; [reflexivity|]. unfold Qsum. simpl. ring.
  - destruct (IH ses ws ltac:(lia) ltac:(lia)) as (qs & E & Hq).
    exists (Qred (Qred (m + Qred (z * e)) * x) :: qs). split.
    + cbn [map zip_with]. rewrite E. reflexivity.
    + unfold Qsum in *. simpl. rewrite Hq, !Qred_correct. ring.
Qed.

(** X5.  A realisation of the average of the reconstructions is an affine
    function of its one deviate: for vectors of numbers of equal lengths
    it is the weighted sum of the means plus the deviate times the weighted
    sum of the standard errors. *)
Theorem realisation_is_affine_in_its_deviate (w : World)
    (ms ses ws : list Q) (s : State) :
  length ms = length ses -> length ms = length ws ->
  exists q,
    realisation w (map Fin ms) (map Fin ses) (map Fin ws) s
    = (Ok (Fin q), with_gauss_pos (N.succ (gauss_pos s)) s) /\
    (q == Qsum (zip_with Qmult ms ws)
          + gauss_z w (gauss_pos s) * Qsum (zip_with Qmult ses ws))%Q.
Proof.
  intros H1 H2.
  destruct (weighted_draw_Fin (gauss_z w (gauss_pos s)) ms ses ws H1 H2)
    as (qs & E & Hq).
  destruct (np_sum_Fin qs) as (t & Et & Ht).
  exists t. split.
  - rewrite realisation_run by (rewrite !length_map; assumption).
    unfold shared_draw. rewrite E, Et. reflexivity.
  - rewrite Ht. exact Hq.
Qed.

Lemma realisation_is_affine_in_its_deviate_witness :
  length [1; 3]%Q = length [1; 3]%Q /\
  length [1; 3]%Q = length [1 # 2; 1 # 2]%Q /\
  exists q,
    realisation small_world (map Fin [1; 3]%Q) (map Fin [1; 3]%Q)
      (map Fin [1 # 2; 1 # 2]%Q) initialised
    = (Ok (Fin q), with_gauss_pos (N.succ (gauss_pos initialised))
                     initialised) /\
    (q == Qsum (zip_with Qmult [1; 3] [1 # 2; 1 # 2])
          + gauss_z small_world (gauss_pos initialised)
            * Qsum (zip_with Qmult [1; 3] [1 # 2; 1 # 2]))%Q.
Proof.
  split; [reflexivity|]. split; [reflexivity|].
  exact (realisation_is_affine_in_its_deviate small_world [1; 3]%Q [1; 3]%Q
           [1 # 2; 1 # 2]%Q initialised eq_refl eq_refl).
Defined.

Lemma realisations_Fin (w : World) (pos : N) (ms ses ws : list Q)
    (ks : list nat) :
  length ms = length ses -> length ms = length ws ->
  exists qs,
    map (fun k => shared_draw (gauss_z w (pos + N.of_nat k)) (map Fin ms)
                    (map Fin ses) (map Fin ws)) ks = map Fin qs /\
    length qs = length ks /\
    (Qsum qs ==
     inject_Z (Z.of_nat (length ks)) * Qsum (zip_with Qmult ms ws)
     + Qsum (map (fun k => gauss_z w (pos + N.of_nat k)) ks)
       * Qsum (zip_with Qmult ses ws))%Q.
Proof.
  intros H1 H2. induction ks as [|k ks IH].
  - exists []. split; [reflexivity|]. split; [reflexivity|].
    unfold Qsum. simpl. ring.
  - destruct IH as (qs & E & L & Hq).
    destruct (weighted_draw_Fin (gauss_z w (pos + N.of_nat k)) ms ses ws
                H1 H2) as (ps & Ep & Hp).
    destruct (np_sum_Fin ps) as (t & Et & Ht).
    exists (t :: qs). split; [|split].
    + cbn [map]. rewrite E. unfold shared_draw at 1. rewrite Ep, Et.
      reflexivity.
    + simpl. rewrite L. reflexivity.
    + cbn [length]. rewrite Nat2Z.inj_succ. unfold Z.succ.
      rewrite inject_Z_plus. change (inject_Z 1) with 1%Q.
      unfold Qsum in *. cbn [map foldr]. rewrite Hq, Ht, Hp. ring.
Qed.

(** X6.  For vectors of numbers of equal lengths the Monte Carlo average
    ends, having taken 10000 deviates from the stream of [random.gauss],
    and its mean is the weighted sum of the means plus the mean of these
    deviates times the weighted sum of the standard errors. *)
Theorem monte_carlo_mean_in_closed_form (w : World) (ms ses ws : list Q)
    (s : State) :
  length ms = length ses -> length ms = length ws ->
  exists q sd,
    monte_carlo w (map Fin ms) (map Fin ses) (map Fin ws) s
    = (Ok (Fin q, sd), with_gauss_pos (gauss_pos s + 10000) s) /\
    (q == Qsum (zip_with Qmult ms ws)
          + Qsum (map (fun k => gauss_z w (gauss_pos s + N.of_nat k))
                    (seq 0 niter)) / 10000
            * Qsum (zip_with Qmult ses ws))%Q.
Proof.
  intros H1 H2.
  pose proof (monte_carlo_run w (map Fin ms) (map Fin ses) (map Fin ws) s)
    as Hrun.
  rewrite !length_map in Hrun. specialize (Hrun H1 H2). cbv zeta in Hrun.
  destruct (realisations_Fin w (gauss_pos s) ms ses ws (seq 0 niter) H1 H2)
    as (qs & E & L & Hq).
  rewrite length_seq in L, Hq.
  destruct (np_sum_Fin qs) as (t & Et & Ht).
  assert (Hn : inject_Z (Z.of_nat niter) = 10000%Q).
  { unfold niter. rewrite Z2Nat.id by lia. reflexivity. }
  exists (Qred (t / 10000)),
    (np_std (sqrtQ w)
       (realisations w (gauss_pos s) (map Fin ms) (map Fin ses)
          (map Fin ws) niter)).
  split.
  - assert (Ha : np_average
                   (realisations w (gauss_pos s) (map Fin ms) (map Fin ses)
                      (map Fin ws) niter) = Fin (Qred (t / 10000))).
    { unfold realisations. rewrite E. unfold np_average.
      rewrite Et, length_map, L. unfold of_nat. rewrite Hn. reflexivity. }
    assert (Hp : N.of_nat niter = 10000%N).
    { unfold niter. apply N2Z.inj. rewrite nat_N_Z, Z2Nat.id by lia.
      reflexivity. }
    rewrite Hrun, Ha, Hp. reflexivity.
  - rewrite Qred_correct, Ht, Hq, Hn. field.
Qed.

Lemma monte_carlo_mean_in_closed_form_witness :
  length [1; 3]%Q = length [1; 3]%Q /\
  length [1; 3]%Q = length [1 # 2; 1 # 2]%Q /\
  exists q sd,
    monte_carlo small_world (map Fin [1; 3]%Q) (map Fin [1; 3]%Q)
      (map Fin [1 # 2; 1 # 2]%Q) initialised
    = (Ok (Fin q, sd),
       with_gauss_pos (gauss_pos initialised + 10000) initialised) /\
    (q == Qsum (zip_with Qmult [1; 3] [1 # 2; 1 # 2])
          + Qsum (map (fun k => gauss_z small_world
                                  (gauss_pos initialised + N.of_nat k))
                    (seq 0 niter)) / 10000
            * Qsum (zip_with Qmult [1; 3] [1 # 2; 1 # 2]))%Q.
Proof.
  split; [reflexivity|]. split; [reflexivity|].
  exact (monte_carlo_mean_in_closed_form small_world [1; 3]%Q [1; 3]%Q
           [1 # 2; 1 # 2]%Q initialised eq_refl eq_refl).
Defined.

(** ** NaN in the reconstructions *)

Lemma foldl_fadd_NaN (l : list fnum) : foldl fadd NaN l = NaN.
Proof. induction l as [|x l IH]; [reflexivity|exact IH]. Qed.

Lemma np_sum_NaN (l : list fnum) : In NaN l -> np_sum l = NaN.
Proof.
  unfold np_sum. generalize (Fin 0). induction l as [|x l IH]; intros a H.
  - destruct H.
  - simpl. destruct H as [->|H].
    + destruct a; apply foldl_fadd_NaN.
    + apply IH, H.
Qed.

Lemma fmul_NaN_r x : fmul x NaN = NaN.
Proof. destruct x; reflexivity. Qed.

Lemma fadd_NaN_r x : fadd x NaN = NaN.
Proof. destruct x; reflexivity. Qed.

Lemma shared_draw_NaN (z : Q) (rme rse recwei : list fnum) :
  length rme = length rse -> length rme = length recwei ->
  In NaN rme \/ In NaN rse \/ In NaN recwei ->
  shared_draw z rme rse recwei = NaN.
Proof.
  intros H1 H2 H. unfold shared_draw. apply np_sum_NaN.
  revert rse recwei H1 H2 H.
  induction rme as [|m rme IH]; intros [|e rse] [|x recwei] H1 H2 H;
    simpl in H1, H2; try discriminate.
  - destruct H as [[]|[[]|[]]].
  - cbn [zip_with].
    destruct H as [[->|H]|[[->|H]|[->|H]]].
    + left. reflexivity.
    + right. apply IH; [lia|lia|tauto].
    + left. rewrite fmul_NaN_r, fadd_NaN_r. reflexivity.
    + right. apply IH; [lia|lia|tauto].
    + left. apply fmul_NaN_r.
    + right. apply IH; [lia|lia|tauto].
Qed.

Lemma np_average_NaN (l : list fnum) : In NaN l -> np_average l = NaN.
Proof. intros H. unfold np_average. rewrite (np_sum_NaN _ H). reflexivity. Qed.

(** X7.  A NaN among the unmasked means, standard errors or weights makes
    every realisation NaN, so that the mean and the standard deviation the
    Monte Carlo average returns are both NaN. *)
Theorem nan_in_the_vectors_gives_nan_statistics (w : World)
    (rme rse recwei : list fnum) (s : State) :
  length rme = length rse -> length rme = length recwei ->
  In NaN rme \/ In NaN rse \/ In NaN recwei ->
  (forall z, shared_draw z rme rse recwei = NaN) /\
  monte_carlo w rme rse recwei s
  = (Ok (NaN, NaN), with_gauss_pos (gauss_pos s + N.of_nat niter) s).
Proof.
  intros H1 H2 H.
  assert (Hd : forall z, shared_draw z rme rse recwei = NaN)
    by (intros z; apply shared_draw_NaN; assumption).
  split; [exact Hd|].
  rewrite (monte_carlo_run w rme rse recwei s H1 H2). cbv zeta.
  assert (Hr : realisations w (gauss_pos s) rme rse recwei niter
               = NaN :: replicate (Z.to_nat 9999) NaN).
  { unfold realisations. rewrite niter_succ.
    change (NaN :: replicate (Z.to_nat 9999) NaN)
      with (replicate (S (Z.to_nat 9999)) NaN).
    generalize (S (Z.to_nat 9999)) as n. generalize 0%nat as i.
    intros i n. revert i. induction n as [|n IH]; intros i; simpl.
    - reflexivity.
    - rewrite Hd, IH. reflexivity. }
  rewrite Hr.
  assert (Ha : np_average (NaN :: replicate (Z.to_nat 9999) NaN) = NaN)
    by (apply np_average_NaN; left; reflexivity).
  unfold np_std, np_var. rewrite Ha. cbn [map].
  rewrite np_average_NaN by (left; reflexivity). reflexivity.
Qed.

Lemma nan_in_the_vectors_gives_nan_statistics_witness :
  length [Fin 1; NaN] = length [Fin 1; Fin 3] /\
  length [Fin 1; NaN] = length [Fin (1 # 2); Fin (1 # 2)] /\
  (In NaN [Fin 1; NaN] \/ In NaN [Fin 1; Fin 3]
   \/ In NaN [Fin (1 # 2); Fin (1 # 2)]) /\
  (forall z,
     shared_draw z [Fin 1; NaN] [Fin 1; Fin 3] [Fin (1 # 2); Fin (1 # 2)]
     = NaN) /\
  monte_carlo small_world [Fin 1; NaN] [Fin 1; Fin 3]
    [Fin (1 # 2); Fin (1 # 2)] initialised
  = (Ok (NaN, NaN),
     with_gauss_pos (gauss_pos initialised + N.of_nat niter) initialised).
Proof.
  assert (H : In NaN [Fin 1; NaN] \/ In NaN [Fin 1; Fin 3]
              \/ In NaN [Fin (1 # 2); Fin (1 # 2)])
    by (left; simpl; tauto).
  split; [reflexivity|]. split; [reflexivity|]. split; [exact H|].
  exact (nan_in_the_vectors_gives_nan_statistics small_world [Fin 1; NaN]
           [Fin 1; Fin 3] [Fin (1 # 2); Fin (1 # 2)] initialised
           eq_refl eq_refl H).
Defined.

(** ** The files of the LGM *)

(** X8.  For every model of the LGM and every variable the two file names
    are built: the tables hold a template for the model in both
    experiments, each with the two conversions that are filled with the
    variable name and the diagnostic, so that neither KeyError nor
    TypeError is raised, nothing is printed, and the file opened is the one
    of the name just bound. *)
Theorem lgm_file_names_are_always_built (w : World) (var model : string)
    (b : box) (s : State) :
  In model list_models_lgm -> In var all_vars ->
  exists diag modvarname tpi tpast npi npast,
    assoc var dic_model_diagnames = Some diag /\
    assoc var dic_model_varnames = Some modvarname /\
    assoc model dic_models_PI = Some tpi /\
    assoc model dic_models_LGM = Some tpast /\
    format_s tpi [modvarname; diag] = Some npi /\
    format_s tpast [modvarname; diag] = Some npast /\
    read_pi w "LGM" var dir_lgm modvarname diag model b s
    = read3 w (path_join dir_lgm [npi]) modvarname b
        (with_fnamepi (path_join dir_lgm [npi]) s) /\
    read_past w "LGM" var dir_lgm modvarname diag model b s
    = read3 w (path_join dir_lgm [npast]) modvarname b
        (with_fnamepast (path_join dir_lgm [npast]) s).
Proof.
  intros Hm Hv.
  assert (Hd : exists diag modvarname,
             assoc var dic_model_diagnames = Some diag /\
             assoc var dic_model_varnames = Some modvarname).
  { simpl in Hv.
    destruct Hv as [<-|[<-|[<-|[<-|[<-|[]]]]]]; eexists; eexists;
      split; reflexivity. }
  destruct Hd as (diag & mv & Hdiag & Hmv).
  pose proof (lgm_names_ok "PI" model var ltac:(simpl; tauto) Hm Hv) as H1.
  pose proof (lgm_names_ok "LGM" model var ltac:(simpl; tauto) Hm Hv) as H2.
  unfold lgm_name_ok in H1, H2. rewrite Hdiag, Hmv in H1, H2.
  change (assoc "PI" dic_models) with (Some dic_models_PI) in *.
  change (assoc "LGM" dic_models) with (Some dic_models_LGM) in *.
  cbv beta iota in H1, H2.
  destruct (assoc model dic_models_PI) as [t1|] eqn:Et1; [|discriminate].
  destruct (assoc model dic_models_LGM) as [t2|] eqn:Et2; [|discriminate].
  destruct (format_s t1 [mv; diag]) as [n1|] eqn:En1; [|discriminate].
  destruct (format_s t2 [mv; diag]) as [n2|] eqn:En2; [|discriminate].
  exists diag, mv, t1, t2, n1, n2.
  repeat (split; [assumption || reflexivity|]).
  unfold read_pi, read_past, resolve_file.
  change (String.eqb "LGM" "MH") with false.
  change (String.eqb "LGM" "LGM") with true. cbv iota.
  unfold bind, key_lookup, lift.
  change (assoc "PI" dic_models) with (Some dic_models_PI).
  change (assoc "LGM" dic_models) with (Some dic_models_LGM).
  cbn [of_option]. rewrite Et1, Et2. cbn [of_option]. rewrite En1, En2.
  cbn [of_option]. split; reflexivity.
Qed.

Lemma lgm_file_names_are_always_built_witness :
  In "IPSL" list_models_lgm /\ In "MAT" all_vars /\
  exists diag modvarname tpi tpast npi npast,
    assoc "MAT" dic_model_diagnames = Some diag /\
    assoc "MAT" dic_model_varnames = Some modvarname /\
    assoc "IPSL" dic_models_PI = Some tpi /\
    assoc "IPSL" dic_models_LGM = Some tpast /\
    format_s tpi [modvarname; diag] = Some npi /\
    format_s tpast [modvarname; diag] = Some npast /\
    read_pi small_world "LGM" "MAT" dir_lgm modvarname diag "IPSL" globe
      (initial_state ∅)
    = read3 small_world (path_join dir_lgm [npi]) modvarname globe
        (with_fnamepi (path_join dir_lgm [npi]) (initial_state ∅)) /\
    read_past small_world "LGM" "MAT" dir_lgm modvarname diag "IPSL" globe
      (initial_state ∅)
    = read3 small_world (path_join dir_lgm [npast]) modvarname globe
        (with_fnamepast (path_join dir_lgm [npast]) (initial_state ∅)).
Proof.
  assert (H1 : In "IPSL" list_models_lgm) by (simpl; tauto).
  assert (H2 : In "MAT" all_vars) by (simpl; tauto).
  split; [exact H1|]. split; [exact H2|].
  exact (lgm_file_names_are_always_built small_world "MAT" "IPSL" globe
           (initial_state ∅) H1 H2).
Defined.

(** ** The regional averages of a model *)

Lemma masked_where_slices_shape (cm : list bool) (n : nat) (v : list marray) :
  is_Some (masked_where_slices (replicate n cm) v) <->
  length v = n /\ Forall (fun a => length a = length cm) v.
Proof.
  split.
  - revert n. induction v as [|a v IH]; intros [|n] [r H]; simpl in H;
      try discriminate.
    + split; [reflexivity|constructor].
    + destruct (masked_where cm a) as [a'|] eqn:Ea; [|discriminate].
      destruct (masked_where_slices (replicate n cm) v) as [r'|] eqn:Er;
        [|discriminate].
      destruct (IH n (ex_intro _ r' Er)) as [IH1 IH2].
      destruct (masked_where_inv _ _ _ Ea) as (Hl & _).
      split; [simpl; congruence|]. constructor; [congruence|exact IH2].
  - intros [<- H]. apply masked_where_slices_ok, H.
Qed.

(** X9.  The regional averages of a model are computed exactly when the
    two regridded fields have the shape of the mask: as many years as the
    field before regridding and, every year, as many cells as the mask of
    the reconstruction; otherwise [MV.masked_where] raises IndexError. *)
Theorem regional_series_needs_the_shape_of_the_mask (w : World)
    (var model : string) (recgrid : Grid) (cm : list bool)
    (vpi vpast : tvar3) :
  let vpi' := change_units var model vpi in
  let vpast' := change_units var model vpast in
  let fits (v r : tvar3) :=
    length (cells3 r) = length (cells3 v) /\
    Forall (fun a => length a = length cm) (cells3 r) in
  (fits vpi' (regrid w vpi' recgrid) /\
   fits vpast' (regrid w vpast' recgrid) ->
   exists series,
     regional_series w var model recgrid cm vpi vpast = Ok series) /\
  (~ (fits vpi' (regrid w vpi' recgrid) /\
      fits vpast' (regrid w vpast' recgrid)) ->
   regional_series w var model recgrid cm vpi vpast = Raise IndexError).
Proof.
  cbv zeta. unfold regional_series, masked_where3.
  set (vpi' := change_units var model vpi).
  set (vpast' := change_units var model vpast).
  pose proof (masked_where_slices_shape cm (length (cells3 vpi'))
                (cells3 (regrid w vpi' recgrid))) as H1.
  pose proof (masked_where_slices_shape cm (length (cells3 vpast'))
                (cells3 (regrid w vpast' recgrid))) as H2.
  destruct (masked_where_slices (replicate (length (cells3 vpi')) cm)
              (cells3 (regrid w vpi' recgrid))) as [r1|].
  - destruct (masked_where_slices (replicate (length (cells3 vpast')) cm)
                (cells3 (regrid w vpast' recgrid))) as [r2|].
    + split; [eauto|]. intros Hn. exfalso. apply Hn. split.
      * apply H1. eauto.
      * apply H2. eauto.
    + split; [|reflexivity]. intros [_ Hf]. apply H2 in Hf.
      destruct Hf as [x Hx]. discriminate.
  - split; [|reflexivity]. intros [Hf _]. apply H1 in Hf.
    destruct Hf as [x Hx]. discriminate.
Qed.

(** X10.  The series of the regional averages over all the points of a
    model depend neither on the grid nor on the mask of the
    reconstruction: whenever the averages are computed for two of them,
    the two series of the case 'allmodelpts' are the same, the averages of
    the converted fields. *)
Theorem all_points_series_ignore_the_reconstruction (w : World)
    (var model : string) (g g' : Grid) (cm cm' : list bool)
    (vpi vpast : tvar3)
    (s s' : list fnum * list fnum * list fnum * list fnum) :
  regional_series w var model g cm vpi vpast = Ok s ->
  regional_series w var model g' cm' vpi vpast = Ok s' ->
  s.1.1.1 = averager w (change_units var model vpi) /\
  s.1.1.2 = averager w (change_units var model vpast) /\
  s.1.1.1 = s'.1.1.1 /\ s.1.1.2 = s'.1.1.2.
Proof.
  intros H H'.
  destruct (regional_series_inv _ _ _ _ _ _ _ _ H) as (a & c & _ & _ & ->).
  destruct (regional_series_inv _ _ _ _ _ _ _ _ H') as (a' & c' & _ & _ & ->).
  repeat split.
Qed.

Lemma all_points_series_ignore_the_reconstruction_witness :
  regional_series small_world "MAT" "IPSL" unit_grid [false; true; false]
    small_model small_model = Ok small_series /\
  regional_series small_world "MAT" "IPSL" unit_grid [false; false; false]
    small_model small_model = Ok small_series_unmasked /\
  small_series.1.1.1
  = averager small_world (change_units "MAT" "IPSL" small_model) /\
  small_series.1.1.2
  = averager small_world (change_units "MAT" "IPSL" small_model) /\
  small_series.1.1.1 = small_series_unmasked.1.1.1 /\
  small_series.1.1.2 = small_series_unmasked.1.1.2.
Proof.
  assert (H1 : regional_series small_world "MAT" "IPSL" unit_grid
                 [false; true; false] small_model small_model
               = Ok small_series) by (vm_compute; reflexivity).
  assert (H2 : regional_series small_world "MAT" "IPSL" unit_grid
                 [false; false; false] small_model small_model
               = Ok small_series_unmasked) by (vm_compute; reflexivity).
  split; [exact H1|]. split; [exact H2|].
  exact (all_points_series_ignore_the_reconstruction small_world "MAT"
           "IPSL" unit_grid unit_grid [false; true; false]
           [false; false; false] small_model small_model small_series
           small_series_unmasked H1 H2).
Defined.

(** ** One combination *)

(** X11.  Processing one combination of period, region, data set and
    variable only writes below its own entry of [dic_res]: every entry on
    a path that parts from [period, var, region, rds] is the one it was,
    and the shelve file is not touched. *)
Theorem a_combination_only_writes_its_own_entry (w : World)
    (period region rds var : string) (b : box) (lm : list string)
    (dm : string) (s s' : State) :
  selected period rds var ->
  period_setup period = Some (lm, dm) ->
  is_dict_at [period; var; region; rds] (dic_res s) ->
  combination w period region rds var b lm dm s = (Ok tt, s') ->
  (forall q, indep [period; var; region; rds] q ->
     getpath q (dic_res s') = getpath q (dic_res s)) /\
  shelf s' = shelf s.
Proof.
  intros Hsel Hp Hd Hrun.
  pose proof (combination_spec True w 0 (or_introl I) period region rds var
                b lm dm s Hsel Hp Hd) as H.
  apply (wpg_partial _ _ _ _ _ H) in Hrun.
  destruct Hrun as (_ & Hf & Hs). split; assumption.
Qed.

Lemma combination_small_run :
  combination small_world "LGM" "Globe" "Bartlein2011" "MAT" globe
    list_models_lgm dir_lgm initialised = (Ok tt, combined_small).
Proof.
  assert (Hd : is_dict_at ["LGM"; "MAT"; "Globe"; "Bartlein2011"]
                 (dic_res initialised)).
  { exists ∅.
    apply (initialised_entries ("LGM", "Globe", "Bartlein2011", "MAT")).
    repeat split; simpl; tauto. }
  destruct (wpg_total _ _ _
              (combination_spec False small_world 3
                 (or_intror small_world_good) "LGM" "Globe" "Bartlein2011"
                 "MAT" globe list_models_lgm dir_lgm initialised
                 selected_lgm_bartlein_mat eq_refl Hd))
    as ([] & s' & H & _).
  unfold combined_small. rewrite H. reflexivity.
Qed.

Lemma a_combination_only_writes_its_own_entry_witness :
  selected "LGM" "Bartlein2011" "MAT" /\
  period_setup "LGM" = Some (list_models_lgm, dir_lgm) /\
  is_dict_at ["LGM"; "MAT"; "Globe"; "Bartlein2011"] (dic_res initialised) /\
  combination small_world "LGM" "Globe" "Bartlein2011" "MAT" globe
    list_models_lgm dir_lgm initialised = (Ok tt, combined_small) /\
  (forall q, indep ["LGM"; "MAT"; "Globe"; "Bartlein2011"] q ->
     getpath q (dic_res combined_small) = getpath q (dic_res initialised)) /\
  shelf combined_small = shelf initialised.
Proof.
  assert (Hd : is_dict_at ["LGM"; "MAT"; "Globe"; "Bartlein2011"]
                 (dic_res initialised)).
  { exists ∅.
    apply (initialised_entries ("LGM", "Globe", "Bartlein2011", "MAT")).
    repeat split; simpl; tauto. }
  assert (Hp : period_setup "LGM" = Some (list_models_lgm, dir_lgm))
    by reflexivity.
  split; [exact selected_lgm_bartlein_mat|]. split; [exact Hp|].
  split; [exact Hd|]. split; [exact combination_small_run|].
  exact (a_combination_only_writes_its_own_entry small_world "LGM" "Globe"
           "Bartlein2011" "MAT" globe list_models_lgm dir_lgm initialised
           combined_small selected_lgm_bartlein_mat Hp Hd
           combination_small_run).
Defined.

(** ** Skipping the averaging stage *)

(** X12.  When the averaging stage is skipped (any value of
    [compute_averages_again] but 'yes', in that very spelling), [dic_res]
    is what the shelve file holds under 'dic_res', whatever the world; and
    when the shelve file has no such key the script raises KeyError there,
    before anything is printed, written or plotted. *)
Theorem skipped_averages_need_the_saved_results (w : World)
    (again : string) (s : State) :
  again <> "yes" ->
  (forall d, shelf s !! "dic_res" = Some d ->
     part1 w again s = (Ok tt, with_dic_res d s) /\
     script w again s = part2 w (with_dic_res d s)) /\
  (shelf s !! "dic_res" = None ->
   part1 w again s = (Raise KeyError, s) /\
   script w again s = (Raise KeyError, s)).
Proof.
  intros Hag. apply String.eqb_neq in Hag.
  unfold script, bind, part1, load_results. rewrite Hag. cbn [negb].
  unfold shelf_key. split.
  - intros d Hd. rewrite Hd. split; reflexivity.
  - intros Hn. rewrite Hn. split; reflexivity.
Qed.

Lemma skipped_averages_need_the_saved_results_witness :
  "no" <> "yes" /\
  (forall d, shelf (initial_state ∅) !! "dic_res" = Some d ->
     part1 small_world "no" (initial_state ∅)
     = (Ok tt, with_dic_res d (initial_state ∅)) /\
     script small_world "no" (initial_state ∅)
     = part2 small_world (with_dic_res d (initial_state ∅))) /\
  (shelf (initial_state ∅) !! "dic_res" = None ->
   part1 small_world "no" (initial_state ∅)
   = (Raise KeyError, initial_state ∅) /\
   script small_world "no" (initial_state ∅)
   = (Raise KeyError, initial_state ∅)).
Proof.
  assert (H : "no" <> "yes") by discriminate.
  split; [exact H|].
  exact (skipped_averages_need_the_saved_results small_world "no"
           (initial_state ∅) H).
Defined.

(* ================================================================== *)
(** * The outputs of the plotting stage *)

Create HintDb outputs_only discriminated.

Lemma oo_silent {A} (m : M A) :
  (forall s, stdout (snd (m s)) = stdout s /\
             written (snd (m s)) = written s /\
             plotted (snd (m s)) = plotted s /\
             shelf (snd (m s)) = shelf s /\
             gauss_pos (snd (m s)) = gauss_pos s /\
             choice_pos (snd (m s)) = choice_pos s /\
             chosenmask (snd (m s)) = chosenmask s /\
             fnamepi (snd (m s)) = fnamepi s /\
             fnamepast (snd (m s)) = fnamepast s) ->
  outputs_only m.
Proof.
  intros H s. exists [], [], []. cbv zeta. rewrite !app_nil_r.
  destruct (H s) as (H1 & H2 & H3 & H4 & H5 & H6 & H7 & H8 & H9).
  repeat split; try assumption. constructor.
Qed.

Lemma oo_ret {A} (a : A) : outputs_only (ret a).
Proof. apply oo_silent. intros s. repeat split. Qed.

Lemma oo_lift {A} (r : result A) : outputs_only (lift r).
Proof. apply oo_silent. intros s. repeat split. Qed.

Lemma oo_read_name {A} (f : State -> option A) : outputs_only (read_name f).
Proof. apply oo_silent. intros s. repeat split. Qed.

Lemma oo_py_getitem p : outputs_only (py_getitem p).
Proof. apply oo_silent. intros s. repeat split. Qed.

Lemma oo_key_lookup {A} k (l : list (string * A)) :
  outputs_only (key_lookup k l).
Proof. apply oo_silent. intros s. repeat split. Qed.

Lemma oo_update_locals2 f : outputs_only (update_locals2 f).
Proof. apply oo_silent. intros s. repeat split. Qed.

Lemma oo_set_delta x : outputs_only (set_delta x).
Proof. apply oo_update_locals2. Qed.

Lemma oo_set_deltaerr x : outputs_only (set_deltaerr x).
Proof. apply oo_update_locals2. Qed.

Lemma oo_set_pmipphase x : outputs_only (set_pmipphase x).
Proof. apply oo_update_locals2. Qed.

Lemma oo_set_list_pmip4_models2 x : outputs_only (set_list_pmip4_models2 x).
Proof. apply oo_update_locals2. Qed.

Lemma oo_set_index_i x : outputs_only (set_index_i x).
Proof. apply oo_update_locals2. Qed.

Lemma oo_print l : outputs_only (print l).
Proof.
  intros s. exists [l], [], []. cbv zeta. simpl. rewrite !app_nil_r.
  repeat split. constructor.
Qed.

Lemma oo_plot f l : outputs_only (plot f l).
Proof.
  intros s. exists [], [], [(f, l)]. cbv zeta. simpl. rewrite !app_nil_r.
  repeat split. constructor.
Qed.

Lemma oo_f_write f l : In f report_files -> outputs_only (f_write f l).
Proof.
  intros Hf s. exists [], [(f, l)], []. cbv zeta. simpl. rewrite !app_nil_r.
  repeat split. constructor; [exact Hf|constructor].
Qed.

Lemma oo_f_write_344 l : outputs_only (f_write file_344 l).
Proof. apply oo_f_write. left. reflexivity. Qed.

Lemma oo_f_write_32a l : outputs_only (f_write file_32a l).
Proof. apply oo_f_write. right. left. reflexivity. Qed.

Lemma oo_bind {A B} (m : M A) (k : A -> M B) :
  outputs_only m -> (forall a, outputs_only (k a)) -> outputs_only (bind m k).
Proof.
  intros Hm Hk s. unfold bind.
  destruct (Hm s) as (o1 & w1 & p1 & H). cbv zeta in H.
  destruct (m s) as [[a|e] s1]; cbn [snd] in *.
  - destruct (Hk a s1) as (o2 & w2 & p2 & H'). cbv zeta in H'.
    destruct H as (A1 & A2 & A3 & A4 & A5 & A6 & A7 & A8 & A9 & A10).
    destruct H' as (B1 & B2 & B3 & B4 & B5 & B6 & B7 & B8 & B9 & B10).
    exists (o1 ++ o2), (w1 ++ w2), (p1 ++ p2). cbv zeta.
    rewrite B1, B2, B3, A1, A2, A3, <- !app_assoc.
    repeat split; try congruence. apply Forall_app. split; assumption.
  - exists o1, w1, p1. exact H.
Qed.

Lemma oo_when c m : outputs_only m -> outputs_only (when c m).
Proof. intros H. destruct c; [exact H|apply oo_ret]. Qed.

Lemma oo_if {A} (c : bool) (m1 m2 : M A) :
  outputs_only m1 -> outputs_only m2 ->
  outputs_only (if c then m1 else m2).
Proof. destruct c; auto. Qed.

Lemma oo_for_each {A} (l : list A) body :
  (forall x, outputs_only (body x)) -> outputs_only (for_each l body).
Proof.
  intros H. induction l as [|x l IH]; simpl.
  - apply oo_ret.
  - apply oo_bind; [apply H|intros _; exact IH].
Qed.

Lemma oo_for_fold {A S} (l : list A) (acc : S) body :
  (forall x a, outputs_only (body x a)) ->
  outputs_only (for_fold l acc body).
Proof.
  intros H. revert acc. induction l as [|x l IH]; intros acc; simpl.
  - apply oo_ret.
  - apply oo_bind; [apply H|intros a; apply IH].
Qed.

#[local] Hint Resolve oo_ret oo_lift oo_read_name oo_py_getitem
  oo_key_lookup oo_update_locals2 oo_set_delta oo_set_deltaerr
  oo_set_pmipphase oo_set_list_pmip4_models2 oo_set_index_i oo_print
  oo_plot oo_f_write_344 oo_f_write_32a : outputs_only.

Ltac oo_step :=
  first
    [ progress intros
    | solve [auto with outputs_only]
    | apply oo_bind
    | apply oo_when
    | apply oo_if
    | apply oo_for_each
    | apply oo_for_fold ].

Ltac oo := repeat oo_step.

Lemma oo_read_float f : outputs_only (read_float f).
Proof. unfold read_float. oo. Qed.

Lemma oo_model_point_344 period var region rds lm model ens :
  outputs_only (model_point_344 period var region rds lm model ens).
Proof. unfold model_point_344. pose proof oo_read_float. oo. Qed.

Lemma oo_panel_344 w sp : outputs_only (panel_344 w sp).
Proof.
  unfold panel_344. pose proof oo_read_float.
  pose proof oo_model_point_344. oo.
Qed.

Lemma oo_figure_344 w : outputs_only (figure_344 w).
Proof. unfold figure_344. pose proof (oo_panel_344 w). oo. Qed.

Lemma oo_model_point_32a period region rdsl rdso model :
  outputs_only (model_point_32a period region rdsl rdso model).
Proof. unfold model_point_32a. oo. Qed.

Lemma oo_figure_32a : outputs_only figure_32a.
Proof. unfold figure_32a. pose proof oo_model_point_32a. oo. Qed.

Lemma oo_part2 w : outputs_only (part2 w).
Proof.
  unfold part2. apply oo_bind; [apply oo_figure_344|].
  intros _. apply oo_figure_32a.
Qed.

(** X13.  Part II, whether it ends or raises, only adds to what has been
    printed, written and plotted; every line it writes goes to one of its
    two numerical reports; it draws no random number and leaves the shelve
    file, the mask and the file names of Part I as they are. *)
Theorem plotting_stage_only_adds_outputs (w : World) (s : State) :
  exists out wr pl,
    let s' := snd (part2 w s) in
    stdout s' = stdout s ++ out /\
    written s' = written s ++ wr /\
    plotted s' = plotted s ++ pl /\
    Forall (fun e : string * out_line =>
              e.1 = "IPCC_Fig3.44_numerical_values_20210326.txt" \/
              e.1 = "IPCC_Fig3.2a_numerical_values_20210326.txt") wr /\
    shelf s' = shelf s /\
    gauss_pos s' = gauss_pos s /\ choice_pos s' = choice_pos s /\
    chosenmask s' = chosenmask s /\
    fnamepi s' = fnamepi s /\ fnamepast s' = fnamepast s.
Proof.
  destruct (oo_part2 w s) as (out & wr & pl & H). cbv zeta in H.
  destruct H as (H1 & H2 & H3 & H4 & H5).
  exists out, wr, pl. cbv zeta.
  split; [exact H1|]. split; [exact H2|]. split; [exact H3|].
  split; [|exact H5].
  eapply Forall_impl; [exact H4|].
  intros e [He|[He|[]]]; [left|right]; rewrite <- He; reflexivity.
Qed.

(* ================================================================== *)
(** * Rules for the steps of Part II *)

Lemma wpg_when E c (m : M unit) (Q : unit -> State -> Prop) s :
  (c = true -> wpg E m Q s) -> (c = false -> Q tt s) ->
  wpg E (when c m) Q s.
Proof. destruct c; intros H1 H2; [apply H1|apply H2]; reflexivity. Qed.

Lemma wpg_cut {A B} E (m : M A) (k : A -> M B) (I : A -> State -> Prop)
    (Q : B -> State -> Prop) s :
  wpg E m I s -> (forall a s1, I a s1 -> wpg E (k a) Q s1) ->
  wpg E (bind m k) Q s.
Proof.
  intros Hm Hk. apply wpg_bind. eapply wpg_mono; [|exact Hm]. exact Hk.
Qed.

Lemma wpg_f_write E f (l : out_line) (Q : unit -> State -> Prop) s :
  Q tt (with_written (written s ++ [(f, l)]) s) -> wpg E (f_write f l) Q s.
Proof. intros H. exact H. Qed.

Lemma wpg_plot E f (l : out_line) (Q : unit -> State -> Prop) s :
  Q tt (with_plotted (plotted s ++ [(f, l)]) s) -> wpg E (plot f l) Q s.
Proof. intros H. exact H. Qed.

Lemma wpg_update_locals2 E f (Q : unit -> State -> Prop) s :
  Q tt (with_locals2 (f (locals2 s)) s) -> wpg E (update_locals2 f) Q s.
Proof. intros H. exact H. Qed.

(** The state of the goal in normal form, after a step of the script. *)
Ltac st_goal :=
  cbn [dic_res chosenmask fnamepi fnamepast locals2 gauss_pos choice_pos
       stdout written plotted shelf
       with_dic_res with_chosenmask with_fnamepi with_fnamepast
       with_locals2 with_gauss_pos with_choice_pos with_stdout
       with_written with_plotted with_shelf].

Ltac wp_write := apply wpg_bind, wpg_f_write; st_goal.
Ltac wp_plot := apply wpg_bind, wpg_plot; st_goal.
Ltac wp_locals := apply wpg_bind, wpg_update_locals2; st_goal.

Lemma wpg_for_fold {A S} E (I : list A -> S -> State -> Prop) (l : list A)
    (acc : S) (body : A -> S -> M S) s :
  I [] acc s ->
  (forall done x rest a s0, l = done ++ x :: rest -> I done a s0 ->
     wpg E (body x a) (fun a' s1 => I (done ++ [x]) a' s1) s0) ->
  wpg E (for_fold l acc body) (fun a' s' => I l a' s') s.
Proof.
  intros H0 Hstep.
  assert (G : forall rest done a s0, l = done ++ rest -> I done a s0 ->
                wpg E (for_fold rest a body) (fun a' s' => I l a' s') s0).
  { induction rest as [|x rest IH]; intros done a s0 Hl HI; simpl.
    - rewrite app_nil_r in Hl. subst. exact HI.
    - apply wpg_bind. eapply wpg_mono; [|apply (Hstep done x rest); auto].
      intros a' s1 H1. simpl in H1. apply (IH (done ++ [x])); auto.
      rewrite <- app_assoc. exact Hl. }
  apply (G l []); auto.
Qed.

(** The step of the index [i]: it is bound afterwards when it was bound or
    the model is in the list. *)
Lemma wpg_index_step c x (k : M (list pyobj * list pyobj * list pyobj))
    (Q : list pyobj * list pyobj * list pyobj -> State -> Prop) s :
  (forall s1, dic_res s1 = dic_res s ->
     (c = true \/ is_Some (index_i (locals2 s)) ->
      is_Some (index_i (locals2 s1))) ->
     wpg False k Q s1) ->
  wpg False (when c (set_index_i x) ;; k) Q s.
Proof.
  intros H. apply wpg_bind, wpg_when.
  - intros ->. apply wpg_update_locals2. apply H; st_simpl; eauto.
  - intros ->. apply H; [reflexivity|]. intros [Hc|Hi]; [discriminate|exact Hi].
Qed.


(* ================================================================== *)
(** * The panels of Figure 3.44 *)

Lemma bind_ok {A B} (m : M A) (k : A -> M B) s a s1 :
  m s = (Ok a, s1) -> bind m k s = k a s1.
Proof. intros H. unfold bind. rewrite H. reflexivity. Qed.

Lemma bind_raise {A B} (m : M A) (k : A -> M B) s e s1 :
  m s = (Raise e, s1) -> bind m k s = (Raise e, s1).
Proof. intros H. unfold bind. rewrite H. reflexivity. Qed.

Ltac step_ok := erewrite bind_ok by reflexivity; st_goal.

Lemma written_extends {A} (m : M A) s :
  outputs_only m -> exists rest, written (snd (m s)) = written s ++ rest.
Proof.
  intros H. destruct (H s) as (out & wr & pl & H'). cbv zeta in H'.
  exists wr. tauto.
Qed.

Lemma globe_panels sp period var rds :
  In (sp, (period, var, "Globe", rds)) dic_summ_plots ->
  (sp, period, var, rds) = ((nlines, ncols, 2), "MH", "MAT", "Bartlein2011") \/
  (sp, period, var, rds) = ((nlines, ncols, 3), "LGM", "MAT", "Bartlein2011") \/
  (sp, period, var, rds) = ((nlines, ncols, 4), "LIG", "MAT", "Bartlein2011") \/
  (sp, period, var, rds) = ((nlines, ncols, 5), "MPWP", "MAT", "Bartlein2011") \/
  (sp, period, var, rds) = ((nlines, ncols, 6), "EECO", "MAT", "Bartlein2011").
Proof.
  intros H. unfold dic_summ_plots in H. simpl in H.
  repeat (destruct H as [H|H];
          [first [discriminate H | inversion H; subst; tauto]|]).
  destruct H.
Qed.

(** A panel of the globe in a state where [delta] is not bound. *)
Lemma globe_panel_unbound (w : World) (sp : subplot)
    (period var rds : string) (s : State) :
  In (sp, (period, var, "Globe", rds)) dic_summ_plots ->
  delta (locals2 s) = None ->
  exists label s',
    assoc rds dic_labels = Some label /\
    panel_344 w sp s = (Raise NameError, s') /\
    written s' =
    written s ++
      [(file_344, [OStr "region: %s; variable: %s, period: %s\n";
                   OStr "Globe"; OStr var; OStr period]);
       (file_344, [OStr "reconstructioni data set: %s\n"; OStr label])] /\
    dic_res s' = dic_res s.
Proof.
  intros Hin Hdelta. apply globe_panels in Hin.
  destruct Hin as [H|[H|[H|[H|H]]]]; inversion H; subst; clear H;
    (eexists; eexists; split; [reflexivity|];
     unfold panel_344;
     step_ok; cbn [fst snd];
     step_ok;
     step_ok;
     step_ok;
     step_ok;
     step_ok;
     step_ok;
     step_ok;
     step_ok;
     step_ok;
     step_ok;
     erewrite bind_raise
       by (unfold read_float, bind, read_name; cbn [locals2 with_written
             with_plotted]; rewrite Hdelta; reflexivity);
     split; [reflexivity|]; split; [|reflexivity];
     cbn [written with_plotted with_written]; rewrite <- app_assoc;
     reflexivity).
Qed.

(** X14.  A panel of the globe does not bind [delta] before the line
    'reconstructions, average (std)' of the report reads it: when [delta]
    is not yet bound, as for the first panel drawn by a fresh interpreter,
    the panel raises NameError after the first two lines of the report have
    been written. *)
Theorem globe_panel_needs_a_bound_delta (w : World) (sp : subplot)
    (period var rds : string) (s : State) :
  In (sp, (period, var, "Globe", rds)) dic_summ_plots ->
  delta (locals2 s) = None ->
  exists label s',
    assoc rds dic_labels = Some label /\
    panel_344 w sp s = (Raise NameError, s') /\
    written s' =
    written s ++
      [(file_344, [OStr "region: %s; variable: %s, period: %s\n";
                   OStr "Globe"; OStr var; OStr period]);
       (file_344, [OStr "reconstructioni data set: %s\n"; OStr label])] /\
    dic_res s' = dic_res s.
Proof. apply globe_panel_unbound. Qed.

Lemma globe_panel_needs_a_bound_delta_witness :
  In ((nlines, ncols, 2), ("MH", "MAT", "Globe", "Bartlein2011"))
     dic_summ_plots /\
  delta (locals2 (initial_state ∅)) = None /\
  exists label s',
    assoc "Bartlein2011" dic_labels = Some label /\
    panel_344 small_world (nlines, ncols, 2) (initial_state ∅)
    = (Raise NameError, s') /\
    written s' =
    written (initial_state ∅) ++
      [(file_344, [OStr "region: %s; variable: %s, period: %s\n";
                   OStr "Globe"; OStr "MAT"; OStr "MH"]);
       (file_344, [OStr "reconstructioni data set: %s\n"; OStr label])] /\
    dic_res s' = dic_res (initial_state ∅).
Proof.
  assert (H1 : In ((nlines, ncols, 2), ("MH", "MAT", "Globe", "Bartlein2011"))
                  dic_summ_plots) by (left; reflexivity).
  assert (H2 : delta (locals2 (initial_state ∅)) = None) by reflexivity.
  split; [exact H1|]. split; [exact H2|].
  exact (globe_panel_needs_a_bound_delta small_world (nlines, ncols, 2)
           "MH" "MAT" "Bartlein2011" (initial_state ∅) H1 H2).
Defined.

(** X15.  A fresh interpreter cannot draw Figure 3.44 when the first panel
    Python enumerates is a panel of the globe: the figure, and with it
    Part II, raises NameError at that panel. *)
Theorem figure_344_fails_when_a_globe_panel_comes_first (w : World)
    (sp : subplot) (rest : list subplot) (period var rds : string)
    (s : State) :
  keys_order w subplot (map fst dic_summ_plots) = sp :: rest ->
  In (sp, (period, var, "Globe", rds)) dic_summ_plots ->
  delta (locals2 s) = None ->
  fst (figure_344 w s) = Raise NameError /\
  fst (part2 w s) = Raise NameError.
Proof.
  intros Hk Hin Hd.
  assert (Hf : fst (figure_344 w s) = Raise NameError).
  { unfold figure_344.
    step_ok.
    step_ok.
    step_ok.
    step_ok.
    rewrite Hk. cbn [for_each].
    match goal with
    | |- context [bind (bind (panel_344 w sp) _) _ ?st] =>
        destruct (globe_panel_unbound w sp period var rds st
                    Hin Hd) as (label & s' & _ & Hp & _)
    end.
    erewrite bind_raise; [reflexivity|].
    erewrite bind_raise; [reflexivity|exact Hp]. }
  split; [exact Hf|].
  unfold part2, bind.
  destruct (figure_344 w s) as [[u|e] s1]; simpl in Hf;
    [discriminate|]. simpl. exact Hf.
Qed.

Lemma figure_344_fails_when_a_globe_panel_comes_first_witness :
  keys_order small_world subplot (map fst dic_summ_plots)
  = (nlines, ncols, 2) :: tail (map fst dic_summ_plots) /\
  In ((nlines, ncols, 2), ("MH", "MAT", "Globe", "Bartlein2011"))
     dic_summ_plots /\
  delta (locals2 (initial_state ∅)) = None /\
  fst (figure_344 small_world (initial_state ∅)) = Raise NameError /\
  fst (part2 small_world (initial_state ∅)) = Raise NameError.
Proof.
  assert (H0 : keys_order small_world subplot (map fst dic_summ_plots)
               = (nlines, ncols, 2) :: tail (map fst dic_summ_plots))
    by reflexivity.
  assert (H1 : In ((nlines, ncols, 2), ("MH", "MAT", "Globe", "Bartlein2011"))
                  dic_summ_plots) by (left; reflexivity).
  assert (H2 : delta (locals2 (initial_state ∅)) = None) by reflexivity.
  split; [exact H0|]. split; [exact H1|]. split; [exact H2|].
  exact (figure_344_fails_when_a_globe_panel_comes_first small_world
           (nlines, ncols, 2) (tail (map fst dic_summ_plots))
           "MH" "MAT" "Bartlein2011" (initial_state ∅) H0 H1 H2).
Defined.

(** X16.  In a panel of the globe the line 'reconstructions, average (std)'
    of the report does not hold values of the reconstructions: it holds
    the [delta] and [deltaerr] the panel finds bound, left by the panel
    drawn before it. *)
Theorem globe_panel_reports_the_delta_it_finds (w : World) (sp : subplot)
    (period var rds : string) (s : State) (d e : pyobj) (x xerr : fnum) :
  In (sp, (period, var, "Globe", rds)) dic_summ_plots ->
  delta (locals2 s) = Some d -> deltaerr (locals2 s) = Some e ->
  to_float d = Ok x -> to_float e = Ok xerr ->
  exists label rest,
    assoc rds dic_labels = Some label /\
    written (snd (panel_344 w sp s)) =
    written s ++
      [(file_344, [OStr "region: %s; variable: %s, period: %s\n";
                   OStr "Globe"; OStr var; OStr period]);
       (file_344, [OStr "reconstructioni data set: %s\n"; OStr label]);
       (file_344, [OStr "reconstructions, average (std): %7.2f (%7.2f) \n";
                   OFloat x; OFloat xerr])] ++ rest.
Proof.
  intros Hin Hd He Hx Hxe. apply globe_panels in Hin.
  destruct Hin as [H|[H|[H|[H|H]]]]; inversion H; subst; clear H;
    (unfold panel_344;
     step_ok; cbn [fst snd];
     step_ok;
     step_ok;
     step_ok;
     step_ok;
     step_ok;
     step_ok;
     step_ok;
     step_ok;
     step_ok;
     step_ok;
     erewrite bind_ok
       by (unfold read_float, bind, read_name, lift;
           cbn [locals2 with_written with_plotted of_option];
           rewrite Hd; cbn [of_option]; rewrite Hx; reflexivity);
     erewrite bind_ok
       by (unfold read_float, bind, read_name, lift;
           cbn [locals2 with_written with_plotted of_option];
           rewrite He; cbn [of_option]; rewrite Hxe; reflexivity);
     step_ok;
     match goal with
     | |- context [snd (?m ?st)] =>
         destruct (written_extends m st) as [rest Hr];
           [pose proof oo_read_float; pose proof oo_model_point_344; oo|]
     end;
     eexists; exists rest; split; [reflexivity|];
     rewrite Hr; cbn [written with_plotted with_written];
     rewrite <- !app_assoc; reflexivity).
Qed.

Lemma globe_panel_reports_the_delta_it_finds_witness :
  In ((nlines, ncols, 4), ("LIG", "MAT", "Globe", "Bartlein2011"))
     dic_summ_plots /\
  delta (locals2 after_a_panel) = Some (PyFloat (Fin 1)) /\
  deltaerr (locals2 after_a_panel) = Some (PyInt 0) /\
  to_float (PyFloat (Fin 1)) = Ok (Fin 1) /\
  to_float (PyInt 0) = Ok (of_nat 0) /\
  exists label rest,
    assoc "Bartlein2011" dic_labels = Some label /\
    written (snd (panel_344 small_world (nlines, ncols, 4) after_a_panel)) =
    written after_a_panel ++
      [(file_344, [OStr "region: %s; variable: %s, period: %s\n";
                   OStr "Globe"; OStr "MAT"; OStr "LIG"]);
       (file_344, [OStr "reconstructioni data set: %s\n"; OStr label]);
       (file_344, [OStr "reconstructions, average (std): %7.2f (%7.2f) \n";
                   OFloat (Fin 1); OFloat (of_nat 0)])] ++ rest.
Proof.
  assert (H1 : In ((nlines, ncols, 4), ("LIG", "MAT", "Globe", "Bartlein2011"))
                  dic_summ_plots) by (right; right; left; reflexivity).
  split; [exact H1|]. split; [reflexivity|]. split; [reflexivity|].
  split; [reflexivity|]. split; [reflexivity|].
  exact (globe_panel_reports_the_delta_it_finds small_world (nlines, ncols, 4)
           "LIG" "MAT" "Bartlein2011" after_a_panel (PyFloat (Fin 1))
           (PyInt 0) (Fin 1) (of_nat 0) H1 eq_refl eq_refl eq_refl eq_refl).
Defined.

(** ** The ensembles of a panel *)

Lemma wpg_skip {A B} (m : M A) (k : A -> M B) (Q : B -> State -> Prop) s :
  (forall a s1, wpg True (k a) Q s1) -> wpg True (bind m k) Q s.
Proof.
  intros H. unfold wpg, bind in *.
  destruct (m s) as [[a|e] s1]; [apply H|exact I].
Qed.

Lemma wpg_bind_value {A B} (m : M A) (k : A -> M B) (R : A -> Prop)
    (Q : B -> State -> Prop) s :
  wpg True m (fun a _ => R a) s ->
  (forall a s1, R a -> wpg True (k a) Q s1) ->
  wpg True (bind m k) Q s.
Proof.
  intros Hm Hk. unfold wpg, bind in *.
  destruct (m s) as [[a|e] s1]; [apply Hk, Hm|exact I].
Qed.

(** What one model adds to the three lists of a panel. *)
Lemma model_point_344_ensembles period var region rds lm model ens s :
  wpg True (model_point_344 period var region rds lm model ens)
    (fun ens' _ =>
       exists d,
         if str_in model list_cmip6_models
         then ens' = (ens.1.1 ++ [d], ens.1.2, ens.2)
         else ens' = (ens.1.1, ens.1.2 ++ [d], ens.2) \/
              ens' = (ens.1.1, ens.1.2, ens.2 ++ [d])) s.
Proof.
  unfold model_point_344.
  do 6 (apply wpg_skip; intros ? ?).
  apply wpg_skip; intros models2 ?.
  apply wpg_skip; intros d ?.
  eapply (wpg_bind_value _ _
            (fun class =>
               if str_in model list_cmip6_models
               then class.2 = (ens.1.1 ++ [d], ens.1.2, ens.2)
               else class.2 = (ens.1.1, ens.1.2 ++ [d], ens.2) \/
                    class.2 = (ens.1.1, ens.1.2, ens.2 ++ [d]))).
  - destruct (str_in model list_cmip6_models).
    + apply wpg_skip. intros col ?. reflexivity.
    + destruct (str_in model models2); [left|right]; reflexivity.
  - intros class sc Hc.
    do 5 (apply wpg_skip; intros ? ?).
    exists d. exact Hc.
Qed.

(** X17.  Every model of a panel joins exactly one of the three lists from
    which the ensemble means are computed, and the models of
    [list_cmip6_models] join the first: when the loop over the models ends,
    the three lists hold together as many values as there are models, and
    the first as many as there are CMIP6 models among them. *)
Theorem every_model_joins_one_ensemble
    (period var region rds : string) (lm models : list string)
    (s s' : State) (ens : list pyobj * list pyobj * list pyobj) :
  for_fold models ([], [], [])
    (model_point_344 period var region rds lm) s = (Ok ens, s') ->
  (length ens.1.1 + length ens.1.2 + length ens.2 = length models)%nat /\
  length ens.1.1
  = length (List.filter (fun m => str_in m list_cmip6_models) models).
Proof.
  assert (G : forall models acc s s' ens,
             for_fold models acc
               (model_point_344 period var region rds lm) s = (Ok ens, s') ->
             (length ens.1.1 + length ens.1.2 + length ens.2
              = length acc.1.1 + length acc.1.2 + length acc.2
                + length models)%nat /\
             (length ens.1.1
              = length acc.1.1
                + length (List.filter (fun m => str_in m list_cmip6_models)
                            models))%nat).
  { clear. intros models. induction models as [|m models IH];
      intros acc s s' ens H; simpl in H.
    - inversion H; subst. simpl. lia.
    - unfold bind in H.
      pose proof (model_point_344_ensembles period var region rds lm m acc s)
        as Hm. unfold wpg in Hm.
      destruct (model_point_344 period var region rds lm m acc s)
        as [[acc'|e] s1]; [|discriminate].
      destruct (IH _ _ _ _ H) as [I1 I2]. rewrite I1, I2.
      destruct Hm as [d Hd]. cbn [List.filter length].
      destruct (str_in m list_cmip6_models).
      + subst acc'. cbn [fst snd length]. rewrite length_app. simpl. lia.
      + destruct Hd as [-> | ->]; cbn [fst snd length];
          rewrite length_app; simpl; lia. }
  intros H. destruct (G _ _ _ _ _ H) as [G1 G2]. simpl in G1, G2.
  split; [exact G1|exact G2].
Qed.

Lemma every_model_joins_one_ensemble_witness :
  for_fold ["CESM2"; "AWIESM2"] ([], [], [])
    (model_point_344 "LIG" "MAT" "Globe" "Bartlein2011"
       ["CESM2"; "AWIESM2"]) after_a_panel
  = (Ok ([PyFloat (dec (-11) 100)], [PyFloat (dec (-20) 100)], []),
     snd (for_fold ["CESM2"; "AWIESM2"] ([], [], [])
            (model_point_344 "LIG" "MAT" "Globe" "Bartlein2011"
               ["CESM2"; "AWIESM2"]) after_a_panel)) /\
  (length [PyFloat (dec (-11) 100)] + length [PyFloat (dec (-20) 100)]
   + length (@nil pyobj) = length ["CESM2"; "AWIESM2"])%nat /\
  length [PyFloat (dec (-11) 100)]
  = length (List.filter (fun m => str_in m list_cmip6_models)
              ["CESM2"; "AWIESM2"]).
Proof.
  assert (H : for_fold ["CESM2"; "AWIESM2"] ([], [], [])
                (model_point_344 "LIG" "MAT" "Globe" "Bartlein2011"
                   ["CESM2"; "AWIESM2"]) after_a_panel
              = (Ok ([PyFloat (dec (-11) 100)], [PyFloat (dec (-20) 100)],
                     []),
                 snd (for_fold ["CESM2"; "AWIESM2"] ([], [], [])
                        (model_point_344 "LIG" "MAT" "Globe" "Bartlein2011"
                           ["CESM2"; "AWIESM2"]) after_a_panel)))
    by (vm_compute; reflexivity).
  split; [exact H|].
  exact (every_model_joins_one_ensemble "LIG" "MAT" "Globe" "Bartlein2011"
           ["CESM2"; "AWIESM2"] ["CESM2"; "AWIESM2"] after_a_panel _ _ H).
Defined.

Lemma keeps_bound_refl s : keeps_bound s s.
Proof. repeat split; auto. Qed.

Lemma keeps_bound_trans s s1 s2 :
  keeps_bound s s1 -> keeps_bound s1 s2 -> keeps_bound s s2.
Proof.
  intros (A1 & A2 & A3) (B1 & B2 & B3). repeat split; [congruence|auto|auto].
Qed.

(** A block that takes the value of a model from a table of global
    means. *)
Lemma wpg_table_block c (tbl : list (string * fnum)) model
    (Q : unit -> State -> Prop) s :
  (c = true -> is_Some (assoc model tbl)) ->
  (forall s1, keeps_bound s s1 -> (c = true -> values_bound s1) -> Q tt s1) ->
  wpg False
    (when c
       (let* x := key_lookup model tbl in
        set_delta (PyFloat x) ;; set_deltaerr (PyInt 0) ;;
        set_pmipphase "PMIP4")) Q s.
Proof.
  intros Ht HQ. apply wpg_when.
  - intros Hc. destruct (Ht Hc) as [x Hx].
    apply wpg_bind, wpg_key_lookup. rewrite Hx.
    wp_locals.
    wp_locals.
    apply wpg_update_locals2. apply HQ.
    + repeat split; st_simpl; auto.
      intros _. exists (PyFloat x), x, (PyInt 0), (of_nat 0).
      st_simpl. repeat split.
    + intros _. exists (PyFloat x), x, (PyInt 0), (of_nat 0).
      st_simpl. repeat split.
  - intros Hc. apply HQ; [apply keeps_bound_refl|]. congruence.
Qed.

(** The block that takes the value of a model of the Mid-Holocene or of the
    LGM from [dic_res], for a panel of the globe. *)
Lemma wpg_stage_block c p period model (Q : unit -> State -> Prop) s :
  (c = true ->
   (exists x, getpath p (dic_res s) = Ok (PyFloat x)) /\
   str_in model list_pmip3_models || str_in model list_pmip4_models = true) ->
  (forall s1, keeps_bound s s1 -> (c = true -> values_bound s1) -> Q tt s1) ->
  wpg False
    (when c
       (let* d := py_getitem p in
        set_delta d ;;
        set_deltaerr (PyInt 0) ;;
        when (str_in model list_pmip3_models) (set_pmipphase "PMIP3") ;;
        when (str_in model list_pmip4_models) (set_pmipphase "PMIP4") ;;
        let* phase := read_name (fun s => pmipphase (locals2 s)) in
        let* d := py_getitem p in
        print [OStr period; OStr phase; OStr model; OObj d])) Q s.
Proof.
  intros Ht HQ. apply wpg_when.
  - intros Hc. destruct (Ht Hc) as [[x Hx] Hp].
    assert (Hv : forall s1,
               delta (locals2 s1) = Some (PyFloat x) ->
               deltaerr (locals2 s1) = Some (PyInt 0) ->
               values_bound s1).
    { intros s1 H1 H2. exists (PyFloat x), x, (PyInt 0), (of_nat 0).
      repeat split; assumption. }
    apply wpg_bind. eapply wpg_getitem; [exact Hx|].
    wp_locals.
    wp_locals.
    destruct (str_in model list_pmip3_models) eqn:E3;
      destruct (str_in model list_pmip4_models) eqn:E4;
      try discriminate Hp; unfold when;
      do 2 (apply wpg_bind;
            first [apply wpg_update_locals2 | apply wpg_ret]);
      (apply wpg_bind, wpg_read_name; st_simpl;
       apply wpg_bind; eapply wpg_getitem; [st_simpl; exact Hx|];
       apply wpg_print; apply HQ;
       [repeat split; st_simpl; auto; intros _; apply Hv; reflexivity
       |intros _; apply Hv; reflexivity]).
  - intros Hc. apply HQ; [apply keeps_bound_refl|]. congruence.
Qed.

Lemma period_tests period :
  str_in period ["MH"; "LGM"; "LIG"; "MPWP"; "EECO"] = true ->
  str_in period ["MH"; "LGM"] = true \/ str_in period ["LIG"] = true \/
  str_in period ["MPWP"] = true \/ str_in period ["EECO"] = true.
Proof.
  unfold str_in. simpl.
  destruct (String.eqb period "MH"), (String.eqb period "LGM"),
    (String.eqb period "LIG"), (String.eqb period "MPWP"),
    (String.eqb period "EECO"); simpl; auto.
Qed.

Lemma model_point_344_total (d : pyobj)
    (period var region rds : string) (lm : list string) (model : string)
    (ens : list pyobj * list pyobj * list pyobj) (s : State) :
  dic_res s = d ->
  (is_Some (index_i (locals2 s)) \/
   str_in model list_pmip3_models_lgm || str_in model list_pmip4_models_lgm
   || str_in model list_pmip3_models_mh || str_in model list_pmip4_models_mh
   = true) ->
  model_value_found d period var region rds model ->
  (str_in model list_cmip6_models = true ->
   is_Some (assoc model dic_color_models)) ->
  all_numbers ens.1.1 -> all_numbers ens.1.2 -> all_numbers ens.2 ->
  wpg False (model_point_344 period var region rds lm model ens)
    (fun ens' s' =>
       dic_res s' = d /\ panel_names_bound s' /\
       is_Some (list_pmip4_models2 (locals2 s')) /\
       all_numbers ens'.1.1 /\ all_numbers ens'.1.2 /\ all_numbers ens'.2) s.
Proof.
  intros Hd Hidx Hval Hcol E1 E2 E3. unfold model_point_344.
  apply wpg_index_step; intros s1 D1 I1.
  apply wpg_index_step; intros s2 D2 I2.
  apply wpg_index_step; intros s3 D3 I3.
  apply wpg_index_step; intros s4 D4 I4.
  assert (Hi : index_bound s4).
  { unfold index_bound. destruct Hidx as [Hi|Hb].
    - apply I4; right. apply I3; right. apply I2; right. apply I1; right.
      exact Hi.
    - apply orb_true_iff in Hb. destruct Hb as [Hb|Hb]; [|apply I4; tauto].
      apply I4; right.
      apply orb_true_iff in Hb. destruct Hb as [Hb|Hb]; [|apply I3; tauto].
      apply I3; right.
      apply orb_true_iff in Hb. destruct Hb as [Hb|Hb]; [|apply I2; tauto].
      apply I2; right. apply I1; tauto. }
  assert (Hd4 : dic_res s4 = d) by congruence.
  clear s1 s2 s3 D1 D2 D3 D4 I1 I2 I3 I4 Hidx Hd s.
  apply (wpg_cut False _ _
           (fun _ s5 => dic_res s5 = d /\ index_bound s5 /\ values_bound s5)).
  - unfold model_value_found in Hval.
    destruct (String.eqb region "Globe").
    + destruct Hval as (Hper & H1 & H2 & H3 & H4).
      apply wpg_bind. apply wpg_stage_block; [rewrite Hd4; exact H1|].
      intros s5 K5 V5.
      apply wpg_bind. apply wpg_table_block; [exact H2|]. intros s6 K6 V6.
      apply wpg_bind. apply wpg_table_block; [exact H3|]. intros s7 K7 V7.
      apply wpg_table_block; [exact H4|]. intros s8 K8 V8.
      pose proof (keeps_bound_trans _ _ _ K5
                    (keeps_bound_trans _ _ _ K6
                       (keeps_bound_trans _ _ _ K7 K8))) as (KA & KB & KC).
      split; [congruence|]. split; [auto|].
      destruct K6 as (_ & _ & K6). destruct K7 as (_ & _ & K7).
      destruct K8 as (_ & _ & K8).
      destruct (period_tests _ Hper) as [T|[T|[T|T]]]; auto.
    + destruct Hval as ((x & Hx) & (e & He)).
      apply wpg_bind. eapply wpg_getitem; [rewrite Hd4; exact Hx|].
      wp_locals.
      apply wpg_bind. eapply wpg_getitem; [st_simpl; rewrite Hd4; exact He|].
      apply wpg_update_locals2. st_simpl.
      split; [exact Hd4|]. split; [exact Hi|].
      exists (PyFloat x), x, (PyFloat e), e. repeat split.
  - intros _ s5 (D5 & I5 & dd & x & e & xe & V1 & V2 & V3 & V4).
    destruct I5 as [i Hi5].
    apply wpg_bind.
    assert (G : forall l,
               wpg False (set_list_pmip4_models2 l)
                 (fun _ s6 => dic_res s6 = d /\
                    delta (locals2 s6) = Some dd /\
                    deltaerr (locals2 s6) = Some e /\
                    index_i (locals2 s6) = Some i /\
                    list_pmip4_models2 (locals2 s6) = Some l) s5).
    { intros l. apply wpg_update_locals2. st_simpl. auto. }
    assert (G' : exists l,
               wpg False
                 (if str_in period ["MH"; "LGM"]
                  then set_list_pmip4_models2 list_pmip4_models
                  else set_list_pmip4_models2 lm)
                 (fun _ s6 => dic_res s6 = d /\
                    delta (locals2 s6) = Some dd /\
                    deltaerr (locals2 s6) = Some e /\
                    index_i (locals2 s6) = Some i /\
                    list_pmip4_models2 (locals2 s6) = Some l) s5).
    { destruct (str_in period ["MH"; "LGM"]); eexists; apply G. }
    destruct G' as [l G'].
    eapply wpg_mono; [|exact G'].
    intros _ s6 (D6 & V6 & V7 & I6 & L6).
    assert (Hend : forall class (s7 : State),
               dic_res s7 = d -> locals2 s7 = locals2 s6 ->
               all_numbers class.2.1.1 -> all_numbers class.2.1.2 ->
               all_numbers class.2.2 ->
               wpg False
                 (let* i := read_name (fun s => index_i (locals2 s)) in
                  let* y := read_float delta in
                  let* yerr := read_float deltaerr in
                  plot "errorbar"
                    [ONat (class.1.1 + 0 * i); OFloat y; OFloat yerr;
                     OStr class.1.2] ;;
                  f_write file_344
                    [OStr "%20s, %7.2f (%5.2f)\n"; OStr (label_of model);
                     OFloat y; OFloat yerr] ;;
                  ret class.2)
                 (fun ens' s' =>
                    dic_res s' = d /\ panel_names_bound s' /\
                    is_Some (list_pmip4_models2 (locals2 s')) /\
                    all_numbers ens'.1.1 /\ all_numbers ens'.1.2 /\
                    all_numbers ens'.2) s7).
    { intros class s7 D7 L7 N1 N2 N3.
      apply wpg_bind, wpg_read_name. rewrite L7, I6.
      unfold read_float.
      apply wpg_bind. apply wpg_bind, wpg_read_name. rewrite L7, V6.
      apply wpg_lift. rewrite V2.
      apply wpg_bind. apply wpg_bind, wpg_read_name. rewrite L7, V7.
      apply wpg_lift. rewrite V4.
      wp_plot. wp_write. apply wpg_ret.
      split; [exact D7|]. split; [|split; [|auto]].
      * exists dd, e, x, xe, i. st_simpl. rewrite L7. auto.
      * st_simpl. rewrite L7, L6. eauto. }
    assert (Nd : all_numbers [dd]).
    { constructor; [eauto|constructor]. }
    apply wpg_bind, wpg_read_name. rewrite L6.
    apply wpg_bind, wpg_read_name. rewrite V6.
    apply wpg_bind.
    destruct (str_in model list_cmip6_models) eqn:Ec.
    + destruct (Hcol eq_refl) as [col Hc].
      apply wpg_bind, wpg_key_lookup. rewrite Hc. apply wpg_ret.
      apply Hend; cbn [fst snd]; auto.
      apply Forall_app; auto.
    + destruct (str_in model l).
      * apply wpg_ret. apply Hend; cbn [fst snd]; auto.
        apply Forall_app; auto.
      * apply wpg_ret. apply Hend; cbn [fst snd]; auto.
        apply Forall_app; auto.
Qed.

Lemma names_bound_locals s s' :
  locals2 s' = locals2 s -> panel_names_bound s -> panel_names_bound s'.
Proof. unfold panel_names_bound. intros ->. auto. Qed.

Lemma to_floats_ok l : all_numbers l -> exists xs, to_floats l = Ok xs.
Proof.
  induction 1 as [|o l [x Hx] _ [xs IH]]; simpl; [eauto|].
  rewrite Hx. simpl. rewrite IH. simpl. eauto.
Qed.

Lemma legend_models_checked :
  forallb (fun m => str_in m ["AWIESM1"; "MPI-PMIP4"; "CESM2.1"]
                    || bool_decide (is_Some (assoc m dic_color_models)))
    list_cmip6_models = true.
Proof. vm_compute. reflexivity. Qed.

Lemma legend_colours model :
  In model list_cmip6_models ->
  negb (str_in model ["AWIESM1"; "MPI-PMIP4"; "CESM2.1"]) = true ->
  is_Some (assoc model dic_color_models).
Proof.
  intros H Hn. pose proof legend_models_checked as F.
  rewrite forallb_forall in F. specialize (F model H).
  apply negb_true_iff in Hn. rewrite Hn in F. simpl in F.
  apply bool_decide_eq_true in F. exact F.
Qed.

(** A panel of Figure 3.44 runs to its end when [dic_res] and the tables
    hold what it reads. *)
Lemma panel_344_total (w : World) (d : pyobj) (sp : subplot)
    (period var region rds : string) (lmods : list string) (s : State) :
  snd <$> find (fun e => bool_decide (e.1 = sp)) dic_summ_plots
  = Some (period, var, region, rds) ->
  is_Some (assoc rds dic_labels) ->
  models_of_period w period = Some lmods -> lmods <> [] ->
  dic_res s = d ->
  (if String.eqb region "Globe"
   then is_Some (assoc period darrell_s_delta_gsat_estimates) /\
        panel_names_bound s
   else (exists x, getpath [period; var; region; rds; "reconstructions";
                            "mean"] d = Ok (PyFloat x)) /\
        (exists x, getpath [period; var; region; rds; "reconstructions";
                            "std"] d = Ok (PyFloat x))) ->
  (forall model, In model lmods ->
     model_value_found d period var region rds model /\
     (str_in model list_cmip6_models = true ->
      is_Some (assoc model dic_color_models)) /\
     (String.eqb region "Globe" = true \/
      str_in model list_pmip3_models_lgm
      || str_in model list_pmip4_models_lgm
      || str_in model list_pmip3_models_mh
      || str_in model list_pmip4_models_mh = true)) ->
  wpg False (panel_344 w sp)
    (fun _ s' => dic_res s' = d /\ panel_names_bound s' /\
                 is_Some (list_pmip4_models2 (locals2 s'))) s.
Proof.
  intros Hfind [label Hlabel] Hmods Hne Hd Hrec Hmodel.
  unfold panel_344. apply wpg_bind, wpg_lift. rewrite Hfind.
  cbn [of_option fst snd].
  wp_write.
  apply wpg_bind, wpg_key_lookup. rewrite Hlabel. cbv beta iota.
  wp_write.
  do 3 (wp_plot).
  apply wpg_bind, wpg_when; [intros _; apply wpg_plot; st_goal|intros _];
    (do 2 (wp_plot);
     apply (wpg_cut False _ _
              (fun _ s1 => dic_res s1 = d /\
                 (String.eqb region "Globe" = true -> index_bound s1) /\
                 values_bound s1));
     [ destruct (String.eqb region "Globe") eqn:Eg;
       [ destruct Hrec as [[range Hr] (dd & e & x & xe & i & B)];
         apply wpg_bind, wpg_key_lookup; rewrite Hr; cbv beta iota;
         apply wpg_plot;
         st_simpl; split; [exact Hd|];
         split; [intros _; exists i; tauto|];
         exists dd, x, e, xe; tauto
       | destruct Hrec as [[x Hx] [e He]];
         apply wpg_bind; eapply wpg_getitem; [st_simpl; rewrite Hd; exact Hx|];
         wp_locals;
         apply wpg_bind; eapply wpg_getitem; [st_simpl; rewrite Hd; exact He|];
         wp_locals;
         do 2 (apply wpg_bind, wpg_lift; cbn [to_float]);
         wp_plot; apply wpg_plot; st_simpl;
         split; [exact Hd|]; split; [discriminate|];
         exists (PyFloat x), x, (PyFloat e), e; repeat split ]
     | ]).
  all: intros _ s1 (D1 & I1 & dd & x & e & xe & V1 & V2 & V3 & V4).
  all: unfold read_float.
  all: apply wpg_bind; [apply wpg_bind, wpg_read_name; rewrite V1;
                        cbv beta iota; apply wpg_lift; rewrite V2;
                        cbv beta iota].
  all: apply wpg_bind; [apply wpg_bind, wpg_read_name; rewrite V3;
                        cbv beta iota; apply wpg_lift; rewrite V4;
                        cbv beta iota].
  all: wp_write.
  all: apply wpg_bind, wpg_lift; rewrite Hmods; cbn [of_option].
  all: wp_write.
  all: apply (wpg_cut False _ _
                (fun ens s2 => dic_res s2 = d /\ panel_names_bound s2 /\
                   is_Some (list_pmip4_models2 (locals2 s2)) /\
                   all_numbers ens.1.1 /\ all_numbers ens.1.2 /\
                   all_numbers ens.2)).
  1, 3: eapply wpg_mono;
    [|apply (wpg_for_fold False
               (fun done ens s2 =>
                  dic_res s2 = d /\
                  (String.eqb region "Globe" = true -> index_bound s2) /\
                  (done <> [] ->
                   panel_names_bound s2 /\
                   is_Some (list_pmip4_models2 (locals2 s2))) /\
                  all_numbers ens.1.1 /\ all_numbers ens.1.2 /\
                  all_numbers ens.2))];
    [ intros ens s2 (D2 & _ & B2 & N); destruct (B2 Hne); auto
    | st_simpl; split; [exact D1|]; split; [exact I1|];
      split; [congruence|]; repeat split; constructor
    | intros done model rest ens s2 Hl (D2 & I2 & B2 & N1 & N2 & N3);
      assert (Hin : In model lmods)
        by (rewrite Hl; apply in_or_app; simpl; tauto);
      destruct (Hmodel model Hin) as (Hv & Hc & Hi);
      eapply wpg_mono;
        [|apply (model_point_344_total d period var region rds lmods model
                   ens s2 D2);
          [destruct Hi as [Hg|Hf]; [left; apply I2, Hg|right; exact Hf]
          |exact Hv|exact Hc|exact N1|exact N2|exact N3]];
      intros ens' s3 (D3 & B3 & L3 & M);
      split; [exact D3|];
      split; [intros _; destruct B3 as (? & ? & ? & ? & i & B3);
              exists i; tauto|];
      split; [auto|exact M]
    ].
  all: intros ens s2 (D2 & B2 & L2 & N1 & N2 & N3).
  all: destruct (to_floats_ok (ens.1.1 ++ ens.1.2)) as [ar6 H6];
    [apply Forall_app; auto|].
  all: destruct (to_floats_ok ens.2 N3) as [ar5 H5].
  all: apply wpg_bind, wpg_lift; rewrite H6; cbv beta iota.
  all: apply wpg_bind, wpg_lift; rewrite H5; cbv beta iota.
  all: do 2 (wp_plot).
  all: do 3 (wp_write).
  all: apply (wpg_cut False _ _
                (fun _ s3 => dic_res s3 = d /\ locals2 s3 = locals2 s2)).
  1, 3: apply wpg_when; [intros _|intros _; st_simpl; auto];
    apply wpg_bind;
    [eapply wpg_mono;
       [|apply (wpg_for_each False
                  (fun _ s3 => dic_res s3 = d /\ locals2 s3 = locals2 s2))];
       [ intros _ s3 [D3 L3]; apply wpg_plot; st_simpl; auto
       | st_simpl; auto
       | intros done model rest s3 Hl [D3 L3];
         assert (Hin : In model list_cmip6_models)
           by (rewrite Hl; apply in_or_app; simpl; tauto);
         apply wpg_when; [|auto]; intros Hn;
         destruct (legend_colours model Hin Hn) as [col Hcol];
         apply wpg_bind, wpg_key_lookup; rewrite Hcol; cbv beta iota;
         apply wpg_plot; st_simpl; auto ]].
  all: intros _ s3 [D3 L3].
  all: apply wpg_bind, wpg_when; [intros _; apply wpg_plot; st_goal|intros _].
  all: (apply wpg_bind, wpg_when; [intros _; apply wpg_plot; st_goal|intros _]).
  all: (apply wpg_when; [intros _; apply wpg_plot; st_goal|intros _]).
  all: st_simpl.
  all: (split; [exact D3|]; split;
        [eapply names_bound_locals; [|exact B2]; st_simpl; exact L3
        |rewrite L3; exact L2]).
Qed.

(** ** What the tables provide *)

Lemma stage_models_checked :
  forallb (fun m => has_colour m && has_index m && has_phase m)
    (list_models_lgm ++ list_models_mh) = true.
Proof. vm_compute. reflexivity. Qed.

Lemma table_models_checked :
  forallb has_colour
    (keys dic_global_mean_lig ++ keys dic_global_mean_plio
     ++ keys dic_global_mean_eocene) = true.
Proof. vm_compute. reflexivity. Qed.

Lemma has_colour_spec model :
  has_colour model = true ->
  str_in model list_cmip6_models = true ->
  is_Some (assoc model dic_color_models).
Proof.
  unfold has_colour. intros H Hc. rewrite Hc in H. simpl in H.
  apply bool_decide_eq_true in H. exact H.
Qed.

Lemma stage_model_checked model :
  In model list_models_lgm \/ In model list_models_mh ->
  has_colour model = true /\ has_index model = true /\
  has_phase model = true.
Proof.
  intros H. pose proof stage_models_checked as F.
  rewrite forallb_forall in F. specialize (F model).
  rewrite in_app_iff in F. specialize (F H).
  apply andb_true_iff in F. destruct F as [F F3].
  apply andb_true_iff in F. tauto.
Qed.

Lemma keys_assoc {A} (l : list (string * A)) k :
  In k (keys l) -> is_Some (assoc k l).
Proof.
  unfold keys. induction l as [|[k' a] l IH]; simpl; [intros []|].
  destruct (String.eqb_spec k k') as [->|Hne]; [eauto|].
  intros [H|H]; [congruence|auto].
Qed.

Ltac eval_period_tests :=
  repeat match goal with
         | |- context [str_in (String ?c ?r) ?l] =>
             let b := eval vm_compute in (str_in (String c r) l) in
             change (str_in (String c r) l) with b
         end.

(** The numbers of a processed combination that Part II reads. *)
Lemma entry_floats w d period region rds var lm dm :
  averaged w all_combos d ->
  In period list_periods -> In region list_regions ->
  selected period rds var ->
  period_setup period = Some (lm, dm) ->
  let p := [period; var; region; rds] in
  (exists x, getpath (p ++ ["reconstructions"; "mean"]) d = Ok (PyFloat x)) /\
  (exists x, getpath (p ++ ["reconstructions"; "std"]) d = Ok (PyFloat x)) /\
  forall model case, In model lm -> In case both_cases ->
    (exists x, getpath (p ++ [model; case; "delta_mean"]) d
               = Ok (PyFloat x)) /\
    (exists x, getpath (p ++ [model; case; "delta_std"]) d = Ok (PyFloat x)).
Proof.
  intros Hav Hp Hr Hsel Hs p.
  destruct (processed_entry w d period region rds var Hav Hp Hr Hsel)
    as (b & setup & Hb & Hs' & e & He & g & mk & Hrec & Hmod).
  rewrite Hs in Hs'. inversion Hs'; subst setup. cbn [fst] in Hmod.
  destruct Hrec as (a & c & pos & _ & H). cbv zeta in H.
  destruct H as (_ & _ & _ & _ & G3 & G4).
  unfold p. rewrite !getpath_app, He.
  split; [eauto|]. split; [eauto|].
  intros model case Hm Hc.
  destruct (Hmod model Hm) as (em & Hem & vpi & vpast & series & _ & _ & H).
  destruct (H case Hc) as (pos' & H'). cbv zeta in H'.
  destruct H' as (_ & _ & D1 & D2).
  change [model; case; "delta_mean"] with ([model] ++ [case; "delta_mean"]).
  change [model; case; "delta_std"] with ([model] ++ [case; "delta_std"]).
  rewrite !getpath_app, He. cbv beta iota.
  rewrite !getpath_app, Hem. eauto.
Qed.

Lemma stage_model_found w d period region rds var lm dm model :
  averaged w all_combos d ->
  In period list_periods -> In region list_regions ->
  selected period rds var ->
  period_setup period = Some (lm, dm) -> In model lm ->
  model_value_found d period var region rds model /\
  (str_in model list_cmip6_models = true ->
   is_Some (assoc model dic_color_models)) /\
  has_index model = true.
Proof.
  intros Hav Hp Hr Hsel Hs Hm.
  destruct (entry_floats w d period region rds var lm dm Hav Hp Hr Hsel Hs)
    as (_ & _ & Hf).
  assert (Hc : has_colour model = true /\ has_index model = true /\
               has_phase model = true).
  { apply stage_model_checked. apply period_setup_cases in Hs.
    destruct Hs as [(_ & -> & _)|(_ & -> & _)]; tauto. }
  destruct Hc as (C1 & C2 & C3).
  split; [|split; [apply has_colour_spec, C1|exact C2]].
  unfold model_value_found.
  destruct (Hf model "allmodelpts" Hm ltac:(simpl; tauto)) as [A1 _].
  destruct (Hf model "modelonrecpts" Hm ltac:(simpl; tauto)) as [B1 B2].
  cbn [app] in *.
  destruct (String.eqb region "Globe"); [|split; assumption].
  simpl in Hp. destruct Hp as [<-|[<-|[]]]; eval_period_tests;
    (split; [reflexivity|]; split; [intros _; split; [exact A1|exact C3]|];
     repeat split; discriminate).
Qed.

Lemma table_model_found d period (tbl : list (string * fnum)) var rds model :
  (period, tbl) = ("LIG", dic_global_mean_lig) \/
  (period, tbl) = ("MPWP", dic_global_mean_plio) \/
  (period, tbl) = ("EECO", dic_global_mean_eocene) ->
  In model (keys tbl) ->
  model_value_found d period var "Globe" rds model /\
  (str_in model list_cmip6_models = true ->
   is_Some (assoc model dic_color_models)).
Proof.
  intros Hp Hm.
  assert (Hc : has_colour model = true).
  { pose proof table_models_checked as F. rewrite forallb_forall in F.
    apply F. rewrite !in_app_iff.
    destruct Hp as [H|[H|H]]; inversion H; subst; tauto. }
  split; [|apply has_colour_spec, Hc].
  pose proof (keys_assoc tbl model Hm) as Ha.
  unfold model_value_found. change (String.eqb "Globe" "Globe") with true.
  cbv iota.
  destruct Hp as [H|[H|H]]; inversion H; subst; eval_period_tests;
    (split; [reflexivity|]; repeat split; try discriminate;
     intros _; exact Ha).
Qed.

Lemma perm_in_keys (w : World) {A} (l : list A) x :
  keys_enumerated w -> In x (keys_order w A l) -> In x l.
Proof. intros H. apply Permutation_in, H. Qed.

Lemma perm_not_nil (w : World) {A} (l : list A) :
  keys_enumerated w -> l <> [] -> keys_order w A l <> [].
Proof.
  intros H Hl E. specialize (H A l). rewrite E in H.
  apply Permutation_nil in H. congruence.
Qed.

Ltac selected_now :=
  unfold selected; eexists; eexists;
  split; [reflexivity|]; split; [reflexivity|]; simpl; tauto.

(** Every panel of [dic_summ_plots] finds what it reads in the results of
    the averaging stage and in the tables. *)
Lemma panel_ready (w : World) (d : pyobj) (sp : subplot)
    (period var region rds : string) :
  averaged w all_combos d -> keys_enumerated w ->
  In (sp, (period, var, region, rds)) dic_summ_plots ->
  exists lmods,
    snd <$> find (fun e => bool_decide (e.1 = sp)) dic_summ_plots
    = Some (period, var, region, rds) /\
    is_Some (assoc rds dic_labels) /\
    models_of_period w period = Some lmods /\ lmods <> [] /\
    (if String.eqb region "Globe"
     then is_Some (assoc period darrell_s_delta_gsat_estimates)
     else (exists x, getpath [period; var; region; rds; "reconstructions";
                              "mean"] d = Ok (PyFloat x)) /\
          (exists x, getpath [period; var; region; rds; "reconstructions";
                              "std"] d = Ok (PyFloat x))) /\
    (forall model, In model lmods ->
       model_value_found d period var region rds model /\
       (str_in model list_cmip6_models = true ->
        is_Some (assoc model dic_color_models)) /\
       (String.eqb region "Globe" = true \/ has_index model = true)).
Proof.
  intros Hav Hperm Hin.
  assert (Hstage : forall lm dm,
             In period list_periods -> In region list_regions ->
             selected period rds var ->
             period_setup period = Some (lm, dm) ->
             (if String.eqb region "Globe" then True
              else (exists x, getpath [period; var; region; rds;
                                       "reconstructions"; "mean"] d
                              = Ok (PyFloat x)) /\
                   (exists x, getpath [period; var; region; rds;
                                       "reconstructions"; "std"] d
                              = Ok (PyFloat x))) /\
             forall model, In model lm ->
               model_value_found d period var region rds model /\
               (str_in model list_cmip6_models = true ->
                is_Some (assoc model dic_color_models)) /\
               (String.eqb region "Globe" = true \/ has_index model = true)).
  { intros lm dm Hp Hr Hsel Hs. split.
    - destruct (entry_floats w d period region rds var lm dm Hav Hp Hr Hsel
                  Hs) as (R1 & R2 & _).
      destruct (String.eqb region "Globe"); [exact I|]. split; assumption.
    - intros model Hm.
      destruct (stage_model_found w d period region rds var lm dm model
                  Hav Hp Hr Hsel Hs Hm) as (F1 & F2 & F3). auto. }
  unfold dic_summ_plots in Hin. simpl in Hin.
  repeat (destruct Hin as [Hin|Hin]; [inversion Hin; subst; clear Hin|]);
    [..|destruct Hin].
  all: try (exists list_models_mh;
            destruct (Hstage list_models_mh dir_mh ltac:(simpl; tauto)
                        ltac:(simpl; tauto) ltac:(selected_now) eq_refl)
              as [S1 S2];
            split; [reflexivity|]; split; [eexists; reflexivity|];
            split; [reflexivity|]; split; [discriminate|];
            split; [first [exact S1 | eexists; reflexivity]|exact S2]).
  all: try (exists list_models_lgm;
            destruct (Hstage list_models_lgm dir_lgm ltac:(simpl; tauto)
                        ltac:(simpl; tauto) ltac:(selected_now) eq_refl)
              as [S1 S2];
            split; [reflexivity|]; split; [eexists; reflexivity|];
            split; [reflexivity|]; split; [discriminate|];
            split; [first [exact S1 | eexists; reflexivity]|exact S2]).
  all: eexists; split; [reflexivity|]; split; [eexists; reflexivity|];
    split; [reflexivity|]; split; [apply perm_not_nil;
                                   [exact Hperm|discriminate]|];
    split; [eexists; reflexivity|];
    intros model Hm; apply (perm_in_keys w _ _ Hperm) in Hm;
    match goal with
    | |- model_value_found _ ?p _ _ _ _ /\ _ =>
        match type of Hm with
        | In _ (keys ?tbl) =>
            destruct (table_model_found d p tbl "MAT" "Bartlein2011" model
                        ltac:(first [left; reflexivity
                                    |right; left; reflexivity
                                    |right; right; reflexivity]) Hm)
              as [T1 T2]
        end
    end;
    split; [exact T1|]; split; [exact T2|left; reflexivity].
Qed.

(* ================================================================== *)
(** * Figure 3.2a *)

Lemma selected_lgm_tierney_matocean : selected "LGM" "Tierney2019" "MATocean".
Proof.
  unfold selected. eexists. eexists.
  split; [reflexivity|]. split; [reflexivity|]. simpl. tauto.
Qed.

Lemma selected_lgm_cleator_mat : selected "LGM" "Cleator2019" "MAT".
Proof.
  unfold selected. eexists. eexists.
  split; [reflexivity|]. split; [reflexivity|]. simpl. tauto.
Qed.

(** Figure 3.2a on the results of the averaging stage. *)
Lemma figure_32a_total (w : World) (d : pyobj) (s : State) :
  averaged w all_combos d -> dic_res s = d ->
  is_Some (list_pmip4_models2 (locals2 s)) ->
  wpg False figure_32a (fun _ s' => dic_res s' = d) s.
Proof.
  intros Hav Hd [l Hl].
  destruct (entry_floats w d "LGM" "Globe" "Tierney2019" "MATocean"
              list_models_lgm dir_lgm Hav ltac:(simpl; tauto)
              ltac:(simpl; tauto) selected_lgm_tierney_matocean eq_refl)
    as ((xo & Ho) & (xoe & Hoe) & Hmo).
  destruct (entry_floats w d "LGM" "Globe" "Cleator2019" "MAT"
              list_models_lgm dir_lgm Hav ltac:(simpl; tauto)
              ltac:(simpl; tauto) selected_lgm_cleator_mat eq_refl)
    as ((xl & Hxl) & (xle & Hxle) & Hml).
  cbn [app] in Ho, Hoe, Hxl, Hxle, Hmo, Hml.
  unfold figure_32a.
  change (String.eqb plot_deltaTland_vs_deltaTocean "yes") with true.
  unfold when. cbn [for_each].
  do 3 (wp_write).
  apply wpg_bind. wp_plot.
  apply wpg_bind, wpg_key_lookup.
  change (assoc "Globe" dic_lims_region) with (Some (-13, 1)%Z). cbv beta iota.
  do 4 (wp_plot).
  apply wpg_bind. apply wpg_bind.
  apply wpg_bind. eapply wpg_getitem; [st_simpl; rewrite Hd; exact Ho|].
  apply wpg_bind. eapply wpg_getitem; [st_simpl; rewrite Hd; exact Hoe|].
  apply wpg_bind. eapply wpg_getitem; [st_simpl; rewrite Hd; exact Hxl|].
  apply wpg_bind. eapply wpg_getitem; [st_simpl; rewrite Hd; exact Hxle|].
  do 4 (apply wpg_bind, wpg_lift; cbn [to_float]).
  do 3 (wp_plot).
  wp_write.
  apply wpg_bind, wpg_key_lookup.
  change (assoc "Cleator2019" dic_labels) with (Some "Cleator2020"). cbv beta iota.
  do 3 (wp_write).
  apply wpg_bind, wpg_key_lookup.
  change (assoc "Tierney2019" dic_labels) with (Some "Tierney2020"). cbv beta iota.
  do 5 (wp_write).
  apply wpg_bind.
  eapply wpg_mono;
    [|apply (wpg_for_each False
               (fun _ s2 => dic_res s2 = d /\
                            list_pmip4_models2 (locals2 s2) = Some l))].
  - intros u s2 [D2 L2]. wp_write.
    apply wpg_plot. apply wpg_ret. wp_plot.
    apply wpg_plot. apply wpg_ret. st_simpl. exact D2.
  - st_simpl. split; [exact Hd|exact Hl].
  - intros done model rest s2 Hlist [D2 L2].
    assert (Hm : In model list_models_lgm)
      by (rewrite Hlist; apply in_or_app; simpl; tauto).
    destruct (Hmo model "modelonrecpts" Hm ltac:(simpl; tauto))
      as ((a1 & A1) & (a2 & A2)).
    destruct (Hml model "modelonrecpts" Hm ltac:(simpl; tauto))
      as ((a3 & A3) & (a4 & A4)).
    destruct (stage_model_checked model (or_introl Hm)) as (Hcol & _).
    unfold model_point_32a.
    apply wpg_bind. eapply wpg_getitem; [rewrite D2; exact A1|].
    apply wpg_bind. eapply wpg_getitem; [rewrite D2; exact A2|].
    apply wpg_bind. eapply wpg_getitem; [rewrite D2; exact A3|].
    apply wpg_bind. eapply wpg_getitem; [rewrite D2; exact A4|].
    apply wpg_bind.
    destruct (str_in model list_cmip6_models) eqn:Ec.
    + destruct (has_colour_spec model Hcol Ec) as [col Hc].
      apply wpg_bind, wpg_key_lookup. rewrite Hc. cbv beta iota.
      apply wpg_ret.
      do 4 (apply wpg_bind, wpg_lift; cbn [to_float]).
      wp_plot. apply wpg_f_write. st_simpl. auto.
    + apply wpg_bind, wpg_read_name. rewrite L2. cbv beta iota.
      apply wpg_ret.
      do 4 (apply wpg_bind, wpg_lift; cbn [to_float]).
      wp_plot. apply wpg_f_write. st_simpl. auto.
Qed.

(** X18.  Figure 3.2a and its report can always be produced from the
    results of an averaging stage that ran to its end: every entry of
    [dic_res] it reads is there and holds a number, every LGM model of
    [list_cmip6_models] has a colour; it only needs [list_pmip4_models2]
    bound, which the loop of Figure 3.44 does. *)
Theorem figure_32a_is_drawn_from_the_results (w : World)
    (s0 s1 s : State) (l : list string) :
  part1 w "yes" s0 = (Ok tt, s1) ->
  dic_res s = dic_res s1 ->
  list_pmip4_models2 (locals2 s) = Some l ->
  exists s', figure_32a s = (Ok tt, s') /\ dic_res s' = dic_res s.
Proof.
  intros Hrun Hd Hl. destruct (part1_averaged _ _ _ Hrun) as [Hav _].
  rewrite <- Hd in Hav.
  destruct (wpg_total _ _ _
              (figure_32a_total w (dic_res s) s Hav eq_refl
                 (ex_intro _ l Hl)))
    as ([] & s' & H1 & H2).
  eauto.
Qed.

Lemma dic_res_with_locals2 l s : dic_res (with_locals2 l s) = dic_res s.
Proof. reflexivity. Qed.

Lemma figure_32a_is_drawn_from_the_results_witness :
  part1 small_world "yes" (initial_state ∅) = (Ok tt, averaged_small) /\
  dic_res plot_ready_small = dic_res averaged_small /\
  list_pmip4_models2 (locals2 plot_ready_small) = Some [] /\
  exists s', figure_32a plot_ready_small = (Ok tt, s') /\
             dic_res s' = dic_res plot_ready_small.
Proof.
  assert (H1 : dic_res plot_ready_small = dic_res averaged_small)
    by apply dic_res_with_locals2.
  assert (H2 : list_pmip4_models2 (locals2 plot_ready_small) = Some [])
    by reflexivity.
  split; [exact part1_small_run|]. split; [exact H1|]. split; [exact H2|].
  exact (figure_32a_is_drawn_from_the_results small_world (initial_state ∅)
           averaged_small plot_ready_small [] part1_small_run H1 H2).
Defined.

(** Figure 3.44 on the results of the averaging stage. *)
Lemma figure_344_total (w : World) (d : pyobj) (s : State) :
  averaged w all_combos d -> keys_enumerated w -> dic_res s = d ->
  first_panel_can_start w s ->
  wpg False (figure_344 w)
    (fun _ s' => dic_res s' = d /\
                 is_Some (list_pmip4_models2 (locals2 s'))) s.
Proof.
  intros Hav Hperm Hd Hfirst. unfold figure_344.
  do 3 (wp_write). wp_plot.
  cbv zeta. apply wpg_bind.
  eapply wpg_mono;
    [|apply (wpg_for_each False
               (fun done s' =>
                  dic_res s' = d /\
                  (done = [] -> locals2 s' = locals2 s) /\
                  (done <> [] ->
                   panel_names_bound s' /\
                   is_Some (list_pmip4_models2 (locals2 s'))))) ].
  - intros _ s' (D & _ & B).
    destruct B as [_ L].
    { apply perm_not_nil; [exact Hperm|discriminate]. }
    wp_plot. apply wpg_plot. st_simpl. auto.
  - st_simpl. split; [exact Hd|]. split; [reflexivity|congruence].
  - intros done sp rest s0 Hl (D0 & F0 & B0).
    assert (Hsp : In sp (map fst dic_summ_plots)).
    { apply (perm_in_keys w _ _ Hperm). rewrite Hl.
      apply in_or_app. simpl. tauto. }
    apply in_map_iff in Hsp.
    destruct Hsp as ([sp' [[[period var] region] rds]] & Es & Hin).
    simpl in Es. subst sp'.
    destruct (panel_ready w d sp period var region rds Hav Hperm Hin)
      as (lmods & P1 & P2 & P3 & P4 & P5 & P6).
    eapply wpg_mono;
      [|apply (panel_344_total w d sp period var region rds lmods s0
                 P1 P2 P3 P4 D0); [|exact P6]].
    + intros _ s1 (D1 & B1 & L1). split; [exact D1|].
      split; [intros E; destruct done; discriminate E|auto].
    + destruct (String.eqb region "Globe") eqn:Eg; [|exact P5].
      split; [exact P5|].
      destruct done as [|sp0 done].
      * specialize (F0 eq_refl).
        destruct Hfirst as [Hb|Hh].
        { apply (names_bound_locals s); assumption. }
        destruct Hh as (sph & resth & ph & vh & rh & dh & Hk & Hinh & Hne).
        exfalso. apply Hne. cbn [app] in Hl. rewrite Hl in Hk.
        inversion Hk; subst sph resth.
        destruct (panel_ready w d sp ph vh rh dh Hav Hperm Hinh)
          as (lmods' & P1' & _).
        rewrite P1 in P1'. inversion P1'; subst.
        apply String.eqb_eq, Eg.
      * apply B0. discriminate.
Qed.

(** X19.  From the results of an averaging stage that ran to its end,
    Part II runs to its end, leaving [dic_res] as it is, whenever Python
    enumerates every panel of [dic_summ_plots] and every model of the
    tables of global means, each once, and the first panel can start: it is
    a regional one, or [delta], [deltaerr] and [i] are already bound. *)
Theorem figures_are_drawn_from_the_results (w : World) (s0 s1 s : State) :
  part1 w "yes" s0 = (Ok tt, s1) ->
  dic_res s = dic_res s1 ->
  keys_enumerated w ->
  first_panel_can_start w s ->
  exists s', part2 w s = (Ok tt, s') /\ dic_res s' = dic_res s.
Proof.
  intros Hrun Hd Hperm Hfirst.
  destruct (part1_averaged _ _ _ Hrun) as [Hav _]. rewrite <- Hd in Hav.
  assert (W : wpg False (part2 w) (fun _ s' => dic_res s' = dic_res s) s).
  { unfold part2. apply wpg_bind.
    eapply wpg_mono;
      [|apply (figure_344_total w (dic_res s) s Hav Hperm eq_refl Hfirst)].
    intros _ s1' [D1 L1]. apply (figure_32a_total w); assumption. }
  destruct (wpg_total _ _ _ W) as ([] & s' & H1 & H2). eauto.
Qed.

Lemma small_world_enumerates : keys_enumerated small_world.
Proof. intros A l. reflexivity. Qed.

Lemma plot_ready_small_bound : panel_names_bound plot_ready_small.
Proof.
  exists (PyFloat (Fin 1)), (PyInt 0), (Fin 1), (of_nat 0), 0%nat.
  repeat split.
Qed.

Lemma figures_are_drawn_from_the_results_witness :
  part1 small_world "yes" (initial_state ∅) = (Ok tt, averaged_small) /\
  dic_res plot_ready_small = dic_res averaged_small /\
  keys_enumerated small_world /\
  first_panel_can_start small_world plot_ready_small /\
  exists s', part2 small_world plot_ready_small = (Ok tt, s') /\
             dic_res s' = dic_res plot_ready_small.
Proof.
  assert (H1 : dic_res plot_ready_small = dic_res averaged_small)
    by apply dic_res_with_locals2.
  assert (H2 : first_panel_can_start small_world plot_ready_small)
    by (left; exact plot_ready_small_bound).
  split; [exact part1_small_run|]. split; [exact H1|].
  split; [exact small_world_enumerates|]. split; [exact H2|].
  exact (figures_are_drawn_from_the_results small_world (initial_state ∅)
           averaged_small plot_ready_small part1_small_run H1
           small_world_enumerates H2).
Defined.
